(** * STM32 CRYP driver (drivers/crypto/crypto_stm32.c): a shallow embedding

    The driver multiplexes a fixed table of cipher sessions onto one AES
    accelerator.  The accelerator itself (the vendor [HAL_CRYP_*] calls) is
    an opaque collaborator: it is a parameter of the development.  Buffers
    are lists of bytes, C [int]s are [Z] with the conversions written out,
    and every function of the driver is a function of the driver state that
    either returns or stops in a fault (failed assertion, access outside an
    object, signed overflow, a semaphore that would never be given). *)

From Stdlib Require Import ZArith Lia List Bool.
From Stdlib.Strings Require Import Byte.
From stdpp Require Import base list.
Import ListNotations.

Local Open Scope Z_scope.

(** ** Machine integers (ILP32 target) *)

Definition INT_MAX : Z := 2147483647.
Definition INT_MIN : Z := -2147483648.

(** Conversion of a value to [size_t] / [u32_t]: reduction modulo 2^32. *)
Definition to_u32 (z : Z) : Z := z mod 2 ^ 32.

(** Conversion of an unsigned 32-bit value to [int] (two's complement). *)
Definition to_int (z : Z) : Z := (z + 2 ^ 31) mod 2 ^ 32 - 2 ^ 31.

(** errno values used by the driver. *)
Definition EIO : Z := 5.
Definition EINVAL : Z := 22.
Definition ENOSPC : Z := 28.

(** ** Faults and the result type *)

Inductive fault : Type :=
| AssertFail        (* __ASSERT_NO_MSG failed (CONFIG_ASSERT=y) *)
| BufferOverrun     (* write outside the destination object *)
| BufferOverread    (* read outside the source object *)
| BadPointer        (* dereference of a pointer to no session *)
| SignedOverflow    (* int arithmetic out of range *)
| Blocked           (* k_sem_take(K_FOREVER) on a semaphore nobody gives *)
| OutOfFuel.

Inductive result (A : Type) : Type :=
| Ok (a : A)
| Fault (f : fault).
Arguments Ok {A} a.
Arguments Fault {A} f.

Definition rbind {A B} (r : result A) (k : A -> result B) : result B :=
  match r with
  | Ok a => k a
  | Fault f => Fault f
  end.

Notation "'check' x <- e ; k" := (rbind e (fun x => k))
  (at level 10, x name, e at level 100, k at level 200).

(** Signed [int] addition and subtraction: out of range is undefined. *)
Definition int_add (a b : Z) : result Z :=
  if (INT_MIN <=? a + b) && (a + b <=? INT_MAX) then Ok (a + b)
  else Fault SignedOverflow.

Definition int_sub (a b : Z) : result Z :=
  if (INT_MIN <=? a - b) && (a - b <=? INT_MAX) then Ok (a - b)
  else Fault SignedOverflow.

(** ** Byte buffers *)

Definition zeros (n : nat) : list byte := repeat x00 n.

(** [memcpy(dst, src, n)] with [dst], [src] the objects pointed to and [n]
    already a [size_t]. *)
Definition memcpy (dst src : list byte) (n : Z) : result (list byte) :=
  if Z.of_nat (length dst) <? n then Fault BufferOverrun
  else if Z.of_nat (length src) <? n then Fault BufferOverread
  else Ok (take (Z.to_nat n) src ++ drop (Z.to_nat n) dst).

(** Modelled from the spec: [sys_mem_swap] of <sys/byteorder.h> is not among
    the sources; section 4.1 says the transform must "reverse the byte order
    of every 4-byte word of the destination".  [sys_mem_swap(&buf[i], len)]
    reverses the [len] bytes that start at index [i], in place. *)
Definition sys_mem_swap (buf : list byte) (i len : Z) : result (list byte) :=
  if (i <? 0) || (Z.of_nat (length buf) <? i + len) then Fault BufferOverrun
  else Ok (take (Z.to_nat i) buf
           ++ rev (take (Z.to_nat len) (drop (Z.to_nat i) buf))
           ++ drop (Z.to_nat (i + len)) buf).

(** Writing [data] at [buf + off] (what a callee given that pointer does). *)
Definition write_at (buf : list byte) (off : Z) (data : list byte)
  : result (list byte) :=
  if (off <? 0) || (Z.of_nat (length buf) <? off + Z.of_nat (length data))
  then Fault BufferOverrun
  else Ok (take (Z.to_nat off) buf ++ data
           ++ drop (Z.to_nat off + length data) buf).

(** ** copy_reverse_words *)

(** Kconfig: the size of the session table and whether assertions are
    compiled in.  Neither value is fixed by the sources at hand. *)
Class Kconfig := {
  CONFIG_CRYPTO_STM32_MAX_SESSION : nat;
  CONFIG_ASSERT : bool
}.

Section ByteOrder.

Context {K : Kconfig}.

Definition __ASSERT_NO_MSG (test : bool) : result unit :=
  if CONFIG_ASSERT && negb test then Fault AssertFail else Ok tt.

(** The loop [for (i = 0; i < dst_len; i += sizeof(u32_t))]; the increment
    is computed in [size_t] and converted back to [int]. *)
Fixpoint swap_words_loop (fuel : nat) (dst_buf : list byte) (dst_len i : Z)
  : result (list byte) :=
  match fuel with
  | O => Fault OutOfFuel
  | S fuel' =>
      if i <? dst_len then
        check dst_buf' <- sys_mem_swap dst_buf i 4;
        swap_words_loop fuel' dst_buf' dst_len (to_int (to_u32 (to_u32 i + 4)))
      else Ok dst_buf
  end.

Definition copy_reverse_words (dst_buf : list byte) (dst_len : Z)
                              (src_buf : list byte) (src_len : Z)
  : result (list byte) :=
  check _ <- __ASSERT_NO_MSG (src_len <=? dst_len);
  check _ <- __ASSERT_NO_MSG (Z.rem dst_len 4 =? 0);
  check dst_buf' <- memcpy dst_buf src_buf (to_u32 src_len);
  swap_words_loop (Z.to_nat dst_len + 2) dst_buf' dst_len 0.

End ByteOrder.

(** The transform as a function on whole buffers: every complete 4-byte word
    reversed. *)
Fixpoint reverse_words (l : list byte) : list byte :=
  match l with
  | a :: b :: c :: d :: t => d :: c :: b :: a :: reverse_words t
  | _ => l
  end.

(** ** The cipher API (<crypto/cipher.h>) *)

(** The capability bits are declared in a header that is not among the
    sources; they are parameters. *)
Class CipherCaps := {
  CAP_RAW_KEY : Z;
  CAP_SEPARATE_IO_BUFS : Z;
  CAP_SYNC_OPS : Z
}.

Inductive cipher_algo : Type :=
| CRYPTO_CIPHER_ALGO_AES
| CRYPTO_CIPHER_ALGO_other (v : Z).

Inductive cipher_mode : Type :=
| CRYPTO_CIPHER_MODE_ECB
| CRYPTO_CIPHER_MODE_CBC
| CRYPTO_CIPHER_MODE_CTR
| CRYPTO_CIPHER_MODE_CCM
| CRYPTO_CIPHER_MODE_other (v : Z).

Inductive cipher_op : Type :=
| CRYPTO_CIPHER_OP_DECRYPT
| CRYPTO_CIPHER_OP_ENCRYPT.

(** The six handlers the driver can install in [ctx->ops]. *)
Inductive handler : Type :=
| h_ecb_encrypt | h_ecb_decrypt
| h_cbc_encrypt | h_cbc_decrypt
| h_ctr_encrypt | h_ctr_decrypt.

Inductive cipher_ops : Type :=
| no_hndlr
| block_crypt_hndlr (h : handler)
| cbc_crypt_hndlr (h : handler)
| ctr_crypt_hndlr (h : handler).

Inductive device_ref : Type := no_device | crypto_stm32_dev.

Record cipher_ctx : Type := {
  ops : cipher_ops;
  key_bit_stream : list byte;        (* ctx->key.bit_stream *)
  device : device_ref;
  drv_sessn_state : option nat;      (* pointer into the session table *)
  ctr_len : Z;                       (* ctx->mode_params.ctr_info.ctr_len *)
  keylen : Z;
  flags : Z
}.

Record cipher_pkt : Type := {
  in_buf : list byte;
  in_len : Z;
  out_buf : list byte;
  out_len : Z
}.

Definition set_out (pkt : cipher_pkt) (buf : list byte) : cipher_pkt :=
  {| in_buf := in_buf pkt; in_len := in_len pkt;
     out_buf := buf; out_len := out_len pkt |}.

Definition set_out_len (pkt : cipher_pkt) (n : Z) : cipher_pkt :=
  {| in_buf := in_buf pkt; in_len := in_len pkt;
     out_buf := out_buf pkt; out_len := n |}.

(** ** The accelerator (vendor HAL) *)

Inductive HAL_StatusTypeDef : Type :=
| HAL_OK | HAL_ERROR | HAL_BUSY | HAL_TIMEOUT.

Inductive HAL_CRYP_STATETypeDef : Type :=
| HAL_CRYP_STATE_RESET | HAL_CRYP_STATE_READY | HAL_CRYP_STATE_BUSY.

Inductive key_ptr : Type := NULL_key | session_key.

Record CRYP_ConfigTypeDef : Type := {
  DataType : Z;
  KeySize : Z;
  pKey : key_ptr;
  pInitVect : option (list byte);    (* the array it points to, if any *)
  Algorithm : Z;
  DataWidthUnit : Z
}.

(** [memset(&config, 0, sizeof(config))] *)
Definition config_zero : CRYP_ConfigTypeDef :=
  {| DataType := 0; KeySize := 0; pKey := NULL_key; pInitVect := None;
     Algorithm := 0; DataWidthUnit := 0 |}.

(** The HAL calls program registers and block until completion; the driver
    only looks at their status and at [hcryp.State].  [HAL_CRYP_Encrypt] and
    [HAL_CRYP_Decrypt] are given the memory seen from the input pointer and
    the size as the driver holds it (its conversion to the parameter type
    of the HAL is the HAL's side), and yield the bytes they store through
    the output pointer. *)
Class CrypHal := {
  CRYP_HandleTypeDef : Type;
  State : CRYP_HandleTypeDef -> HAL_CRYP_STATETypeDef;
  HAL_CRYP_Init : CRYP_HandleTypeDef -> HAL_StatusTypeDef * CRYP_HandleTypeDef;
  HAL_CRYP_DeInit : CRYP_HandleTypeDef -> HAL_StatusTypeDef * CRYP_HandleTypeDef;
  HAL_CRYP_SetConfig : CRYP_HandleTypeDef -> CRYP_ConfigTypeDef -> list byte ->
                       HAL_StatusTypeDef * CRYP_HandleTypeDef;
  HAL_CRYP_Encrypt : CRYP_HandleTypeDef -> list byte -> Z ->
                     HAL_StatusTypeDef * CRYP_HandleTypeDef * list byte;
  HAL_CRYP_Decrypt : CRYP_HandleTypeDef -> list byte -> Z ->
                     HAL_StatusTypeDef * CRYP_HandleTypeDef * list byte;
  (* __HAL_RCC_CRYP_FORCE_RESET(); __HAL_RCC_CRYP_RELEASE_RESET(); *)
  RCC_CRYP_RESET : CRYP_HandleTypeDef -> CRYP_HandleTypeDef;
  CRYP_KEYSIZE_128B : Z;
  CRYP_KEYSIZE_192B : Z;
  CRYP_KEYSIZE_256B : Z;
  CRYP_AES_ECB : Z;
  CRYP_AES_CBC : Z;
  CRYP_AES_CTR : Z;
  CRYP_DATATYPE_8B : Z;
  CRYP_DATAWIDTHUNIT_BYTE : Z
}.

Definition status_ok (s : HAL_StatusTypeDef) : bool :=
  match s with HAL_OK => true | _ => false end.

Definition state_is_reset (s : HAL_CRYP_STATETypeDef) : bool :=
  match s with HAL_CRYP_STATE_RESET => true | _ => false end.

(** ** Driver data *)

Definition BLOCK_LEN_BYTES : Z := 16.

(** Modelled from the spec: [CRYPTO_STM32_AES_MAX_KEY_LEN] is defined in
    crypto_stm32_priv.h, which is not among the sources; section 3 gives the
    session key as a "fixed 32-byte buffer". *)
Definition CRYPTO_STM32_AES_MAX_KEY_LEN : Z := 32.

Record crypto_stm32_session : Type := {
  config : CRYP_ConfigTypeDef;
  key : list byte;
  in_use : bool
}.

Definition set_config (s : crypto_stm32_session) (c : CRYP_ConfigTypeDef) :=
  {| config := c; key := key s; in_use := in_use s |}.
Definition set_key (s : crypto_stm32_session) (k : list byte) :=
  {| config := config s; key := k; in_use := in_use s |}.
Definition set_in_use (s : crypto_stm32_session) (b : bool) :=
  {| config := config s; key := key s; in_use := b |}.

Definition with_pInitVect (c : CRYP_ConfigTypeDef) (v : list byte) :=
  {| DataType := DataType c; KeySize := KeySize c; pKey := pKey c;
     pInitVect := Some v; Algorithm := Algorithm c;
     DataWidthUnit := DataWidthUnit c |}.
Definition with_KeySize (c : CRYP_ConfigTypeDef) (v : Z) :=
  {| DataType := DataType c; KeySize := v; pKey := pKey c;
     pInitVect := pInitVect c; Algorithm := Algorithm c;
     DataWidthUnit := DataWidthUnit c |}.
Definition with_Algorithm (c : CRYP_ConfigTypeDef) (v : Z) :=
  {| DataType := DataType c; KeySize := KeySize c; pKey := pKey c;
     pInitVect := pInitVect c; Algorithm := v;
     DataWidthUnit := DataWidthUnit c |}.
Definition with_key_and_width (c : CRYP_ConfigTypeDef) (dt dw : Z) :=
  {| DataType := dt; KeySize := KeySize c; pKey := session_key;
     pInitVect := pInitVect c; Algorithm := Algorithm c;
     DataWidthUnit := dw |}.

(** Counting semaphores of the kernel. *)
Record k_sem : Type := { count : Z; limit : Z }.

Inductive sem_id : Type := DEVICE_SEM | SESSION_SEM.

(** What the driver does to the kernel and to the accelerator, in order. *)
Inductive event : Type :=
| EvSemTake (s : sem_id)
| EvSemGive (s : sem_id)
| EvHalInit
| EvHalDeInit
| EvHalSetConfig (c : CRYP_ConfigTypeDef) (k : list byte)
| EvHalEncrypt (input : list byte) (size : Z)
| EvHalDecrypt (input : list byte) (size : Z)
| EvRccReset.

Definition is_sem_take (s : sem_id) (e : event) : bool :=
  match e, s with
  | EvSemTake DEVICE_SEM, DEVICE_SEM => true
  | EvSemTake SESSION_SEM, SESSION_SEM => true
  | _, _ => false
  end.

Section Driver.

Context {K : Kconfig} {C : CipherCaps} {HAL : CrypHal}.

Definition CRYPTO_MAX_SESSION : nat := CONFIG_CRYPTO_STM32_MAX_SESSION.

Definition CRYP_SUPPORT : Z :=
  Z.lor (Z.lor CAP_RAW_KEY CAP_SEPARATE_IO_BUFS) CAP_SYNC_OPS.

(** The global session table, the device data and the log of kernel and
    HAL calls. *)
Record driver_state : Type := {
  crypto_stm32_sessions : list crypto_stm32_session;
  hcryp : CRYP_HandleTypeDef;
  device_sem : k_sem;
  session_sem : k_sem;
  trace : list event
}.

Definition M (A : Type) : Type := driver_state -> result (A * driver_state).

Definition ret {A} (a : A) : M A := fun st => Ok (a, st).

Definition bind {A B} (m : M A) (k : A -> M B) : M B :=
  fun st => match m st with
            | Ok (a, st') => k a st'
            | Fault f => Fault f
            end.

Definition lift {A} (r : result A) : M A :=
  fun st => match r with
            | Ok a => Ok (a, st)
            | Fault f => Fault f
            end.

Notation "'do' x <- e ; k" := (bind e (fun x => k))
  (at level 10, x name, e at level 100, k at level 200).
Notation "'do' ' pat <- e ; k" :=
  (bind e (fun x => match x with pat => k end))
  (at level 10, pat pattern, e at level 100, k at level 200).

Definition log (e : event) : M unit :=
  fun st => Ok (tt, {| crypto_stm32_sessions := crypto_stm32_sessions st;
                       hcryp := hcryp st;
                       device_sem := device_sem st;
                       session_sem := session_sem st;
                       trace := trace st ++ [e] |}).

Definition get_sem (s : sem_id) (st : driver_state) : k_sem :=
  match s with
  | DEVICE_SEM => device_sem st
  | SESSION_SEM => session_sem st
  end.

Definition put_sem (s : sem_id) (v : k_sem) (st : driver_state) :=
  {| crypto_stm32_sessions := crypto_stm32_sessions st;
     hcryp := hcryp st;
     device_sem := match s with DEVICE_SEM => v | _ => device_sem st end;
     session_sem := match s with SESSION_SEM => v | _ => session_sem st end;
     trace := trace st |}.

Definition put_hcryp (h : CRYP_HandleTypeDef) (st : driver_state) :=
  {| crypto_stm32_sessions := crypto_stm32_sessions st;
     hcryp := h;
     device_sem := device_sem st;
     session_sem := session_sem st;
     trace := trace st |}.

Definition put_sessions (l : list crypto_stm32_session) (st : driver_state) :=
  {| crypto_stm32_sessions := l;
     hcryp := hcryp st;
     device_sem := device_sem st;
     session_sem := session_sem st;
     trace := trace st |}.

(** [k_sem_take(sem, K_FOREVER)]: with the count at zero the caller waits
    for a give that, in a run of this one call, never comes. *)
Definition k_sem_take (s : sem_id) : M unit :=
  fun st =>
    let sem := get_sem s st in
    if 0 <? count sem
    then log (EvSemTake s)
           (put_sem s {| count := count sem - 1; limit := limit sem |} st)
    else Fault Blocked.

Definition k_sem_give (s : sem_id) : M unit :=
  fun st =>
    let sem := get_sem s st in
    let c := if count sem <? limit sem then count sem + 1 else count sem in
    log (EvSemGive s) (put_sem s {| count := c; limit := limit sem |} st).

(** A session pointer is an index into the table, or points nowhere.
    Reading and writing through it: *)
Definition load_session (p : option nat) : M crypto_stm32_session :=
  fun st => match p ≫= (fun i => crypto_stm32_sessions st !! i) with
            | Some s => Ok (s, st)
            | None => Fault BadPointer
            end.

Definition store_session (p : option nat)
                         (f : crypto_stm32_session -> crypto_stm32_session)
  : M unit :=
  fun st => match p with
            | Some i =>
                match crypto_stm32_sessions st !! i with
                | Some s => Ok (tt, put_sessions (<[i := f s]> (crypto_stm32_sessions st)) st)
                | None => Fault BadPointer
                end
            | None => Fault BadPointer
            end.

(** [CRYPTO_STM32_SESSN(ctx)] *)
Definition CRYPTO_STM32_SESSN (ctx : cipher_ctx) : option nat :=
  drv_sessn_state ctx.

(** The HAL calls, logged. *)
Definition hal_State : M HAL_CRYP_STATETypeDef :=
  fun st => Ok (State (hcryp st), st).

Definition hal_Init : M HAL_StatusTypeDef :=
  fun st => let '(s, h) := HAL_CRYP_Init (hcryp st) in
            bind (log EvHalInit) (fun _ => ret s) (put_hcryp h st).

Definition hal_DeInit : M HAL_StatusTypeDef :=
  fun st => let '(s, h) := HAL_CRYP_DeInit (hcryp st) in
            bind (log EvHalDeInit) (fun _ => ret s) (put_hcryp h st).

Definition hal_SetConfig (session : option nat) : M HAL_StatusTypeDef :=
  do sn <- load_session session;
  fun st => let '(s, h) := HAL_CRYP_SetConfig (hcryp st) (config sn) (key sn) in
            bind (log (EvHalSetConfig (config sn) (key sn))) (fun _ => ret s)
                 (put_hcryp h st).

Definition hal_Encrypt (input : list byte) (size : Z)
  : M (HAL_StatusTypeDef * list byte) :=
  fun st => let '(s, h, out) := HAL_CRYP_Encrypt (hcryp st) input size in
            bind (log (EvHalEncrypt input size)) (fun _ => ret (s, out))
                 (put_hcryp h st).

Definition hal_Decrypt (input : list byte) (size : Z)
  : M (HAL_StatusTypeDef * list byte) :=
  fun st => let '(s, h, out) := HAL_CRYP_Decrypt (hcryp st) input size in
            bind (log (EvHalDecrypt input size)) (fun _ => ret (s, out))
                 (put_hcryp h st).

Definition hal_rcc_reset : M unit :=
  fun st => log EvRccReset (put_hcryp (RCC_CRYP_RESET (hcryp st)) st).

(** *** do_encrypt, do_decrypt

    [in_buf] is the memory seen from the input pointer; the output pointer
    is [out_buf + out_off]. *)

Definition do_encrypt (ctx : cipher_ctx) (in_buf : list byte) (in_len : Z)
                      (out_buf : list byte) (out_off : Z)
  : M (Z * list byte) :=
  let session := CRYPTO_STM32_SESSN ctx in
  do _ <- k_sem_take DEVICE_SEM;
  do status <- hal_SetConfig session;
  if negb (status_ok status) then
    do _ <- k_sem_give DEVICE_SEM;
    ret (- EIO, out_buf)
  else
    do '(status, out) <- hal_Encrypt in_buf in_len;
    do out_buf' <- lift (write_at out_buf out_off out);
    if negb (status_ok status) then
      do _ <- k_sem_give DEVICE_SEM;
      ret (- EIO, out_buf')
    else
      do _ <- k_sem_give DEVICE_SEM;
      ret (0, out_buf').

Definition do_decrypt (ctx : cipher_ctx) (in_buf : list byte) (in_len : Z)
                      (out_buf : list byte) (out_off : Z)
  : M (Z * list byte) :=
  let session := CRYPTO_STM32_SESSN ctx in
  do _ <- k_sem_take DEVICE_SEM;
  do status <- hal_SetConfig session;
  if negb (status_ok status) then
    do _ <- k_sem_give DEVICE_SEM;
    ret (- EIO, out_buf)
  else
    do '(status, out) <- hal_Decrypt in_buf in_len;
    do out_buf' <- lift (write_at out_buf out_off out);
    if negb (status_ok status) then
      do _ <- k_sem_give DEVICE_SEM;
      ret (- EIO, out_buf')
    else
      do _ <- k_sem_give DEVICE_SEM;
      ret (0, out_buf').

(** *** ECB *)

Definition crypto_stm32_ecb_encrypt (ctx : cipher_ctx) (pkt : cipher_pkt)
  : M (Z * cipher_pkt) :=
  if 16 <? in_len pkt then ret (- EINVAL, pkt)
  else
    do '(r, out) <- do_encrypt ctx (in_buf pkt) (in_len pkt) (out_buf pkt) 0;
    if r =? 0 then ret (r, set_out_len (set_out pkt out) 16)
    else ret (r, set_out pkt out).

Definition crypto_stm32_ecb_decrypt (ctx : cipher_ctx) (pkt : cipher_pkt)
  : M (Z * cipher_pkt) :=
  if 16 <? in_len pkt then ret (- EINVAL, pkt)
  else
    do '(r, out) <- do_decrypt ctx (in_buf pkt) (in_len pkt) (out_buf pkt) 0;
    if r =? 0 then ret (r, set_out_len (set_out pkt out) 16)
    else ret (r, set_out pkt out).

(** *** CBC *)

Definition crypto_stm32_cbc_encrypt (ctx : cipher_ctx) (pkt : cipher_pkt)
                                    (iv : list byte)
  : M (Z * cipher_pkt) :=
  let vec := zeros 16 in        (* uninitialised; fully overwritten below *)
  let session := CRYPTO_STM32_SESSN ctx in
  do vec <- lift (copy_reverse_words vec 16 iv BLOCK_LEN_BYTES);
  do _ <- store_session session (fun s => set_config s (with_pInitVect (config s) vec));
  (* Prefix IV to ciphertext *)
  do out <- lift (memcpy (out_buf pkt) iv 16);
  do '(r, out) <- do_encrypt ctx (in_buf pkt) (in_len pkt) out 16;
  if r =? 0 then
    do n <- lift (int_add (in_len pkt) 16);
    ret (r, set_out_len (set_out pkt out) n)
  else ret (r, set_out pkt out).

Definition crypto_stm32_cbc_decrypt (ctx : cipher_ctx) (pkt : cipher_pkt)
                                    (iv : list byte)
  : M (Z * cipher_pkt) :=
  let vec := zeros 16 in
  let session := CRYPTO_STM32_SESSN ctx in
  do vec <- lift (copy_reverse_words vec 16 iv BLOCK_LEN_BYTES);
  do _ <- store_session session (fun s => set_config s (with_pInitVect (config s) vec));
  do '(r, out) <- do_decrypt ctx (drop 16 (in_buf pkt)) (in_len pkt) (out_buf pkt) 0;
  if r =? 0 then
    do n <- lift (int_sub (in_len pkt) 16);
    ret (r, set_out_len (set_out pkt out) n)
  else ret (r, set_out pkt out).

(** *** CTR *)

(** [ctx->keylen - (ctx->mode_params.ctr_info.ctr_len >> 3)], computed in
    unsigned arithmetic and stored in an [int]. *)
Definition ctr_ivlen (ctx : cipher_ctx) : Z :=
  to_int (to_u32 (keylen ctx - Z.shiftr (ctr_len ctx) 3)).

Definition crypto_stm32_ctr_encrypt (ctx : cipher_ctx) (pkt : cipher_pkt)
                                    (iv : list byte)
  : M (Z * cipher_pkt) :=
  let ctr := zeros 16 in        (* u32_t ctr[BLOCK_LEN_WORDS] = {0} *)
  let ivlen := ctr_ivlen ctx in
  let session := CRYPTO_STM32_SESSN ctx in
  do ctr <- lift (copy_reverse_words ctr 16 iv ivlen);
  do _ <- store_session session (fun s => set_config s (with_pInitVect (config s) ctr));
  do '(r, out) <- do_encrypt ctx (in_buf pkt) (in_len pkt) (out_buf pkt) 0;
  if r =? 0 then ret (r, set_out_len (set_out pkt out) (in_len pkt))
  else ret (r, set_out pkt out).

Definition crypto_stm32_ctr_decrypt (ctx : cipher_ctx) (pkt : cipher_pkt)
                                    (iv : list byte)
  : M (Z * cipher_pkt) :=
  let ctr := zeros 16 in
  let ivlen := ctr_ivlen ctx in
  let session := CRYPTO_STM32_SESSN ctx in
  do ctr <- lift (copy_reverse_words ctr 16 iv ivlen);
  do _ <- store_session session (fun s => set_config s (with_pInitVect (config s) ctr));
  do '(r, out) <- do_decrypt ctx (in_buf pkt) (in_len pkt) (out_buf pkt) 0;
  if r =? 0 then ret (r, set_out_len (set_out pkt out) (in_len pkt))
  else ret (r, set_out pkt out).


(** *** The session pool *)

(** The scan [for (i = 0; i < CRYPTO_MAX_SESSION; i++)] with [n] slots
    still to visit, [i] the current index. *)
Fixpoint get_unused_session_loop (n i : nat) : M Z :=
  match n with
  | O =>
      do _ <- k_sem_give SESSION_SEM;
      ret (-1)
  | S n' =>
      do s <- load_session (Some i);
      if negb (in_use s) then
        do _ <- store_session (Some i) (fun s => set_in_use s true);
        do _ <- k_sem_give SESSION_SEM;
        ret (Z.of_nat i)
      else get_unused_session_loop n' (S i)
  end.

Definition crypto_stm32_get_unused_session_index : M Z :=
  do _ <- k_sem_take SESSION_SEM;
  get_unused_session_loop CRYPTO_MAX_SESSION 0.

(** *** Session setup *)

Definition mode_supported (mode : cipher_mode) : bool :=
  match mode with
  | CRYPTO_CIPHER_MODE_ECB | CRYPTO_CIPHER_MODE_CBC
  | CRYPTO_CIPHER_MODE_CTR => true
  | _ => false
  end.

Definition algo_is_aes (algo : cipher_algo) : bool :=
  match algo with CRYPTO_CIPHER_ALGO_AES => true | _ => false end.

Definition keylen_supported (n : Z) : bool :=
  (n =? 16) || (n =? 24) || (n =? 32).

(** [switch (ctx->keylen)] *)
Definition select_KeySize (n : Z) (c : CRYP_ConfigTypeDef) : CRYP_ConfigTypeDef :=
  if n =? 16 then with_KeySize c CRYP_KEYSIZE_128B
  else if n =? 24 then with_KeySize c CRYP_KEYSIZE_192B
  else if n =? 32 then with_KeySize c CRYP_KEYSIZE_256B
  else c.

(** The two [switch (mode)] blocks: the algorithm code and the handler. *)
Definition select_mode (op_type : cipher_op) (mode : cipher_mode)
                       (c : CRYP_ConfigTypeDef) (o : cipher_ops)
  : CRYP_ConfigTypeDef * cipher_ops :=
  match op_type with
  | CRYPTO_CIPHER_OP_ENCRYPT =>
      match mode with
      | CRYPTO_CIPHER_MODE_ECB =>
          (with_Algorithm c CRYP_AES_ECB, block_crypt_hndlr h_ecb_encrypt)
      | CRYPTO_CIPHER_MODE_CBC =>
          (with_Algorithm c CRYP_AES_CBC, cbc_crypt_hndlr h_cbc_encrypt)
      | CRYPTO_CIPHER_MODE_CTR =>
          (with_Algorithm c CRYP_AES_CTR, ctr_crypt_hndlr h_ctr_encrypt)
      | _ => (c, o)
      end
  | _ =>
      match mode with
      | CRYPTO_CIPHER_MODE_ECB =>
          (with_Algorithm c CRYP_AES_ECB, block_crypt_hndlr h_ecb_decrypt)
      | CRYPTO_CIPHER_MODE_CBC =>
          (with_Algorithm c CRYP_AES_CBC, cbc_crypt_hndlr h_cbc_decrypt)
      | CRYPTO_CIPHER_MODE_CTR =>
          (with_Algorithm c CRYP_AES_CTR, ctr_crypt_hndlr h_ctr_decrypt)
      | _ => (c, o)
      end
  end.

Definition bind_ctx (ctx : cipher_ctx) (o : cipher_ops) (session : nat) :=
  {| ops := o; key_bit_stream := key_bit_stream ctx;
     device := crypto_stm32_dev; drv_sessn_state := Some session;
     ctr_len := ctr_len ctx; keylen := keylen ctx; flags := flags ctx |}.

Definition crypto_stm32_session_setup (ctx : cipher_ctx) (algo : cipher_algo)
                                      (mode : cipher_mode) (op_type : cipher_op)
  : M (Z * cipher_ctx) :=
  if negb (Z.land (flags ctx) (Z.lnot CRYP_SUPPORT) =? 0) then
    ret (- EINVAL, ctx)
  else if negb (algo_is_aes algo) then
    ret (- EINVAL, ctx)
  else if negb (mode_supported mode) then
    ret (- EINVAL, ctx)
  else if negb (keylen_supported (keylen ctx)) then
    ret (- EINVAL, ctx)
  else
    do ctx_idx <- crypto_stm32_get_unused_session_index;
    if ctx_idx <? 0 then
      ret (- ENOSPC, ctx)
    else
      let session := Some (Z.to_nat ctx_idx) in
      do _ <- store_session session (fun s => set_config s config_zero);
      do hw_state <- hal_State;
      do init_status <- (if state_is_reset hw_state then hal_Init else ret HAL_OK);
      if negb (status_ok init_status) then
        do _ <- store_session session (fun s => set_in_use s false);
        ret (- EIO, ctx)
      else
        do _ <- store_session session
                  (fun s => set_config s (select_KeySize (keylen ctx) (config s)));
        do sn <- load_session session;
        let '(c, o) := select_mode op_type mode (config sn) (ops ctx) in
        do _ <- store_session session (fun s => set_config s c);
        do k <- lift (copy_reverse_words (key sn) CRYPTO_STM32_AES_MAX_KEY_LEN
                                         (key_bit_stream ctx) (keylen ctx));
        do _ <- store_session session (fun s => set_key s k);
        do _ <- store_session session
                  (fun s => set_config s (with_key_and_width (config s)
                                            CRYP_DATATYPE_8B
                                            CRYP_DATAWIDTHUNIT_BYTE));
        ret (0, bind_ctx ctx o (Z.to_nat ctx_idx)).

(** *** Session free *)

(** The scan for a session still in use; [after] is the code behind the
    loop. *)
Fixpoint session_free_loop (n i : nat) (after : M Z) : M Z :=
  match n with
  | O => after
  | S n' =>
      do s <- load_session (Some i);
      if in_use s then
        do _ <- k_sem_give SESSION_SEM;
        ret 0
      else session_free_loop n' (S i) after
  end.

Definition crypto_stm32_session_free (ctx : cipher_ctx) : M Z :=
  let session := CRYPTO_STM32_SESSN ctx in
  do _ <- store_session session (fun s => set_in_use s false);
  do _ <- k_sem_take SESSION_SEM;
  (* Disable peripheral only if there are no more active sessions. *)
  session_free_loop CRYPTO_MAX_SESSION 0
    ((* Deinitialize and reset peripheral. *)
     do status <- hal_DeInit;
     if negb (status_ok status) then
       do _ <- k_sem_give SESSION_SEM;
       ret (- EIO)
     else
       do _ <- hal_rcc_reset;
       do _ <- k_sem_give SESSION_SEM;
       ret 0).

Definition crypto_stm32_query_caps : Z := CRYP_SUPPORT.


End Driver.

(** ** Vocabulary of the statements *)

Section Vocabulary.

Context {K : Kconfig} {C : CipherCaps} {HAL : CrypHal}.

(** What a CTR handler that returned has done with the counter block. *)
Definition ctr_call_outcome (ctx : cipher_ctx) (pkt : cipher_pkt) (iv : list byte)
                            (st : driver_state)
                            (r : Z) (pkt' : cipher_pkt) (st' : driver_state)
  : Prop :=
  let ivlen := keylen ctx - ctr_len ctx / 8 in
  let nonce := take (Z.to_nat ivlen) iv in
  let block := reverse_words (nonce ++ zeros (16 - Z.to_nat ivlen)) in
  0 <= ivlen <= 16 /\
  length nonce = Z.to_nat ivlen /\
  copy_reverse_words (zeros 16) 16 iv (ctr_ivlen ctx) = Ok block /\
  (exists i sn,
      CRYPTO_STM32_SESSN ctx = Some i /\
      crypto_stm32_sessions st' !! i = Some sn /\
      pInitVect (config sn) = Some block) /\
  (exists cfg k rest,
      trace st' = trace st ++ EvSemTake DEVICE_SEM :: EvHalSetConfig cfg k :: rest /\
      pInitVect cfg = Some block) /\
  take (Z.to_nat ivlen) (reverse_words block) = nonce /\
  drop (Z.to_nat ivlen) (reverse_words block) = zeros (16 - Z.to_nat ivlen) /\
  (r = 0 -> out_len pkt' = in_len pkt).

Definition first_unused_at (l : list crypto_stm32_session) (j : nat)
                           (s : crypto_stm32_session) : Prop :=
  l !! j = Some s /\ in_use s = false /\
  forall k s', (k < j)%nat -> l !! k = Some s' -> in_use s' = true.

Definition all_in_use (l : list crypto_stm32_session) : Prop :=
  forall k s, l !! k = Some s -> in_use s = true.

Definition sem_available (s : k_sem) : Prop := 0 < count s <= limit s.

(** The session table has its declared size and every key buffer its
    declared length. *)
Definition table_ok (st : driver_state) : Prop :=
  length (crypto_stm32_sessions st) = CRYPTO_MAX_SESSION /\
  forall k s, crypto_stm32_sessions st !! k = Some s ->
              Z.of_nat (length (key s)) = CRYPTO_STM32_AES_MAX_KEY_LEN.

(** No call is in progress: both semaphores can be taken. *)
Definition driver_idle (st : driver_state) : Prop :=
  table_ok st /\ sem_available (session_sem st) /\ sem_available (device_sem st).

(** The FREE / BOUND flags of the table. *)
Definition slots (st : driver_state) : list bool :=
  map in_use (crypto_stm32_sessions st).

(** The state a pool operation leaves: the table replaced, the pool lock
    taken and given back, nothing else touched. *)
Definition after_pool_lock (st : driver_state) (l : list crypto_stm32_session)
                           (h : CRYP_HandleTypeDef) (evs : list event)
  : driver_state :=
  {| crypto_stm32_sessions := l;
     hcryp := h;
     device_sem := device_sem st;
     session_sem := session_sem st;
     trace := trace st ++ evs |}.

Definition params_valid (ctx : cipher_ctx) (algo : cipher_algo) (mode : cipher_mode)
  : Prop :=
  Z.land (flags ctx) (Z.lnot CRYP_SUPPORT) = 0 /\
  algo = CRYPTO_CIPHER_ALGO_AES /\
  mode_supported mode = true /\
  keylen_supported (keylen ctx) = true.

(** Bringing the accelerator up on the way through setup: nothing to do
    unless the handle is in reset state. *)
Definition hw_bringup (h : CRYP_HandleTypeDef)
  : bool * CRYP_HandleTypeDef * list event :=
  if state_is_reset (State h) then
    let '(status, h') := HAL_CRYP_Init h in (status_ok status, h', [EvHalInit])
  else (true, h, []).

Definition bound_session (ctx : cipher_ctx) (mode : cipher_mode) (op_type : cipher_op)
                         (k : list byte) : crypto_stm32_session :=
  {| config := with_key_and_width
                 (fst (select_mode op_type mode
                         (select_KeySize (keylen ctx) config_zero) (ops ctx)))
                 CRYP_DATATYPE_8B CRYP_DATAWIDTHUNIT_BYTE;
     key := k;
     in_use := true |}.

(** Is some session other than [i] still in use? *)
Definition other_live (l : list crypto_stm32_session) (i : nat) : Prop :=
  exists k s, k <> i /\ l !! k = Some s /\ in_use s = true.

(** What the teardown behind the scan does. *)
Definition teardown (h : CRYP_HandleTypeDef) : Z * CRYP_HandleTypeDef * list event :=
  let '(status, h') := HAL_CRYP_DeInit h in
  if status_ok status then (0, RCC_CRYP_RESET h', [EvHalDeInit; EvRccReset])
  else (- EIO, h', [EvHalDeInit]).

(** The four ways a setup call on a quiet pool lock can return. *)
Inductive setup_outcome (ctx : cipher_ctx) (st : driver_state)
  : Z -> cipher_ctx -> driver_state -> Prop :=
| setup_invalid :
    setup_outcome ctx st (- EINVAL) ctx st
| setup_exhausted :
    all_in_use (crypto_stm32_sessions st) ->
    setup_outcome ctx st (- ENOSPC) ctx
      (after_pool_lock st (crypto_stm32_sessions st) (hcryp st)
         [EvSemTake SESSION_SEM; EvSemGive SESSION_SEM])
| setup_init_failed j s status h :
    first_unused_at (crypto_stm32_sessions st) j s ->
    state_is_reset (State (hcryp st)) = true ->
    HAL_CRYP_Init (hcryp st) = (status, h) ->
    status_ok status = false ->
    setup_outcome ctx st (- EIO) ctx
      (after_pool_lock st
         (<[j := set_config s config_zero]> (crypto_stm32_sessions st)) h
         [EvSemTake SESSION_SEM; EvSemGive SESSION_SEM; EvHalInit])
| setup_bound j s sn o h evs :
    first_unused_at (crypto_stm32_sessions st) j s ->
    in_use sn = true ->
    (Z.of_nat (length (key s)) = CRYPTO_STM32_AES_MAX_KEY_LEN ->
     length (key sn) = length (key s)) ->
    hw_bringup (hcryp st) = (true, h, evs) ->
    setup_outcome ctx st 0 (bind_ctx ctx o j)
      (after_pool_lock st (<[j := sn]> (crypto_stm32_sessions st)) h
         ([EvSemTake SESSION_SEM; EvSemGive SESSION_SEM] ++ evs)).

Fixpoint live (l : list crypto_stm32_session) : nat :=
  match l with
  | [] => 0
  | s :: l' => (if in_use s then 1 else 0) + live l'
  end.

Record request : Type := {
  rq_ctx : cipher_ctx;
  rq_algo : cipher_algo;
  rq_mode : cipher_mode;
  rq_op : cipher_op
}.

(** A caller that begins one session per request, in order, never freeing
    any. *)
Fixpoint begin_sessions (reqs : list request) : M (list (Z * cipher_ctx)) :=
  match reqs with
  | [] => ret []
  | rq :: rest =>
      bind (crypto_stm32_session_setup (rq_ctx rq) (rq_algo rq) (rq_mode rq) (rq_op rq))
        (fun r => bind (begin_sessions rest) (fun rs => ret (r :: rs)))
  end.

End Vocabulary.

(** ** Calling a handler, and what a device-locked section does *)

Section Handlers.

Context {K : Kconfig} {C : CipherCaps} {HAL : CrypHal}.

(** A call through one of the function pointers setup leaves in
    [ctx->ops]; the block handlers take no IV. *)
Definition run_handler (h : handler) (ctx : cipher_ctx) (pkt : cipher_pkt)
                       (iv : list byte) : M (Z * cipher_pkt) :=
  match h with
  | h_ecb_encrypt => crypto_stm32_ecb_encrypt ctx pkt
  | h_ecb_decrypt => crypto_stm32_ecb_decrypt ctx pkt
  | h_cbc_encrypt => crypto_stm32_cbc_encrypt ctx pkt iv
  | h_cbc_decrypt => crypto_stm32_cbc_decrypt ctx pkt iv
  | h_ctr_encrypt => crypto_stm32_ctr_encrypt ctx pkt iv
  | h_ctr_decrypt => crypto_stm32_ctr_decrypt ctx pkt iv
  end.

Definition handler_of (o : cipher_ops) : option handler :=
  match o with
  | no_hndlr => None
  | block_crypt_hndlr h | cbc_crypt_hndlr h | ctr_crypt_hndlr h => Some h
  end.

Definition handler_encrypts (h : handler) : bool :=
  match h with
  | h_ecb_encrypt | h_cbc_encrypt | h_ctr_encrypt => true
  | _ => false
  end.

(** The [src_len] a handler gives the byte-order transform, if it runs it. *)
Definition handler_iv_len (h : handler) (ctx : cipher_ctx) : option Z :=
  match h with
  | h_ecb_encrypt | h_ecb_decrypt => None
  | h_cbc_encrypt | h_cbc_decrypt => Some BLOCK_LEN_BYTES
  | h_ctr_encrypt | h_ctr_decrypt => Some (ctr_ivlen ctx)
  end.

(** The output length a handler stores when it succeeds. *)
Definition handler_out_len (h : handler) (n : Z) : Z :=
  match h with
  | h_ecb_encrypt | h_ecb_decrypt => 16
  | h_cbc_encrypt => n + 16
  | h_cbc_decrypt => n - 16
  | h_ctr_encrypt | h_ctr_decrypt => n
  end.

(** Offsets of the pointers a handler hands on. *)
Definition handler_in_off (h : handler) : nat :=
  match h with h_cbc_decrypt => 16%nat | _ => 0%nat end.

Definition handler_out_off (h : handler) : Z :=
  match h with h_cbc_encrypt => 16 | _ => 0 end.

(** The session configuration the accelerator is programmed with: the
    stored one, with the freshly transformed IV or counter block if the
    handler has one. *)
Definition programmed_config (h : handler) (ctx : cipher_ctx) (iv : list byte)
                             (c cfg : CRYP_ConfigTypeDef) : Prop :=
  match handler_iv_len h ctx with
  | None => cfg = c
  | Some n => exists vec, copy_reverse_words (zeros 16) 16 iv n = Ok vec /\
                          cfg = with_pInitVect c vec
  end.

Definition is_hal_event (e : event) : bool :=
  match e with
  | EvSemTake _ | EvSemGive _ => false
  | _ => true
  end.

Definition crypt_event (enc : bool) (input : list byte) (size : Z) : event :=
  if enc then EvHalEncrypt input size else EvHalDecrypt input size.

Definition HAL_crypt (enc : bool) :=
  if enc then HAL_CRYP_Encrypt else HAL_CRYP_Decrypt.

(** One run of [do_encrypt] ([enc = true]) or [do_decrypt] that returned:
    the device lock is taken and given back around one [HAL_CRYP_SetConfig]
    and, if that went well, one encrypt or decrypt call. *)
Definition device_section (enc : bool) (input : list byte) (size : Z)
                          (out : list byte) (off : Z)
                          (sn : crypto_stm32_session) (st : driver_state)
                          (r : Z) (out' : list byte) (st' : driver_state) : Prop :=
  exists s1 h1,
    HAL_CRYP_SetConfig (hcryp st) (config sn) (key sn) = (s1, h1) /\
    crypto_stm32_sessions st' = crypto_stm32_sessions st /\
    session_sem st' = session_sem st /\
    device_sem st' = device_sem st /\
    ((status_ok s1 = false /\ r = - EIO /\ out' = out /\ hcryp st' = h1 /\
      trace st' = trace st ++ [EvSemTake DEVICE_SEM;
                               EvHalSetConfig (config sn) (key sn);
                               EvSemGive DEVICE_SEM])
     \/
     (status_ok s1 = true /\
      exists s2 h2 data,
        HAL_crypt enc h1 input size = (s2, h2, data) /\
        write_at out off data = Ok out' /\
        hcryp st' = h2 /\
        r = (if status_ok s2 then 0 else - EIO) /\
        trace st' = trace st ++ [EvSemTake DEVICE_SEM;
                                 EvHalSetConfig (config sn) (key sn);
                                 crypt_event enc input size;
                                 EvSemGive DEVICE_SEM])).

End Handlers.

(** ** A software stand-in for the accelerator

    Used to run the driver on concrete inputs.  It is no AES: "encryption"
    hands back the first [size] bytes it is given.  Whether [HAL_CRYP_Init]
    and [HAL_CRYP_DeInit] fail is part of the handle. *)
Module Sim.

Record handle : Type := {
  hstate : HAL_CRYP_STATETypeDef;
  init_fails : bool;
  deinit_fails : bool
}.

Definition with_hstate (h : handle) (s : HAL_CRYP_STATETypeDef) : handle :=
  {| hstate := s; init_fails := init_fails h; deinit_fails := deinit_fails h |}.

Definition Init (h : handle) : HAL_StatusTypeDef * handle :=
  if init_fails h then (HAL_ERROR, h)
  else (HAL_OK, with_hstate h HAL_CRYP_STATE_READY).

Definition DeInit (h : handle) : HAL_StatusTypeDef * handle :=
  if deinit_fails h then (HAL_ERROR, h)
  else (HAL_OK, with_hstate h HAL_CRYP_STATE_RESET).

Definition SetConfig (h : handle) (c : CRYP_ConfigTypeDef) (k : list byte)
  : HAL_StatusTypeDef * handle := (HAL_OK, h).

Definition Crypt (h : handle) (input : list byte) (size : Z)
  : HAL_StatusTypeDef * handle * list byte :=
  (HAL_OK, h, take (Z.to_nat size) input).

Definition hal : CrypHal :=
  {| CRYP_HandleTypeDef := handle;
     State := hstate;
     HAL_CRYP_Init := Init;
     HAL_CRYP_DeInit := DeInit;
     HAL_CRYP_SetConfig := SetConfig;
     HAL_CRYP_Encrypt := Crypt;
     HAL_CRYP_Decrypt := Crypt;
     RCC_CRYP_RESET := fun h => with_hstate h HAL_CRYP_STATE_RESET;
     CRYP_KEYSIZE_128B := 0;
     CRYP_KEYSIZE_192B := 256;
     CRYP_KEYSIZE_256B := 512;
     CRYP_AES_ECB := 32;
     CRYP_AES_CBC := 40;
     CRYP_AES_CTR := 48;
     CRYP_DATATYPE_8B := 128;
     CRYP_DATAWIDTHUNIT_BYTE := 1 |}.

Definition caps : CipherCaps :=
  {| CAP_RAW_KEY := 2; CAP_SEPARATE_IO_BUFS := 16; CAP_SYNC_OPS := 32 |}.

Definition kconfig (sessions : nat) (asserts : bool) : Kconfig :=
  {| CONFIG_CRYPTO_STM32_MAX_SESSION := sessions; CONFIG_ASSERT := asserts |}.

Definition fresh_handle (init_bad deinit_bad : bool) : handle :=
  {| hstate := HAL_CRYP_STATE_RESET;
     init_fails := init_bad; deinit_fails := deinit_bad |}.

Definition free_session : crypto_stm32_session :=
  {| config := config_zero; key := zeros 32; in_use := false |}.

Definition sem1 : k_sem := {| count := 1; limit := 1 |}.

(** The driver state after [crypto_stm32_init] on a table of [n] sessions. *)
Definition boot (K : Kconfig) (h : handle) : @driver_state hal :=
  {| crypto_stm32_sessions := repeat free_session (@CRYPTO_MAX_SESSION K);
     hcryp := h : @CRYP_HandleTypeDef hal;
     device_sem := sem1;
     session_sem := sem1;
     trace := [] |}.

(** Two session slots, assertions compiled in. *)
Definition K : Kconfig := kconfig 2 true.

Definition ready : handle :=
  {| hstate := HAL_CRYP_STATE_READY; init_fails := false; deinit_fails := false |}.

Definition table (fl : list bool) : list crypto_stm32_session :=
  map (fun b => {| config := config_zero; key := zeros 32; in_use := b |}) fl.

(** A driver state with the given FREE / BOUND flags, nothing logged, the
    pool lock free and the device lock at count [dev]. *)
Definition state (fl : list bool) (h : handle) (dev : Z) : @driver_state hal :=
  {| crypto_stm32_sessions := table fl;
     hcryp := h : @CRYP_HandleTypeDef hal;
     device_sem := {| count := dev; limit := 1 |};
     session_sem := sem1;
     trace := [] |}.

Definition bytes_from (start n : nat) : list byte :=
  map (fun i => match Byte.of_N (N.of_nat i) with Some b => b | None => x00 end)
      (seq start n).

Definition a_ctx (klen ctrl : Z) (sessn : option nat) : cipher_ctx :=
  {| ops := no_hndlr; key_bit_stream := bytes_from 1 32;
     device := no_device; drv_sessn_state := sessn;
     ctr_len := ctrl; keylen := klen; flags := 2 |}.

Definition a_pkt (n : nat) (out_max : nat) : cipher_pkt :=
  {| in_buf := bytes_from 65 n; in_len := Z.of_nat n;
     out_buf := zeros out_max; out_len := 0 |}.

End Sim.

(** ** Proof tools *)

(** Case analysis on every test and every opaque call met along a run. *)
Ltac break_run H :=
  repeat match type of H with
    | context [match ?x with _ => _ end] =>
        lazymatch x with
        | context [match _ with _ => _ end] => fail
        | _ => destruct x eqn:?
        end; try discriminate H; cbn in H
    end.

Ltac unfold_driver H :=
  unfold do_encrypt, do_decrypt, hal_SetConfig, hal_Encrypt, hal_Decrypt,
    hal_Init, hal_DeInit, hal_State, hal_rcc_reset,
    store_session, load_session, k_sem_take, k_sem_give,
    bind, lift, ret, log in H.

(** * Properties *)

(** ** Integers and buffers *)

Lemma to_u32_small z : 0 <= z < 2 ^ 32 -> to_u32 z = z.
Proof. intros Hz. unfold to_u32. now apply Z.mod_small. Qed.

Lemma to_int_to_u32_small z : INT_MIN <= z <= INT_MAX -> to_int (to_u32 z) = z.
Proof.
  unfold to_int, to_u32, INT_MIN, INT_MAX. intros Hz.
  rewrite Zplus_mod_idemp_l.
  rewrite Z.mod_small by lia. lia.
Qed.

Lemma loop_index_step i :
  0 <= i -> i + 4 <= INT_MAX -> to_int (to_u32 (to_u32 i + 4)) = i + 4.
Proof.
  unfold INT_MAX. intros H0 H1.
  rewrite (to_u32_small i) by lia.
  apply to_int_to_u32_small. unfold INT_MIN, INT_MAX. lia.
Qed.

Lemma memcpy_inv dst src n r :
  memcpy dst src n = Ok r ->
  n <= Z.of_nat (length dst) /\ n <= Z.of_nat (length src) /\
  r = take (Z.to_nat n) src ++ drop (Z.to_nat n) dst.
Proof.
  unfold memcpy.
  destruct (Z.ltb_spec (Z.of_nat (length dst)) n); [discriminate|].
  destruct (Z.ltb_spec (Z.of_nat (length src)) n); [discriminate|].
  intros [= <-]. auto.
Qed.

Lemma memcpy_fits dst src n :
  n <= Z.of_nat (length dst) -> n <= Z.of_nat (length src) ->
  memcpy dst src n = Ok (take (Z.to_nat n) src ++ drop (Z.to_nat n) dst).
Proof.
  intros Hd Hs. unfold memcpy.
  destruct (Z.ltb_spec (Z.of_nat (length dst)) n); [lia|].
  destruct (Z.ltb_spec (Z.of_nat (length src)) n); [lia|].
  reflexivity.
Qed.

Lemma write_at_inv buf off data r :
  write_at buf off data = Ok r ->
  0 <= off /\ off + Z.of_nat (length data) <= Z.of_nat (length buf) /\
  r = take (Z.to_nat off) buf ++ data ++ drop (Z.to_nat off + length data) buf.
Proof.
  unfold write_at.
  destruct (Z.ltb_spec off 0); [discriminate|].
  destruct (Z.ltb_spec (Z.of_nat (length buf)) (off + Z.of_nat (length data)));
    [discriminate|].
  intros [= <-]. auto.
Qed.

Lemma int_add_inv a b r : int_add a b = Ok r -> r = a + b.
Proof. unfold int_add. destruct (_ && _); now intros [= <-]. Qed.

Lemma int_sub_inv a b r : int_sub a b = Ok r -> r = a - b.
Proof. unfold int_sub. destruct (_ && _); now intros [= <-]. Qed.

Lemma reverse_words_length l : length (reverse_words l) = length l.
Proof.
  induction l as [l IH] using (induction_ltof1 _ (@length byte)).
  unfold ltof in IH.
  destruct l as [|a [|b [|c [|d t]]]]; try reflexivity.
  simpl. rewrite IH; [reflexivity | simpl; lia].
Qed.

Lemma reverse_words_involutive l : reverse_words (reverse_words l) = l.
Proof.
  induction l as [l IH] using (induction_ltof1 _ (@length byte)).
  unfold ltof in IH.
  destruct l as [|a [|b [|c [|d t]]]]; try reflexivity.
  simpl. rewrite IH; [reflexivity | simpl; lia].
Qed.

(** One call of [sys_mem_swap] on the word that follows [pre]. *)
Lemma sys_mem_swap_word (pre t : list byte) a b c d :
  sys_mem_swap (pre ++ a :: b :: c :: d :: t) (Z.of_nat (length pre)) 4
  = Ok ((pre ++ [d; c; b; a]) ++ t).
Proof.
  unfold sys_mem_swap.
  assert (Hlen : Z.of_nat (length (pre ++ a :: b :: c :: d :: t))
                 = Z.of_nat (length pre) + 4 + Z.of_nat (length t)).
  { rewrite length_app. simpl. lia. }
  rewrite Hlen.
  destruct (Z.ltb_spec (Z.of_nat (length pre)) 0); [lia|].
  destruct (Z.ltb_spec (Z.of_nat (length pre) + 4 + Z.of_nat (length t))
                       (Z.of_nat (length pre) + 4)); [lia|].
  simpl orb. cbv iota. f_equal.
  rewrite Nat2Z.id.
  replace (Z.to_nat (Z.of_nat (length pre) + 4)) with (length pre + 4)%nat by lia.
  rewrite take_app_length, drop_app_length.
  replace (pre ++ a :: b :: c :: d :: t) with ((pre ++ [a; b; c; d]) ++ t)
    by (rewrite <- app_assoc; reflexivity).
  rewrite drop_app_length' by (rewrite length_app; simpl; lia).
  simpl. rewrite <- !app_assoc. reflexivity.
Qed.

Section ByteOrderFacts.

Context {K : Kconfig}.

(** The loop, started behind an already swapped prefix, swaps the [k]
    words that remain. *)
Lemma swap_words_loop_spec (k : nat) :
  forall (fuel : nat) (pre rest : list byte) (dst_len : Z),
    length rest = (4 * k)%nat ->
    dst_len = Z.of_nat (length pre) + Z.of_nat (length rest) ->
    dst_len <= INT_MAX ->
    (k < fuel)%nat ->
    swap_words_loop fuel (pre ++ rest) dst_len (Z.of_nat (length pre))
    = Ok (pre ++ reverse_words rest).
Proof.
  induction k as [|k IH]; intros fuel pre rest dst_len Hk Hlen Hmax Hfuel.
  - destruct rest; [|discriminate].
    destruct fuel; [lia|]. simpl.
    destruct (Z.ltb_spec (Z.of_nat (length pre)) dst_len); [simpl in Hlen; lia|].
    reflexivity.
  - destruct rest as [|a [|b [|c [|d t]]]]; simpl in Hk; try lia.
    destruct fuel; [lia|].
    cbn [swap_words_loop].
    destruct (Z.ltb_spec (Z.of_nat (length pre)) dst_len);
      [|simpl in Hlen; lia].
    rewrite sys_mem_swap_word. cbn [rbind].
    rewrite loop_index_step by (simpl in Hlen; lia).
    replace (Z.of_nat (length pre) + 4)
      with (Z.of_nat (length (pre ++ [d; c; b; a])))
      by (rewrite length_app; simpl; lia).
    rewrite (IH fuel (pre ++ [d; c; b; a]) t dst_len).
    + rewrite <- app_assoc. reflexivity.
    + lia.
    + rewrite length_app. simpl in *. lia.
    + assumption.
    + lia.
Qed.

(** With its preconditions met, the transform returns the copied bytes
    followed by the old tail of the destination, every word reversed. *)
Lemma copy_reverse_words_ok (dst_buf src_buf : list byte) (dst_len src_len : Z) :
  dst_len = Z.of_nat (length dst_buf) ->
  dst_len mod 4 = 0 ->
  dst_len <= INT_MAX ->
  0 <= src_len <= dst_len ->
  src_len <= Z.of_nat (length src_buf) ->
  copy_reverse_words dst_buf dst_len src_buf src_len
  = Ok (reverse_words (take (Z.to_nat src_len) src_buf
                       ++ drop (Z.to_nat src_len) dst_buf)).
Proof.
  intros Hdst Hmod Hmax Hsrc Hlen.
  unfold copy_reverse_words, __ASSERT_NO_MSG.
  destruct (Z.leb_spec src_len dst_len); [|lia].
  rewrite Z.rem_mod_nonneg by lia. rewrite Hmod.
  rewrite !andb_false_r. cbn [rbind Z.eqb negb].
  unfold INT_MAX in Hmax.
  rewrite to_u32_small by lia.
  rewrite memcpy_fits by lia. cbn [rbind].
  set (buf := take (Z.to_nat src_len) src_buf ++ drop (Z.to_nat src_len) dst_buf).
  assert (Hbuf : length buf = length dst_buf).
  { unfold buf. rewrite length_app, length_take, length_drop. lia. }
  apply (swap_words_loop_spec (Z.to_nat (dst_len / 4)) _ [] buf).
  - rewrite Hbuf.
    assert (dst_len = 4 * (dst_len / 4)) by (apply Z_div_exact_full_2; lia).
    lia.
  - rewrite Hbuf. simpl. lia.
  - unfold INT_MAX. lia.
  - assert (dst_len / 4 <= dst_len) by (apply Z.div_le_upper_bound; lia).
    lia.
Qed.

(** C10. The byte-order transform is self-inverse: on a region whose
    length [n] is a multiple of 4, [copy_reverse_words] with
    [dst_len = src_len = n] applied to [buf] and then to its own result
    gives [buf] back, whatever the destinations held before (so also when
    it is run in place). *)
Theorem copy_reverse_words_self_inverse (buf dst1 dst2 : list byte) (n : Z) :
  n = Z.of_nat (length buf) ->
  n mod 4 = 0 ->
  n <= INT_MAX ->
  length dst1 = length buf ->
  length dst2 = length buf ->
  exists once,
    copy_reverse_words dst1 n buf n = Ok once /\
    copy_reverse_words dst2 n once n = Ok buf.
Proof.
  intros Hn Hmod Hmax H1 H2.
  exists (reverse_words buf). split.
  - rewrite copy_reverse_words_ok by lia.
    rewrite take_ge, drop_ge, app_nil_r by lia. reflexivity.
  - rewrite copy_reverse_words_ok
      by (rewrite ?reverse_words_length; lia).
    rewrite take_ge, drop_ge, app_nil_r
      by (rewrite ?reverse_words_length; lia).
    f_equal. apply reverse_words_involutive.
Qed.

End ByteOrderFacts.

Lemma copy_reverse_words_self_inverse_witness :
  exists once,
    @copy_reverse_words (Sim.kconfig 1 true)
      (Sim.bytes_from 1 8) 8 (Sim.bytes_from 1 8) 8 = Ok once /\
    @copy_reverse_words (Sim.kconfig 1 true)
      (zeros 8) 8 once 8 = Ok (Sim.bytes_from 1 8).
Proof.
  apply (@copy_reverse_words_self_inverse (Sim.kconfig 1 true)
           (Sim.bytes_from 1 8) (Sim.bytes_from 1 8) (zeros 8) 8);
    [reflexivity | reflexivity | unfold INT_MAX; lia | reflexivity | reflexivity].
Defined.

Lemma status_ok_true s : status_ok s = true -> s = HAL_OK.
Proof. destruct s; (reflexivity || discriminate). Qed.

Section DriverFacts.

Context {K : Kconfig} {C : CipherCaps} {HAL : CrypHal}.

(** The transform, read backwards: if it returned, its preconditions held
    and the result is the word-reversed copy. *)
Lemma copy_reverse_words_inv (dst_buf src_buf : list byte) (dst_len src_len : Z) r :
  dst_len = Z.of_nat (length dst_buf) ->
  dst_len mod 4 = 0 ->
  dst_len <= INT_MAX ->
  INT_MIN <= src_len <= INT_MAX ->
  copy_reverse_words dst_buf dst_len src_buf src_len = Ok r ->
  0 <= src_len <= dst_len /\ src_len <= Z.of_nat (length src_buf) /\
  r = reverse_words (take (Z.to_nat src_len) src_buf
                     ++ drop (Z.to_nat src_len) dst_buf).
Proof.
  intros Hdst Hmod Hmax Hrange Hrun.
  assert (Hfit : 0 <= src_len <= dst_len /\ src_len <= Z.of_nat (length src_buf)).
  { unfold copy_reverse_words in Hrun.
    destruct (__ASSERT_NO_MSG (src_len <=? dst_len)); [|discriminate].
    destruct (__ASSERT_NO_MSG (Z.rem dst_len 4 =? 0)); [|discriminate].
    cbn [rbind] in Hrun.
    destruct (memcpy dst_buf src_buf (to_u32 src_len)) eqn:Hcpy; [|discriminate].
    apply memcpy_inv in Hcpy. destruct Hcpy as (Hd & Hs & _).
    unfold to_u32, INT_MIN, INT_MAX in *.
    destruct (Z.neg_nonneg_cases src_len) as [Hneg|Hpos].
    - exfalso.
      assert (src_len mod 2 ^ 32 = src_len + 2 ^ 32).
      { symmetry. apply (Z.mod_unique_pos _ _ (-1)); lia. }
      lia.
    - rewrite Z.mod_small in Hd, Hs by lia. lia. }
  destruct Hfit as [Hfit Hsrc]. split; [exact Hfit|]. split; [exact Hsrc|].
  rewrite copy_reverse_words_ok in Hrun by assumption.
  now injection Hrun as <-.
Qed.

(** *** CBC *)

(** C1. A CBC encrypt call that succeeds leaves the caller's IV, unchanged,
    in the first 16 bytes of the output buffer, stores what the
    accelerator produced for the input from offset 16 on, and reports
    [in_len + 16]; a CBC decrypt call that succeeds handed the accelerator
    the input from its 16th byte on and reports [in_len - 16]. *)
Theorem cbc_iv_prefix_and_lengths
    (ctx : cipher_ctx) (pkt : cipher_pkt) (iv : list byte)
    (st : driver_state) (pkt' : cipher_pkt) (st' : driver_state) :
  (crypto_stm32_cbc_encrypt ctx pkt iv st = Ok (0, pkt', st') ->
     take 16 (out_buf pkt') = take 16 iv /\
     length (take 16 iv) = 16%nat /\
     (exists h h' ciphertext,
         HAL_CRYP_Encrypt h (in_buf pkt) (in_len pkt) = (HAL_OK, h', ciphertext) /\
         out_buf pkt' = take 16 iv ++ ciphertext
                        ++ drop (16 + length ciphertext) (out_buf pkt)) /\
     out_len pkt' = in_len pkt + 16)
  /\
  (crypto_stm32_cbc_decrypt ctx pkt iv st = Ok (0, pkt', st') ->
     (exists h h' plaintext cfg k,
         HAL_CRYP_Decrypt h (drop 16 (in_buf pkt)) (in_len pkt)
         = (HAL_OK, h', plaintext) /\
         out_buf pkt' = plaintext ++ drop (length plaintext) (out_buf pkt) /\
         trace st' = trace st ++ [EvSemTake DEVICE_SEM; EvHalSetConfig cfg k;
                                  EvHalDecrypt (drop 16 (in_buf pkt)) (in_len pkt);
                                  EvSemGive DEVICE_SEM]) /\
     out_len pkt' = in_len pkt - 16).
Proof.
  split; intros Hrun.
  - unfold crypto_stm32_cbc_encrypt in Hrun. unfold_driver Hrun.
    cbn in Hrun. break_run Hrun.
    all: injection Hrun as <- <-.
    all: match goal with E : memcpy _ _ _ = Ok _ |- _ =>
           apply memcpy_inv in E; destruct E as (Hout & Hiv & ->) end.
    all: match goal with E : write_at _ _ _ = Ok _ |- _ =>
           apply write_at_inv in E; destruct E as (_ & Hfit & ->) end.
    all: match goal with E : int_add _ _ = Ok _ |- _ =>
           apply int_add_inv in E; subst end.
    all: repeat match goal with E : negb (status_ok ?s) = false |- _ =>
           apply negb_false_iff, status_ok_true in E; subst s end.
    all: change (Z.to_nat 16) with 16%nat in *.
    all: assert (Hl : length (take 16 iv) = 16%nat)
           by (rewrite length_take; lia).
    all: cbn [out_buf out_len set_out set_out_len].
    all: assert (Htk : take 16 (take 16 iv ++ drop 16 (out_buf pkt)) = take 16 iv)
           by (rewrite take_app_le by lia; rewrite take_ge by lia; reflexivity).
    all: split; [|split; [exact Hl|split; [|reflexivity]]].
    all: try (rewrite take_app_le by (rewrite Htk; lia);
              rewrite take_ge; [exact Htk | rewrite Htk; lia]).
    all: do 3 eexists; (split; [eassumption|]).
    all: rewrite Htk; f_equal; f_equal.
    all: rewrite drop_app_ge by lia; rewrite Hl.
    all: rewrite drop_drop; f_equal; lia.
  - unfold crypto_stm32_cbc_decrypt in Hrun. unfold_driver Hrun.
    cbn in Hrun. break_run Hrun.
    all: injection Hrun as <- <-.
    all: match goal with E : write_at _ _ _ = Ok _ |- _ =>
           apply write_at_inv in E; destruct E as (_ & Hfit & ->) end.
    all: match goal with E : int_sub _ _ = Ok _ |- _ =>
           apply int_sub_inv in E; subst end.
    all: repeat match goal with E : negb (status_ok ?s) = false |- _ =>
           apply negb_false_iff, status_ok_true in E; subst s end.
    all: cbn [out_buf out_len set_out set_out_len trace].
    all: split; [|reflexivity].
    all: do 5 eexists; (split; [eassumption|]); split;
           [reflexivity | rewrite <- !app_assoc; reflexivity].
Qed.

(** *** ECB *)

(** C3. In both directions an ECB input longer than 16 bytes is answered
    with [-EINVAL] and the driver state is untouched: nothing was logged,
    so no accelerator call was made; and a call on at most 16 bytes that
    succeeds reports an output length of 16. *)
Theorem ecb_single_block (ctx : cipher_ctx) (pkt : cipher_pkt) (st : driver_state) :
  (16 < in_len pkt ->
     crypto_stm32_ecb_encrypt ctx pkt st = Ok (- EINVAL, pkt, st) /\
     crypto_stm32_ecb_decrypt ctx pkt st = Ok (- EINVAL, pkt, st))
  /\
  (forall pkt' st',
     in_len pkt <= 16 ->
     crypto_stm32_ecb_encrypt ctx pkt st = Ok (0, pkt', st') \/
     crypto_stm32_ecb_decrypt ctx pkt st = Ok (0, pkt', st') ->
     out_len pkt' = 16).
Proof.
  split.
  - intros Hlen.
    unfold crypto_stm32_ecb_encrypt, crypto_stm32_ecb_decrypt.
    destruct (Z.ltb_spec 16 (in_len pkt)); [|lia].
    split; reflexivity.
  - intros pkt' st' Hlen [Hrun|Hrun].
    + unfold crypto_stm32_ecb_encrypt in Hrun.
      destruct (Z.ltb_spec 16 (in_len pkt)); [lia|].
      unfold bind at 1 in Hrun.
      destruct (do_encrypt _ _ _ _ _ _) as [[[r out] st1]|]; [|discriminate].
      destruct (Z.eqb_spec r 0); unfold ret in Hrun; injection Hrun as -> <- <-;
        [reflexivity | contradiction].
    + unfold crypto_stm32_ecb_decrypt in Hrun.
      destruct (Z.ltb_spec 16 (in_len pkt)); [lia|].
      unfold bind at 1 in Hrun.
      destruct (do_decrypt _ _ _ _ _ _) as [[[r out] st1]|]; [|discriminate].
      destruct (Z.eqb_spec r 0); unfold ret in Hrun; injection Hrun as -> <- <-;
        [reflexivity | contradiction].
Qed.

(** *** What one accelerator run does *)

Lemma do_encrypt_inv ctx inb len out off st r out' st' :
  do_encrypt ctx inb len out off st = Ok (r, out', st') ->
  exists sn rest,
    CRYPTO_STM32_SESSN ctx ≫= (fun i => crypto_stm32_sessions st !! i) = Some sn /\
    crypto_stm32_sessions st' = crypto_stm32_sessions st /\
    session_sem st' = session_sem st /\
    trace st' = trace st ++ EvSemTake DEVICE_SEM
                         :: EvHalSetConfig (config sn) (key sn) :: rest /\
    (r = 0 \/ r = - EIO).
Proof.
  intros Hrun. unfold do_encrypt in Hrun. unfold_driver Hrun.
  cbn in Hrun. break_run Hrun.
  all: injection Hrun as <- <- <-.
  all: do 2 eexists; cbn [crypto_stm32_sessions session_sem trace].
  all: rewrite <- ?app_assoc; cbn [app].
  all: repeat split; try reflexivity; auto.
Qed.

Lemma do_decrypt_inv ctx inb len out off st r out' st' :
  do_decrypt ctx inb len out off st = Ok (r, out', st') ->
  exists sn rest,
    CRYPTO_STM32_SESSN ctx ≫= (fun i => crypto_stm32_sessions st !! i) = Some sn /\
    crypto_stm32_sessions st' = crypto_stm32_sessions st /\
    session_sem st' = session_sem st /\
    trace st' = trace st ++ EvSemTake DEVICE_SEM
                         :: EvHalSetConfig (config sn) (key sn) :: rest /\
    (r = 0 \/ r = - EIO).
Proof.
  intros Hrun. unfold do_decrypt in Hrun. unfold_driver Hrun.
  cbn in Hrun. break_run Hrun.
  all: injection Hrun as <- <- <-.
  all: do 2 eexists; cbn [crypto_stm32_sessions session_sem trace].
  all: rewrite <- ?app_assoc; cbn [app].
  all: repeat split; try reflexivity; auto.
Qed.

Lemma store_session_inv p f st u st' :
  store_session p f st = Ok (u, st') ->
  exists i s,
    p = Some i /\ crypto_stm32_sessions st !! i = Some s /\
    st' = put_sessions (<[i := f s]> (crypto_stm32_sessions st)) st.
Proof.
  unfold store_session. destruct p as [i|]; [|discriminate].
  destruct (crypto_stm32_sessions st !! i) as [s|] eqn:E; [|discriminate].
  intros [= <-]. eauto.
Qed.

(** *** CTR *)

Lemma ctr_ivlen_range ctx : INT_MIN <= ctr_ivlen ctx <= INT_MAX.
Proof.
  unfold ctr_ivlen, to_int, INT_MIN, INT_MAX.
  pose proof (Z.mod_pos_bound
                (to_u32 (keylen ctx - Z.shiftr (ctr_len ctx) 3) + 2 ^ 31)
                (2 ^ 32)).
  lia.
Qed.

Lemma ctr_ivlen_exact ctx :
  0 <= keylen ctx < 2 ^ 16 -> 0 <= ctr_len ctx < 2 ^ 32 ->
  ctr_ivlen ctx = keylen ctx - ctr_len ctx / 8.
Proof.
  intros Hk Hc. unfold ctr_ivlen.
  rewrite Z.shiftr_div_pow2 by lia. change (2 ^ 3) with 8.
  assert (0 <= ctr_len ctx / 8 < 2 ^ 29).
  { split; [apply Z.div_pos; lia|].
    apply Z.div_lt_upper_bound; lia. }
  apply to_int_to_u32_small. unfold INT_MIN, INT_MAX. lia.
Qed.

Lemma zeros_length n : length (zeros n) = n.
Proof. apply repeat_length. Qed.

Lemma drop_zeros n m : drop n (zeros m) = zeros (m - n).
Proof.
  unfold zeros. revert m. induction n as [|n IH]; intros m.
  - now rewrite Nat.sub_0_r.
  - destruct m as [|m]; [reflexivity|]. simpl. apply IH.
Qed.

Lemma ctr_block_of_transform ctx iv a :
  0 <= keylen ctx < 2 ^ 16 -> 0 <= ctr_len ctx < 2 ^ 32 ->
  copy_reverse_words (zeros 16) 16 iv (ctr_ivlen ctx) = Ok a ->
  let ivlen := keylen ctx - ctr_len ctx / 8 in
  let nonce := take (Z.to_nat ivlen) iv in
  0 <= ivlen <= 16 /\ length nonce = Z.to_nat ivlen /\
  a = reverse_words (nonce ++ zeros (16 - Z.to_nat ivlen)).
Proof.
  intros Hk Hc Hcrw ivlen nonce.
  apply copy_reverse_words_inv in Hcrw;
    [ | reflexivity | reflexivity | unfold INT_MAX; lia | apply ctr_ivlen_range ].
  rewrite ctr_ivlen_exact in Hcrw by assumption.
  fold ivlen in Hcrw. destruct Hcrw as (Hr & Hiv & ->).
  rewrite drop_zeros. fold nonce.
  split; [exact Hr|]. split; [|reflexivity].
  unfold nonce. rewrite length_take. lia.
Qed.

(** C2. Every CTR call, in either direction, first runs the byte-order
    transform on a zeroed 16-byte block and [ivlen] bytes of the caller's
    IV, [ivlen] being [keylen - ctr_len / 8]: a fault of the transform is
    the outcome of the call, and a call that returns has programmed the
    accelerator with the word-reversed block "nonce, then zeros" (read
    back in accelerator order: the [ivlen] nonce bytes followed by
    [16 - ivlen] zero bytes); when it succeeds the reported output length
    is the input length. *)
Theorem ctr_counter_block_and_length
    (ctx : cipher_ctx) (pkt : cipher_pkt) (iv : list byte) (st : driver_state) :
  0 <= keylen ctx < 2 ^ 16 ->
  0 <= ctr_len ctx < 2 ^ 32 ->
  ctr_ivlen ctx = keylen ctx - ctr_len ctx / 8 /\
  (forall f,
      copy_reverse_words (zeros 16) 16 iv (ctr_ivlen ctx) = Fault f ->
      crypto_stm32_ctr_encrypt ctx pkt iv st = Fault f /\
      crypto_stm32_ctr_decrypt ctx pkt iv st = Fault f) /\
  (forall r pkt' st',
      crypto_stm32_ctr_encrypt ctx pkt iv st = Ok (r, pkt', st') \/
      crypto_stm32_ctr_decrypt ctx pkt iv st = Ok (r, pkt', st') ->
      ctr_call_outcome ctx pkt iv st r pkt' st').
Proof.
  intros Hk Hc. split; [now apply ctr_ivlen_exact|]. split.
  - intros f Hf.
    split; [unfold crypto_stm32_ctr_encrypt | unfold crypto_stm32_ctr_decrypt].
    all: unfold bind at 1; unfold lift at 1; rewrite Hf; reflexivity.
  - intros r pkt' st' Hrun.
    assert (Hcommon :
      exists a st1 out sn rest,
        copy_reverse_words (zeros 16) 16 iv (ctr_ivlen ctx) = Ok a /\
        store_session (CRYPTO_STM32_SESSN ctx)
          (fun s => set_config s (with_pInitVect (config s) a)) st = Ok (tt, st1) /\
        CRYPTO_STM32_SESSN ctx ≫= (fun i => crypto_stm32_sessions st1 !! i) = Some sn /\
        crypto_stm32_sessions st' = crypto_stm32_sessions st1 /\
        trace st' = trace st1 ++ EvSemTake DEVICE_SEM
                              :: EvHalSetConfig (config sn) (key sn) :: rest /\
        pkt' = (if r =? 0 then set_out_len (set_out pkt out) (in_len pkt)
                else set_out pkt out)).
    { destruct Hrun as [Hrun|Hrun];
        [unfold crypto_stm32_ctr_encrypt in Hrun
        |unfold crypto_stm32_ctr_decrypt in Hrun].
      all: unfold bind at 1 in Hrun; unfold lift at 1 in Hrun.
      all: destruct (copy_reverse_words _ _ _ _) as [a|] eqn:Hcrw; [|discriminate].
      all: unfold bind at 1 in Hrun.
      all: destruct (store_session _ _ _) as [[[] st1]|] eqn:Hst; [|discriminate].
      all: unfold bind at 1 in Hrun.
      1: destruct (do_encrypt _ _ _ _ _ _) as [[[r1 out] st2]|] eqn:Hdo; [|discriminate].
      2: destruct (do_decrypt _ _ _ _ _ _) as [[[r1 out] st2]|] eqn:Hdo; [|discriminate].
      1: apply do_encrypt_inv in Hdo.
      2: apply do_decrypt_inv in Hdo.
      all: destruct Hdo as (sn & rest & Hsn & Hss & _ & Htr & _).
      all: exists a, st1, out, sn, rest.
      all: destruct (r1 =? 0) eqn:Hr1; unfold ret in Hrun;
           injection Hrun as <- <- <-; rewrite Hr1; auto 10. }
    destruct Hcommon as (a & st1 & out & sn & rest & Hcrw & Hst & Hsn & Hss & Htr & ->).
    destruct (ctr_block_of_transform ctx iv a Hk Hc Hcrw) as (Hr & Hn & ->).
    apply store_session_inv in Hst. destruct Hst as (i & s & Hi & Hs & ->).
    rewrite Hi in Hsn. cbn in Hsn, Hss, Htr.
    assert (Hlt : (i < length (crypto_stm32_sessions st))%nat)
      by (eapply lookup_lt_Some; eassumption).
    rewrite list_lookup_insert_eq in Hsn by exact Hlt.
    injection Hsn as <-.
    unfold ctr_call_outcome. cbv zeta.
    rewrite reverse_words_involutive.
    split; [exact Hr|]. split; [exact Hn|]. split; [exact Hcrw|].
    split; [|split; [|split; [|split]]].
    + exists i. eexists. split; [exact Hi|]. split.
      * rewrite Hss. apply list_lookup_insert_eq. exact Hlt.
      * reflexivity.
    + do 3 eexists. split; [exact Htr|]. reflexivity.
    + rewrite take_app_length'; [reflexivity | now symmetry].
    + rewrite drop_app_length'; [reflexivity | now symmetry].
    + intros ->. reflexivity.
Qed.

Lemma swap_words_loop_faults fuel :
  forall buf dst_len i f,
    swap_words_loop fuel buf dst_len i = Fault f ->
    f = BufferOverrun \/ f = OutOfFuel.
Proof.
  induction fuel as [|fuel IH]; intros buf dst_len i f; simpl.
  - intros [= <-]. now right.
  - destruct (i <? dst_len); [|discriminate].
    unfold sys_mem_swap.
    destruct (_ || _); cbn [rbind].
    + intros [= <-]. now left.
    + apply IH.
Qed.

(** C4. The nonce length of a CTR call is [keylen - ctr_len / 8].  When
    it is at most 16 (always so for a 16-byte key) the transform's first
    assertion, [dst_len >= src_len], holds for the 16-byte counter block.
    When it exceeds 16 the assertion's test is false and the [memcpy] of
    that many bytes runs past the end of the block, so the call never
    returns: with assertions compiled in the assertion fails, without them
    the copy overruns.  So a CTR call that returns had a nonce length of at
    most 16. *)
Theorem ctr_ivlen_precondition (ctx : cipher_ctx) :
  0 <= keylen ctx < 2 ^ 16 ->
  0 <= ctr_len ctx < 2 ^ 32 ->
  let ivlen := keylen ctx - ctr_len ctx / 8 in
  ctr_ivlen ctx = ivlen /\
  (ivlen <= 16 ->
     __ASSERT_NO_MSG (ctr_ivlen ctx <=? 16) = Ok tt /\
     forall iv, copy_reverse_words (zeros 16) 16 iv (ctr_ivlen ctx)
                <> Fault AssertFail) /\
  (16 < ivlen ->
     forall pkt iv st,
       let f := if CONFIG_ASSERT then AssertFail else BufferOverrun in
       (ctr_ivlen ctx <=? 16) = false /\
       memcpy (zeros 16) iv (to_u32 (ctr_ivlen ctx)) = Fault BufferOverrun /\
       copy_reverse_words (zeros 16) 16 iv (ctr_ivlen ctx) = Fault f /\
       crypto_stm32_ctr_encrypt ctx pkt iv st = Fault f /\
       crypto_stm32_ctr_decrypt ctx pkt iv st = Fault f) /\
  (keylen ctx = 16 -> ivlen <= 16) /\
  (forall pkt iv st r pkt' st',
      crypto_stm32_ctr_encrypt ctx pkt iv st = Ok (r, pkt', st') \/
      crypto_stm32_ctr_decrypt ctx pkt iv st = Ok (r, pkt', st') ->
      ivlen <= 16).
Proof.
  intros Hk Hc ivlen.
  assert (Hiv : ctr_ivlen ctx = ivlen) by now apply ctr_ivlen_exact.
  assert (Hbig : 16 < ivlen ->
            forall iv, copy_reverse_words (zeros 16) 16 iv (ctr_ivlen ctx)
                       = Fault (if CONFIG_ASSERT then AssertFail else BufferOverrun)).
  { intros Hgt iv. rewrite Hiv.
    unfold copy_reverse_words, __ASSERT_NO_MSG.
    destruct (Z.leb_spec ivlen 16); [lia|].
    destruct CONFIG_ASSERT; [reflexivity|].
    cbn [andb rbind].
    unfold memcpy. rewrite zeros_length.
    assert (Hdiv : 0 <= ctr_len ctx / 8) by (apply Z.div_pos; lia).
    assert (Hsmall : 0 <= ivlen < 2 ^ 32) by (unfold ivlen in *; lia).
    rewrite (to_u32_small _ Hsmall).
    destruct (Z.ltb_spec (Z.of_nat 16) ivlen); [reflexivity|lia]. }
  assert (Hfault : 16 < ivlen -> forall pkt iv st,
            crypto_stm32_ctr_encrypt ctx pkt iv st
            = Fault (if CONFIG_ASSERT then AssertFail else BufferOverrun) /\
            crypto_stm32_ctr_decrypt ctx pkt iv st
            = Fault (if CONFIG_ASSERT then AssertFail else BufferOverrun)).
  { intros Hgt pkt iv st.
    split; [unfold crypto_stm32_ctr_encrypt | unfold crypto_stm32_ctr_decrypt].
    all: unfold bind at 1; unfold lift at 1; rewrite (Hbig Hgt iv); reflexivity. }
  split; [exact Hiv|]. split; [|split; [|split]].
  - intros Hle. rewrite Hiv. split.
    + unfold __ASSERT_NO_MSG.
      destruct (Z.leb_spec ivlen 16); [|lia].
      now rewrite andb_false_r.
    + intros iv. unfold copy_reverse_words, __ASSERT_NO_MSG.
      destruct (Z.leb_spec ivlen 16); [|lia].
      change (Z.rem 16 4 =? 0) with true.
      rewrite !andb_false_r. cbn [rbind].
      unfold memcpy.
      destruct (_ <? _); [discriminate|].
      destruct (_ <? _); [discriminate|].
      cbn [rbind]. intros Hcrw.
      apply swap_words_loop_faults in Hcrw.
      destruct Hcrw; discriminate.
  - intros Hgt pkt iv st. cbv zeta.
    split; [|split; [|split; [now apply Hbig | now apply Hfault]]].
    + rewrite Hiv. destruct (Z.leb_spec ivlen 16); [lia|reflexivity].
    + rewrite Hiv. unfold memcpy. rewrite zeros_length.
      assert (Hdiv : 0 <= ctr_len ctx / 8) by (apply Z.div_pos; lia).
      assert (Hsmall : 0 <= ivlen < 2 ^ 32) by (unfold ivlen in *; lia).
      rewrite (to_u32_small _ Hsmall).
      destruct (Z.ltb_spec (Z.of_nat 16) ivlen); [reflexivity|lia].
  - intros H16. unfold ivlen. rewrite H16.
    assert (0 <= ctr_len ctx / 8) by (apply Z.div_pos; lia). lia.
  - intros pkt iv st r pkt' st' Hrun.
    destruct (Z.le_gt_cases ivlen 16) as [Hle|Hgt]; [exact Hle|].
    destruct (Hfault Hgt pkt iv st) as [He Hd].
    rewrite He, Hd in Hrun. destruct Hrun; discriminate.
Qed.

(** *** The session pool *)

Lemma first_unused_cases (l : list crypto_stm32_session) :
  (exists j s, first_unused_at l j s) \/ all_in_use l.
Proof.
  induction l as [|x l IH].
  - right. intros k s Hk. destruct k; discriminate.
  - destruct (in_use x) eqn:Hx.
    + destruct IH as [(j & s & Hj & Hs & Hlt)|Hall].
      * left. exists (S j), s. split; [exact Hj|]. split; [exact Hs|].
        intros k s' Hk Hl. destruct k as [|k].
        -- injection Hl as <-. exact Hx.
        -- apply (Hlt k s'); [lia | exact Hl].
      * right. intros k s Hk. destruct k as [|k].
        -- injection Hk as <-. exact Hx.
        -- apply (Hall k s Hk).
    + left. exists 0%nat, x. split; [reflexivity|]. split; [exact Hx|].
      intros k s' Hk. lia.
Qed.

Lemma first_unused_unique l j s j' s' :
  first_unused_at l j s -> first_unused_at l j' s' -> j = j' /\ s = s'.
Proof.
  intros (Hj & Hs & Hlt) (Hj' & Hs' & Hlt').
  assert (j = j').
  { destruct (Nat.lt_trichotomy j j') as [Hc|[Hc|Hc]]; [|exact Hc|].
    - specialize (Hlt' j s Hc Hj). congruence.
    - specialize (Hlt j' s' Hc Hj'). congruence. }
  subst j'. split; [reflexivity|congruence].
Qed.

Lemma get_unused_session_loop_found (n : nat) :
  forall (i : nat) (st : driver_state) (j : nat) (s : crypto_stm32_session),
    (i + n = length (crypto_stm32_sessions st))%nat ->
    (i <= j)%nat ->
    first_unused_at (crypto_stm32_sessions st) j s ->
    get_unused_session_loop n i st
    = bind (k_sem_give SESSION_SEM) (fun _ => ret (Z.of_nat j))
        (put_sessions (<[j := set_in_use s true]> (crypto_stm32_sessions st)) st).
Proof.
  induction n as [|n IH]; intros i st j s Hlen Hij (Hj & Hs & Hlt).
  - apply lookup_lt_Some in Hj. lia.
  - cbn [get_unused_session_loop].
    destruct (Nat.eq_dec i j) as [->|Hne].
    + unfold bind at 1. unfold load_session. cbn [mbind option_bind].
      rewrite Hj, Hs. cbn [negb].
      unfold bind at 1. unfold store_session. rewrite Hj. reflexivity.
    + assert (Hi : (i < j)%nat) by lia.
      destruct (lookup_lt_is_Some_2 (crypto_stm32_sessions st) i) as [si Hsi];
        [apply lookup_lt_Some in Hj; lia|].
      unfold bind at 1. unfold load_session. cbn [mbind option_bind].
      rewrite Hsi. rewrite (Hlt i si Hi Hsi). cbn [negb].
      apply IH; [lia | lia | repeat split; assumption].
Qed.

Lemma get_unused_session_loop_full (n : nat) :
  forall (i : nat) (st : driver_state),
    (i + n = length (crypto_stm32_sessions st))%nat ->
    all_in_use (crypto_stm32_sessions st) ->
    get_unused_session_loop n i st
    = bind (k_sem_give SESSION_SEM) (fun _ => ret (-1)) st.
Proof.
  induction n as [|n IH]; intros i st Hlen Hall.
  - reflexivity.
  - cbn [get_unused_session_loop].
    destruct (lookup_lt_is_Some_2 (crypto_stm32_sessions st) i) as [si Hsi];
      [lia|].
    unfold bind at 1. unfold load_session. cbn [mbind option_bind].
    rewrite Hsi. rewrite (Hall i si Hsi). cbn [negb].
    apply IH; [lia | exact Hall].
Qed.

Lemma sem_cycle (s : k_sem) :
  sem_available s ->
  {| count := (if count s - 1 <? limit s then count s - 1 + 1 else count s - 1);
     limit := limit s |} = s.
Proof.
  intros [H0 H1]. destruct s as [c l]. cbn in *.
  destruct (Z.ltb_spec (c - 1) l); [|lia].
  f_equal. lia.
Qed.

Lemma get_unused_session_index_found st j s :
  length (crypto_stm32_sessions st) = CRYPTO_MAX_SESSION ->
  sem_available (session_sem st) ->
  first_unused_at (crypto_stm32_sessions st) j s ->
  crypto_stm32_get_unused_session_index st
  = Ok (Z.of_nat j,
        after_pool_lock st (<[j := set_in_use s true]> (crypto_stm32_sessions st))
          (hcryp st) [EvSemTake SESSION_SEM; EvSemGive SESSION_SEM]).
Proof.
  intros Hlen Hsem Hfirst.
  unfold crypto_stm32_get_unused_session_index.
  unfold bind at 1. unfold k_sem_take. cbn [get_sem].
  destruct (Z.ltb_spec 0 (count (session_sem st))); [|destruct Hsem; lia].
  unfold log at 1.
  erewrite get_unused_session_loop_found; [ | | | exact Hfirst]; [|cbn; lia|lia].
  unfold bind, k_sem_give, log, ret, after_pool_lock. cbn.
  rewrite (sem_cycle _ Hsem). rewrite <- app_assoc. reflexivity.
Qed.

Lemma get_unused_session_index_full st :
  length (crypto_stm32_sessions st) = CRYPTO_MAX_SESSION ->
  sem_available (session_sem st) ->
  all_in_use (crypto_stm32_sessions st) ->
  crypto_stm32_get_unused_session_index st
  = Ok (-1,
        after_pool_lock st (crypto_stm32_sessions st)
          (hcryp st) [EvSemTake SESSION_SEM; EvSemGive SESSION_SEM]).
Proof.
  intros Hlen Hsem Hall.
  unfold crypto_stm32_get_unused_session_index.
  unfold bind at 1. unfold k_sem_take. cbn [get_sem].
  destruct (Z.ltb_spec 0 (count (session_sem st))); [|destruct Hsem; lia].
  unfold log at 1.
  rewrite get_unused_session_loop_full; [ | cbn; lia | exact Hall].
  unfold bind, k_sem_give, log, ret, after_pool_lock. cbn.
  rewrite (sem_cycle _ Hsem). rewrite <- app_assoc. reflexivity.
Qed.

(** *** Session setup *)

Lemma store_session_at l h ds ss tr j x f :
  (j < length l)%nat ->
  store_session (Some j) f
    {| crypto_stm32_sessions := <[j := x]> l; hcryp := h;
       device_sem := ds; session_sem := ss; trace := tr |}
  = Ok (tt, {| crypto_stm32_sessions := <[j := f x]> l; hcryp := h;
               device_sem := ds; session_sem := ss; trace := tr |}).
Proof.
  intros Hj. unfold store_session. cbn.
  rewrite list_lookup_insert_eq by exact Hj.
  unfold put_sessions. cbn. rewrite list_insert_insert_eq. reflexivity.
Qed.

Lemma load_session_at l h ds ss tr j x :
  (j < length l)%nat ->
  load_session (Some j)
    {| crypto_stm32_sessions := <[j := x]> l; hcryp := h;
       device_sem := ds; session_sem := ss; trace := tr |}
  = Ok (x, {| crypto_stm32_sessions := <[j := x]> l; hcryp := h;
              device_sem := ds; session_sem := ss; trace := tr |}).
Proof.
  intros Hj. unfold load_session. cbn.
  rewrite list_lookup_insert_eq by exact Hj. reflexivity.
Qed.

Lemma setup_found_eq ctx algo mode op_type st j s :
  params_valid ctx algo mode ->
  length (crypto_stm32_sessions st) = CRYPTO_MAX_SESSION ->
  sem_available (session_sem st) ->
  first_unused_at (crypto_stm32_sessions st) j s ->
  crypto_stm32_session_setup ctx algo mode op_type st
  = let '(ok, h, evs) := hw_bringup (hcryp st) in
    let evs := [EvSemTake SESSION_SEM; EvSemGive SESSION_SEM] ++ evs in
    if ok then
      match copy_reverse_words (key s) CRYPTO_STM32_AES_MAX_KEY_LEN
              (key_bit_stream ctx) (keylen ctx) with
      | Ok k =>
          Ok (0,
              bind_ctx ctx
                (snd (select_mode op_type mode
                        (select_KeySize (keylen ctx) config_zero) (ops ctx))) j,
              after_pool_lock st
                (<[j := bound_session ctx mode op_type k]> (crypto_stm32_sessions st))
                h evs)
      | Fault f => Fault f
      end
    else
      Ok (- EIO, ctx,
          after_pool_lock st
            (<[j := set_config s config_zero]> (crypto_stm32_sessions st)) h evs).
Proof.
  intros (Hf & Ha & Hm & Hk) Hlen Hsem Hfirst.
  assert (Hj : (j < length (crypto_stm32_sessions st))%nat).
  { destruct Hfirst as (Hj & _). now apply lookup_lt_Some in Hj. }
  unfold crypto_stm32_session_setup.
  rewrite Hf, Ha, Hm, Hk. cbn [Z.eqb negb algo_is_aes].
  unfold bind at 1.
  rewrite (get_unused_session_index_found st j s Hlen Hsem Hfirst).
  destruct (Z.ltb_spec (Z.of_nat j) 0); [lia|].
  rewrite Nat2Z.id.
  unfold after_pool_lock.
  unfold bind at 1. rewrite store_session_at by exact Hj.
  unfold bind at 1. unfold hal_State at 1. cbn [hcryp].
  unfold hw_bringup.
  destruct Hfirst as (_ & Hs & _).
  destruct (state_is_reset (State (hcryp st))).
  - unfold bind at 1. unfold hal_Init. cbv beta. cbn [hcryp].
    destruct (HAL_CRYP_Init (hcryp st)) as [status h'].
    unfold bind at 1. unfold log, put_hcryp, ret at 1.
    cbn [crypto_stm32_sessions hcryp device_sem session_sem trace].
    destruct (status_ok status); cbn [negb].
    + unfold bind at 1. rewrite store_session_at by exact Hj.
      unfold bind at 1. rewrite load_session_at by exact Hj.
      cbn [config key set_config set_in_use].
      destruct (select_mode op_type mode _ (ops ctx)) as [c o] eqn:Hsel.
      unfold bind at 1. rewrite store_session_at by exact Hj.
      unfold bind at 1. unfold lift at 1.
      destruct (copy_reverse_words _ _ _ _) as [k|f]; [|reflexivity].
      unfold bind at 1. rewrite store_session_at by exact Hj.
      unfold bind at 1. rewrite store_session_at by exact Hj.
      unfold ret, bound_session. cbn. rewrite Hsel. cbn.
      rewrite <- app_assoc. reflexivity.
    + unfold bind at 1. rewrite store_session_at by exact Hj.
      unfold ret, set_config, set_in_use. cbn. rewrite Hs.
      rewrite <- app_assoc. reflexivity.
  - unfold bind at 1. unfold ret at 1. cbn [negb status_ok].
    unfold bind at 1. rewrite store_session_at by exact Hj.
    unfold bind at 1. rewrite load_session_at by exact Hj.
    cbn [config key set_config set_in_use].
    destruct (select_mode op_type mode _ (ops ctx)) as [c o] eqn:Hsel.
    unfold bind at 1. rewrite store_session_at by exact Hj.
    unfold bind at 1. unfold lift at 1.
    destruct (copy_reverse_words _ _ _ _) as [k|f]; [|reflexivity].
    unfold bind at 1. rewrite store_session_at by exact Hj.
    unfold bind at 1. rewrite store_session_at by exact Hj.
    unfold ret, bound_session. cbn. rewrite Hsel. cbn.
    rewrite ?app_nil_r. reflexivity.
Qed.

Lemma setup_full_eq ctx algo mode op_type st :
  params_valid ctx algo mode ->
  length (crypto_stm32_sessions st) = CRYPTO_MAX_SESSION ->
  sem_available (session_sem st) ->
  all_in_use (crypto_stm32_sessions st) ->
  crypto_stm32_session_setup ctx algo mode op_type st
  = Ok (- ENOSPC, ctx,
        after_pool_lock st (crypto_stm32_sessions st) (hcryp st)
          [EvSemTake SESSION_SEM; EvSemGive SESSION_SEM]).
Proof.
  intros (Hf & Ha & Hm & Hk) Hlen Hsem Hall.
  unfold crypto_stm32_session_setup.
  rewrite Hf, Ha, Hm, Hk. cbn [Z.eqb negb algo_is_aes].
  unfold bind at 1.
  rewrite (get_unused_session_index_full st Hlen Hsem Hall).
  reflexivity.
Qed.

Lemma unsupported_flag_test (f support : Z) :
  (exists n, 0 <= n /\ Z.testbit f n = true /\ Z.testbit support n = false) ->
  Z.land f (Z.lnot support) <> 0.
Proof.
  intros (n & Hn & Hf & Hs) Hz.
  assert (Hbit : Z.testbit (Z.land f (Z.lnot support)) n = true).
  { rewrite Z.land_spec, Z.lnot_spec by exact Hn. now rewrite Hf, Hs. }
  rewrite Hz, Z.bits_0 in Hbit. discriminate.
Qed.

(** C6. A setup call with a capability flag outside the supported three,
    with an algorithm other than AES, with a mode other than ECB, CBC and
    CTR, or with a key length other than 16, 24 and 32 returns [-EINVAL]
    and hands back the context and the driver state exactly as they were:
    no slot is claimed, no semaphore taken, no accelerator call made. *)
Theorem setup_rejects_invalid
    (ctx : cipher_ctx) (algo : cipher_algo) (mode : cipher_mode)
    (op_type : cipher_op) (st : driver_state) :
  (exists n, 0 <= n /\ Z.testbit (flags ctx) n = true /\
             Z.testbit CRYP_SUPPORT n = false) \/
  algo <> CRYPTO_CIPHER_ALGO_AES \/
  (mode <> CRYPTO_CIPHER_MODE_ECB /\ mode <> CRYPTO_CIPHER_MODE_CBC /\
   mode <> CRYPTO_CIPHER_MODE_CTR) \/
  (keylen ctx <> 16 /\ keylen ctx <> 24 /\ keylen ctx <> 32) ->
  crypto_stm32_session_setup ctx algo mode op_type st = Ok (- EINVAL, ctx, st).
Proof.
  intros Hbad. unfold crypto_stm32_session_setup.
  destruct (Z.eqb_spec (Z.land (flags ctx) (Z.lnot CRYP_SUPPORT)) 0) as [Hf|Hf];
    cbn [negb]; [|reflexivity].
  destruct (algo_is_aes algo) eqn:Ha; cbn [negb]; [|reflexivity].
  destruct (mode_supported mode) eqn:Hm; cbn [negb]; [|reflexivity].
  destruct (keylen_supported (keylen ctx)) eqn:Hk; cbn [negb]; [|reflexivity].
  exfalso. destruct Hbad as [Hflag|[Halgo|[Hmode|Hlen]]].
  - now apply unsupported_flag_test in Hflag.
  - destruct algo; [now apply Halgo | discriminate].
  - destruct Hmode as (H1 & H2 & H3).
    destruct mode; try discriminate; congruence.
  - unfold keylen_supported in Hk.
    destruct Hlen as (H1 & H2 & H3).
    destruct (Z.eqb_spec (keylen ctx) 16); [contradiction|].
    destruct (Z.eqb_spec (keylen ctx) 24); [contradiction|].
    destruct (Z.eqb_spec (keylen ctx) 32); [contradiction|].
    discriminate.
Qed.

(** *** Session free *)

Lemma session_free_loop_busy (n : nat) :
  forall (i : nat) (st : driver_state) (after : M Z),
    (i + n = length (crypto_stm32_sessions st))%nat ->
    (exists k s, (i <= k)%nat /\ crypto_stm32_sessions st !! k = Some s /\
                 in_use s = true) ->
    session_free_loop n i after st
    = bind (k_sem_give SESSION_SEM) (fun _ => ret 0) st.
Proof.
  induction n as [|n IH]; intros i st after Hlen (k & s & Hk & Hs & Hu).
  - apply lookup_lt_Some in Hs. lia.
  - cbn [session_free_loop].
    destruct (lookup_lt_is_Some_2 (crypto_stm32_sessions st) i) as [si Hsi];
      [apply lookup_lt_Some in Hs; lia|].
    unfold bind at 1. unfold load_session. cbn [mbind option_bind].
    rewrite Hsi. destruct (in_use si) eqn:Hui; [reflexivity|].
    apply IH; [lia|].
    exists k, s. split; [|split; assumption].
    destruct (Nat.eq_dec i k) as [->|]; [congruence|lia].
Qed.

Lemma session_free_loop_quiet (n : nat) :
  forall (i : nat) (st : driver_state) (after : M Z),
    (i + n = length (crypto_stm32_sessions st))%nat ->
    (forall k s, crypto_stm32_sessions st !! k = Some s -> in_use s = false) ->
    session_free_loop n i after st = after st.
Proof.
  induction n as [|n IH]; intros i st after Hlen Hall.
  - reflexivity.
  - cbn [session_free_loop].
    destruct (lookup_lt_is_Some_2 (crypto_stm32_sessions st) i) as [si Hsi];
      [lia|].
    unfold bind at 1. unfold load_session. cbn [mbind option_bind].
    rewrite Hsi, (Hall i si Hsi).
    apply IH; [lia | exact Hall].
Qed.

Lemma other_live_dec l i : other_live l i \/ ~ other_live l i.
Proof.
  unfold other_live.
  assert (Hgen : forall (l : list crypto_stm32_session) (o : nat),
    (exists k s, (k + o)%nat <> i /\ l !! k = Some s /\ in_use s = true) \/
    ~ (exists k s, (k + o)%nat <> i /\ l !! k = Some s /\ in_use s = true)).
  { clear l. intros l. induction l as [|x l IH]; intros o.
    - right. intros (k & s & _ & Hk & _). destruct k; discriminate.
    - destruct (Nat.eq_dec o i) as [Ho|Ho], (in_use x) eqn:Hx,
        (IH (S o)) as [(k & s & Hk & Hl & Hu)|Hno].
      all: try (left; exists (S k), s; split; [lia|split; assumption]).
      all: try (left; exists 0%nat, x; split; [simpl; lia|split; [reflexivity|exact Hx]]).
      all: right; intros (k & s & Hk & Hl & Hu); destruct k as [|k];
        [ injection Hl as <-; simpl in Hk; congruence
        | apply Hno; exists k, s; split; [lia|split; assumption] ]. }
  destruct (Hgen l 0%nat) as [(k & s & Hk & Hl & Hu)|Hno].
  - left. exists k, s. rewrite Nat.add_0_r in Hk. auto.
  - right. intros (k & s & Hk & Hl & Hu). apply Hno.
    exists k, s. rewrite Nat.add_0_r. auto.
Qed.

Lemma session_free_eq ctx st i s :
  CRYPTO_STM32_SESSN ctx = Some i ->
  crypto_stm32_sessions st !! i = Some s ->
  length (crypto_stm32_sessions st) = CRYPTO_MAX_SESSION ->
  sem_available (session_sem st) ->
  let l' := <[i := set_in_use s false]> (crypto_stm32_sessions st) in
  (other_live (crypto_stm32_sessions st) i ->
     crypto_stm32_session_free ctx st
     = Ok (0, after_pool_lock st l' (hcryp st)
                [EvSemTake SESSION_SEM; EvSemGive SESSION_SEM])) /\
  (~ other_live (crypto_stm32_sessions st) i ->
     crypto_stm32_session_free ctx st
     = let '(r, h, evs) := teardown (hcryp st) in
       Ok (r, after_pool_lock st l' h
                ([EvSemTake SESSION_SEM] ++ evs ++ [EvSemGive SESSION_SEM]))).
Proof.
  intros Hctx Hs Hlen Hsem l'.
  assert (Hi : (i < length (crypto_stm32_sessions st))%nat)
    by now apply lookup_lt_Some in Hs.
  assert (Hstart :
    crypto_stm32_session_free ctx st
    = session_free_loop CRYPTO_MAX_SESSION 0
        (bind hal_DeInit (fun status =>
           if negb (status_ok status)
           then bind (k_sem_give SESSION_SEM) (fun _ => ret (- EIO))
           else bind hal_rcc_reset (fun _ =>
                  bind (k_sem_give SESSION_SEM) (fun _ => ret 0))))
        {| crypto_stm32_sessions := l'; hcryp := hcryp st;
           device_sem := device_sem st;
           session_sem := {| count := count (session_sem st) - 1;
                             limit := limit (session_sem st) |};
           trace := trace st ++ [EvSemTake SESSION_SEM] |}).
  { unfold crypto_stm32_session_free. rewrite Hctx.
    unfold bind at 1. unfold store_session. rewrite Hs.
    unfold bind at 1. unfold k_sem_take. cbn [get_sem put_sessions session_sem].
    destruct (Z.ltb_spec 0 (count (session_sem st))); [|destruct Hsem; lia].
    reflexivity. }
  split.
  - intros (k & sk & Hk & Hlk & Hu).
    rewrite Hstart.
    rewrite session_free_loop_busy.
    + unfold bind, k_sem_give, log, ret, after_pool_lock. cbn.
      rewrite (sem_cycle _ Hsem). rewrite <- app_assoc. reflexivity.
    + cbn. unfold l'. rewrite length_insert. lia.
    + exists k, sk. split; [lia|]. split; [|exact Hu].
      cbn. unfold l'. rewrite list_lookup_insert_ne by congruence. exact Hlk.
  - intros Hnone.
    rewrite Hstart.
    rewrite session_free_loop_quiet.
    + unfold teardown, bind, hal_DeInit. cbv beta. cbn [hcryp].
      destruct (HAL_CRYP_DeInit (hcryp st)) as [status h'].
      unfold bind, log, ret, put_hcryp. cbn.
      destruct (status_ok status); cbn.
      * unfold hal_rcc_reset, k_sem_give, log, put_hcryp, after_pool_lock. cbn.
        rewrite (sem_cycle _ Hsem). rewrite <- !app_assoc. reflexivity.
      * unfold k_sem_give, log, after_pool_lock. cbn.
        rewrite (sem_cycle _ Hsem). rewrite <- !app_assoc. reflexivity.
    + cbn. unfold l'. rewrite length_insert. lia.
    + cbn. intros k sk Hlk. unfold l' in Hlk.
      destruct (Nat.eq_dec k i) as [->|Hne].
      * rewrite list_lookup_insert_eq in Hlk by exact Hi.
        now injection Hlk as <-.
      * rewrite list_lookup_insert_ne in Hlk by congruence.
        destruct (in_use sk) eqn:Hu; [|reflexivity].
        exfalso. apply Hnone. exists k, sk. auto.
Qed.

(** *** Setup, read backwards *)

Lemma params_valid_or_rejected ctx algo mode op_type st :
  params_valid ctx algo mode \/
  crypto_stm32_session_setup ctx algo mode op_type st = Ok (- EINVAL, ctx, st).
Proof.
  unfold params_valid, crypto_stm32_session_setup.
  destruct (Z.eqb_spec (Z.land (flags ctx) (Z.lnot CRYP_SUPPORT)) 0) as [Hf|Hf];
    cbn [negb]; [|now right].
  destruct algo; cbn [algo_is_aes negb]; [|now right].
  destruct (mode_supported mode) eqn:Hm; cbn [negb]; [|now right].
  destruct (keylen_supported (keylen ctx)) eqn:Hk; cbn [negb]; [|now right].
  left. auto.
Qed.

Lemma keylen_supported_cases n :
  keylen_supported n = true -> n = 16 \/ n = 24 \/ n = 32.
Proof.
  unfold keylen_supported.
  destruct (Z.eqb_spec n 16); [auto|].
  destruct (Z.eqb_spec n 24); [auto|].
  destruct (Z.eqb_spec n 32); [auto|discriminate].
Qed.

Lemma setup_inv ctx algo mode op_type st r ctx' st' :
  length (crypto_stm32_sessions st) = CRYPTO_MAX_SESSION ->
  sem_available (session_sem st) ->
  crypto_stm32_session_setup ctx algo mode op_type st = Ok (r, ctx', st') ->
  setup_outcome ctx st r ctx' st'.
Proof.
  intros Hlen Hsem Hrun.
  destruct (params_valid_or_rejected ctx algo mode op_type st) as [Hv|Hrej].
  2:{ rewrite Hrej in Hrun. injection Hrun as <- <- <-. constructor. }
  destruct (first_unused_cases (crypto_stm32_sessions st)) as [(j & s & Hfirst)|Hall].
  2:{ rewrite (setup_full_eq _ _ _ _ _ Hv Hlen Hsem Hall) in Hrun.
      injection Hrun as <- <- <-. now constructor. }
  rewrite (setup_found_eq _ _ _ _ _ j s Hv Hlen Hsem Hfirst) in Hrun.
  destruct (hw_bringup (hcryp st)) as [[ok h] evs] eqn:Hhw.
  destruct ok.
  - destruct (copy_reverse_words _ _ _ _) as [k|f] eqn:Hcrw; [|discriminate].
    injection Hrun as <- <- <-.
    eapply setup_bound; [exact Hfirst | reflexivity | | exact Hhw].
    intros Hkey. cbn [bound_session key].
    destruct Hv as (_ & _ & _ & Hk).
    apply keylen_supported_cases in Hk.
    apply copy_reverse_words_inv in Hcrw;
      [ | now symmetry | reflexivity
        | unfold CRYPTO_STM32_AES_MAX_KEY_LEN, INT_MAX; lia
        | unfold INT_MIN, INT_MAX; lia ].
    destruct Hcrw as (_ & Hsrc & ->).
    rewrite reverse_words_length, length_app, length_take, length_drop.
    unfold CRYPTO_STM32_AES_MAX_KEY_LEN in Hkey. lia.
  - injection Hrun as <- <- <-.
    unfold hw_bringup in Hhw.
    destruct (state_is_reset (State (hcryp st))) eqn:Hreset; [|discriminate].
    destruct (HAL_CRYP_Init (hcryp st)) as [status h'] eqn:Hinit.
    injection Hhw as Hok <- <-.
    eapply setup_init_failed; eauto.
Qed.

(** *** Counting live sessions *)

Lemma live_app l1 l2 : live (l1 ++ l2) = (live l1 + live l2)%nat.
Proof. induction l1 as [|x l1 IH]; simpl; [reflexivity|]. rewrite IH. lia. Qed.

Lemma live_le l : (live l <= length l)%nat.
Proof. induction l as [|x l IH]; simpl; [lia|]. destruct (in_use x); lia. Qed.

Lemma live_insert l j s sn :
  l !! j = Some s ->
  (live (<[j := sn]> l) + (if in_use s then 1 else 0)
   = live l + (if in_use sn then 1 else 0))%nat.
Proof.
  revert j. induction l as [|x l IH]; intros j Hj; [destruct j; discriminate|].
  destruct j as [|j].
  - injection Hj as ->. simpl. lia.
  - simpl in *. specialize (IH j Hj). lia.
Qed.

Lemma live_full l : live l = length l -> all_in_use l.
Proof.
  induction l as [|x l IH]; intros Hl k s Hk; [destruct k; discriminate|].
  simpl in Hl. pose proof (live_le l).
  destruct (in_use x) eqn:Hx; [|lia].
  destruct k as [|k].
  - now injection Hk as <-.
  - apply (IH ltac:(lia) k s Hk).
Qed.

Lemma live_none l :
  (forall k s, l !! k = Some s -> in_use s = false) -> live l = 0%nat.
Proof.
  induction l as [|x l IH]; intros Hall; [reflexivity|].
  simpl. rewrite (Hall 0%nat x eq_refl).
  rewrite IH; [reflexivity|]. intros k s Hk. apply (Hall (S k) s Hk).
Qed.

Lemma slots_insert st l j sn h evs :
  slots (after_pool_lock st (<[j := sn]> l) h evs) = <[j := in_use sn]> (in_use <$> l).
Proof. unfold slots, after_pool_lock. cbn. apply list_fmap_insert. Qed.

Lemma table_ok_insert st j sn h evs :
  table_ok st ->
  (forall s, crypto_stm32_sessions st !! j = Some s -> length (key sn) = length (key s)) ->
  table_ok (after_pool_lock st (<[j := sn]> (crypto_stm32_sessions st)) h evs).
Proof.
  intros [Hlen Hkeys] Hsn. unfold table_ok, after_pool_lock. cbn.
  split; [now rewrite length_insert|].
  intros k s Hk.
  destruct (Nat.eq_dec k j) as [->|Hne].
  - assert (Hj : (j < length (crypto_stm32_sessions st))%nat).
    { apply lookup_lt_Some in Hk. now rewrite length_insert in Hk. }
    rewrite list_lookup_insert_eq in Hk by exact Hj. injection Hk as <-.
    destruct (lookup_lt_is_Some_2 _ _ Hj) as [s0 Hs0].
    rewrite (Hsn s0 Hs0). apply (Hkeys j s0 Hs0).
  - rewrite list_lookup_insert_ne in Hk by congruence. apply (Hkeys k s Hk).
Qed.

(** A setup call that returns keeps the table well formed and the locks
    available, and changes the number of live sessions by its success. *)
Lemma setup_preserves ctx algo mode op_type st r ctx' st' :
  driver_idle st ->
  crypto_stm32_session_setup ctx algo mode op_type st = Ok (r, ctx', st') ->
  driver_idle st' /\
  live (crypto_stm32_sessions st')
  = (live (crypto_stm32_sessions st) + (if (r =? 0)%Z then 1 else 0))%nat.
Proof.
  intros (Htab & Hss & Hds) Hrun.
  apply setup_inv in Hrun; [|apply Htab|exact Hss].
  destruct Hrun as [|Hall|j s status h (Hj & Hs & Hlt) Hreset Hinit Hbad
                   |j s sn o h evs (Hj & Hs & Hlt) Hsn Hkey Hhw].
  - change (- EINVAL =? 0) with false. split; [exact (conj Htab (conj Hss Hds)) | lia].
  - change (- ENOSPC =? 0) with false.
    split; [|cbn; lia].
    split; [|split; assumption].
    destruct Htab as [Hlen Hkeys]. split; assumption.
  - change (- EIO =? 0) with false.
    split.
    + split; [|split; assumption].
      apply table_ok_insert; [exact Htab|].
      intros s0 Hs0. rewrite Hj in Hs0. now injection Hs0 as <-.
    + cbn [after_pool_lock crypto_stm32_sessions].
      pose proof (live_insert _ j s (set_config s config_zero) Hj) as Hl.
      cbn [set_config in_use] in Hl. lia.
  - change (0 =? 0) with true.
    split.
    + split; [|split; assumption].
      apply table_ok_insert; [exact Htab|].
      intros s0 Hs0. rewrite Hj in Hs0. injection Hs0 as <-.
      apply Hkey. destruct Htab as [_ Hkeys]. apply (Hkeys j s Hj).
    + cbn [after_pool_lock crypto_stm32_sessions].
      pose proof (live_insert _ j s sn Hj) as Hl.
      rewrite Hs, Hsn in Hl. lia.
Qed.

(** *** Free, summarised *)

Lemma session_free_total ctx st i s :
  CRYPTO_STM32_SESSN ctx = Some i ->
  crypto_stm32_sessions st !! i = Some s ->
  length (crypto_stm32_sessions st) = CRYPTO_MAX_SESSION ->
  sem_available (session_sem st) ->
  exists r h mid,
    crypto_stm32_session_free ctx st
    = Ok (r, after_pool_lock st
               (<[i := set_in_use s false]> (crypto_stm32_sessions st)) h
               ([EvSemTake SESSION_SEM] ++ mid ++ [EvSemGive SESSION_SEM])) /\
    (other_live (crypto_stm32_sessions st) i ->
       r = 0 /\ h = hcryp st /\ mid = []) /\
    (~ other_live (crypto_stm32_sessions st) i ->
       (r, h, mid) = teardown (hcryp st)).
Proof.
  intros Hctx Hs Hlen Hsem.
  destruct (session_free_eq ctx st i s Hctx Hs Hlen Hsem) as [Hbusy Hlast].
  destruct (other_live_dec (crypto_stm32_sessions st) i) as [Hl|Hn].
  - exists 0, (hcryp st), []. split; [exact (Hbusy Hl)|].
    split; [auto | intros Hn; contradiction].
  - specialize (Hlast Hn).
    destruct (teardown (hcryp st)) as [[r h] evs].
    exists r, h, evs. split; [exact Hlast|].
    split; [intros Hl; contradiction | reflexivity].
Qed.

Lemma teardown_shape h :
  exists status h' r h'' rest,
    HAL_CRYP_DeInit h = (status, h') /\
    teardown h = (r, h'', EvHalDeInit :: rest) /\
    r = (if status_ok status then 0 else - EIO) /\
    Forall (fun e => is_sem_take DEVICE_SEM e = false) (EvHalDeInit :: rest).
Proof.
  unfold teardown. destruct (HAL_CRYP_DeInit h) as [status h'].
  exists status, h'.
  destruct (status_ok status); do 3 eexists;
    (split; [reflexivity|split; [reflexivity|split; [reflexivity|]]]);
    repeat constructor.
Qed.

(** C8. A free call on a bound context always returns with the session's
    slot marked not in use and the rest of the table as it was.  The
    accelerator is deinitialised only when no other session is in use; a
    failing deinitialisation makes the call return [-EIO], the slot being
    free all the same, so that the next acquire finds a free slot at or
    before it. *)
Theorem free_releases_slot
    (ctx : cipher_ctx) (st : driver_state) (i : nat) (s : crypto_stm32_session) :
  CRYPTO_STM32_SESSN ctx = Some i ->
  crypto_stm32_sessions st !! i = Some s ->
  length (crypto_stm32_sessions st) = CRYPTO_MAX_SESSION ->
  sem_available (session_sem st) ->
  exists r st',
    crypto_stm32_session_free ctx st = Ok (r, st') /\
    crypto_stm32_sessions st'
    = <[i := set_in_use s false]> (crypto_stm32_sessions st) /\
    slots st' !! i = Some false /\
    (other_live (crypto_stm32_sessions st) i ->
       r = 0 /\ hcryp st' = hcryp st /\
       trace st' = trace st ++ [EvSemTake SESSION_SEM; EvSemGive SESSION_SEM]) /\
    (~ other_live (crypto_stm32_sessions st) i ->
       exists status h rest,
         HAL_CRYP_DeInit (hcryp st) = (status, h) /\
         trace st' = trace st ++ EvSemTake SESSION_SEM :: EvHalDeInit :: rest /\
         r = (if status_ok status then 0 else - EIO)) /\
    (exists j st'',
        crypto_stm32_get_unused_session_index st' = Ok (Z.of_nat j, st'') /\
        (j <= i)%nat /\ slots st'' !! j = Some true).
Proof.
  intros Hctx Hs Hlen Hsem.
  assert (Hi : (i < length (crypto_stm32_sessions st))%nat)
    by now apply lookup_lt_Some in Hs.
  destruct (session_free_total ctx st i s Hctx Hs Hlen Hsem)
    as (r & h & mid & Hrun & Hbusy & Hlast).
  eexists r, _. split; [exact Hrun|].
  split; [reflexivity|]. split; [|split; [|split]].
  - rewrite slots_insert. rewrite list_lookup_insert_eq; [reflexivity|].
    now rewrite length_fmap.
  - intros Hl. destruct (Hbusy Hl) as (-> & -> & ->). auto.
  - intros Hn. specialize (Hlast Hn).
    destruct (teardown_shape (hcryp st))
      as (status & h' & r' & h'' & rest & Hde & Htd & Hr & _).
    rewrite Htd in Hlast. injection Hlast as -> -> ->.
    exists status, h', (rest ++ [EvSemGive SESSION_SEM]).
    split; [exact Hde|]. split; [reflexivity|exact Hr].
  - set (st' := after_pool_lock st _ h _).
    assert (Hlen' : length (crypto_stm32_sessions st') = CRYPTO_MAX_SESSION).
    { unfold st'. cbn. now rewrite length_insert. }
    destruct (first_unused_cases (crypto_stm32_sessions st'))
      as [(j & sj & Hfirst)|Hall].
    + exists j. eexists. split.
      * apply (get_unused_session_index_found st' j sj Hlen'); [exact Hsem|exact Hfirst].
      * split.
        -- destruct Hfirst as (_ & _ & Hlt).
           destruct (Nat.le_gt_cases j i) as [Hle|Hgt]; [exact Hle|].
           specialize (Hlt i (set_in_use s false) Hgt).
           unfold st' in Hlt. cbn in Hlt.
           rewrite list_lookup_insert_eq in Hlt by exact Hi.
           specialize (Hlt eq_refl). discriminate.
        -- rewrite slots_insert. rewrite list_lookup_insert_eq; [reflexivity|].
           rewrite length_fmap. destruct Hfirst as (Hj & _).
           now apply lookup_lt_Some in Hj.
    + exfalso. specialize (Hall i (set_in_use s false)).
      unfold st' in Hall. cbn in Hall.
      rewrite list_lookup_insert_eq in Hall by exact Hi.
      specialize (Hall eq_refl). discriminate.
Qed.

(** C5, amended. Freeing a session deinitialises the accelerator exactly
    when no other session is in use.  The whole call, deinitialisation
    included, runs between a take and a give of the pool lock
    [session_sem]; it never takes the device lock [device_sem], whose
    state (held or not) it neither looks at nor changes. *)
Theorem free_deinit_locking
    (ctx : cipher_ctx) (st : driver_state) (i : nat) (s : crypto_stm32_session) :
  CRYPTO_STM32_SESSN ctx = Some i ->
  crypto_stm32_sessions st !! i = Some s ->
  length (crypto_stm32_sessions st) = CRYPTO_MAX_SESSION ->
  sem_available (session_sem st) ->
  exists r st' mid,
    crypto_stm32_session_free ctx st = Ok (r, st') /\
    trace st' = trace st ++ [EvSemTake SESSION_SEM] ++ mid ++ [EvSemGive SESSION_SEM] /\
    device_sem st' = device_sem st /\
    Forall (fun e => is_sem_take DEVICE_SEM e = false)
           ([EvSemTake SESSION_SEM] ++ mid ++ [EvSemGive SESSION_SEM]) /\
    (other_live (crypto_stm32_sessions st) i -> mid = []) /\
    (~ other_live (crypto_stm32_sessions st) i ->
       exists rest, mid = EvHalDeInit :: rest).
Proof.
  intros Hctx Hs Hlen Hsem.
  destruct (session_free_total ctx st i s Hctx Hs Hlen Hsem)
    as (r & h & mid & Hrun & Hbusy & Hlast).
  eexists r, _, mid. split; [exact Hrun|].
  split; [reflexivity|]. split; [reflexivity|].
  assert (Hmid : Forall (fun e => is_sem_take DEVICE_SEM e = false) mid /\
                 (~ other_live (crypto_stm32_sessions st) i ->
                  exists rest, mid = EvHalDeInit :: rest)).
  { destruct (other_live_dec (crypto_stm32_sessions st) i) as [Hl|Hn].
    - destruct (Hbusy Hl) as (_ & _ & ->).
      split; [constructor | intros Hn; contradiction].
    - specialize (Hlast Hn).
      destruct (teardown_shape (hcryp st))
        as (status & h' & r' & h'' & rest & _ & Htd & _ & Hall).
      rewrite Htd in Hlast. injection Hlast as _ _ ->.
      split; [exact Hall | intros _; now exists rest]. }
  destruct Hmid as [Hall Hde].
  split; [|split; [|exact Hde]].
  - constructor; [reflexivity|].
    apply Forall_app. split; [exact Hall|]. repeat constructor.
  - intros Hl. now destruct (Hbusy Hl) as (_ & _ & ->).
Qed.

(** C9. In terms of the FREE / BOUND flags of the table: a setup call
    that succeeds turns exactly one FREE slot into BOUND and binds the
    context to it; a setup call that fails leaves every flag as it was;
    in particular, when the first-use initialisation of the accelerator
    fails, setup returns [-EIO] with the slot it had claimed FREE again;
    and a free call turns the context's slot into FREE. *)
Theorem session_state_machine (st : driver_state) :
  length (crypto_stm32_sessions st) = CRYPTO_MAX_SESSION ->
  sem_available (session_sem st) ->
  (forall ctx algo mode op_type r ctx' st',
      crypto_stm32_session_setup ctx algo mode op_type st = Ok (r, ctx', st') ->
      (r = 0 ->
         exists j, drv_sessn_state ctx' = Some j /\
                   slots st !! j = Some false /\
                   slots st' = <[j := true]> (slots st)) /\
      (r <> 0 -> slots st' = slots st /\ ctx' = ctx)) /\
  (forall ctx algo mode op_type j s,
      params_valid ctx algo mode ->
      first_unused_at (crypto_stm32_sessions st) j s ->
      state_is_reset (State (hcryp st)) = true ->
      status_ok (fst (HAL_CRYP_Init (hcryp st))) = false ->
      exists st',
        crypto_stm32_session_setup ctx algo mode op_type st = Ok (- EIO, ctx, st') /\
        slots st' = slots st /\
        trace st' = trace st ++ [EvSemTake SESSION_SEM; EvSemGive SESSION_SEM;
                                 EvHalInit]) /\
  (forall ctx i s,
      CRYPTO_STM32_SESSN ctx = Some i ->
      crypto_stm32_sessions st !! i = Some s ->
      exists r st',
        crypto_stm32_session_free ctx st = Ok (r, st') /\
        slots st' = <[i := false]> (slots st)).
Proof.
  intros Hlen Hsem.
  assert (Hsame : forall j s h evs,
             crypto_stm32_sessions st !! j = Some s -> in_use s = false ->
             slots (after_pool_lock st
                      (<[j := set_config s config_zero]> (crypto_stm32_sessions st))
                      h evs) = slots st).
  { intros j s h evs Hj Hs. rewrite slots_insert. cbn [set_config in_use].
    rewrite Hs. apply list_insert_id. unfold slots.
    rewrite list_lookup_fmap, Hj. cbn. now rewrite Hs. }
  split; [|split].
  - intros ctx algo mode op_type r ctx' st' Hrun.
    apply setup_inv in Hrun; [|exact Hlen|exact Hsem].
    destruct Hrun as [|Hall|j s status h (Hj & Hs & Hlt) Hreset Hinit Hbad
                     |j s sn o h evs (Hj & Hs & Hlt) Hsn Hkey Hhw].
    + split; [discriminate | auto].
    + split; [discriminate | auto].
    + split; [discriminate|]. intros _. split; [|reflexivity].
      now apply Hsame.
    + split; [|intros Hne; now contradiction Hne].
      intros _. exists j. split; [reflexivity|]. split.
      * unfold slots. rewrite list_lookup_fmap, Hj. cbn. now rewrite Hs.
      * rewrite slots_insert. now rewrite Hsn.
  - intros ctx algo mode op_type j s Hv Hfirst Hreset Hbad.
    rewrite (setup_found_eq _ _ _ _ _ j s Hv Hlen Hsem Hfirst).
    unfold hw_bringup. rewrite Hreset.
    destruct (HAL_CRYP_Init (hcryp st)) as [status h]. cbn [fst] in Hbad.
    rewrite Hbad. eexists. split; [reflexivity|].
    destruct Hfirst as (Hj & Hs & _).
    split; [now apply Hsame | reflexivity].
  - intros ctx i s Hctx Hs.
    destruct (session_free_total ctx st i s Hctx Hs Hlen Hsem)
      as (r & h & mid & Hrun & _).
    eexists r, _. split; [exact Hrun|].
    now rewrite slots_insert.
Qed.

(** *** Filling the pool *)

Lemma begin_sessions_all_ok (reqs : list request) :
  forall st results st1,
    driver_idle st ->
    begin_sessions reqs st = Ok (results, st1) ->
    Forall (fun r => fst r = 0) results ->
    driver_idle st1 /\
    live (crypto_stm32_sessions st1)
    = (live (crypto_stm32_sessions st) + length reqs)%nat.
Proof.
  induction reqs as [|rq reqs IH]; intros st results st1 Hidle Hrun Hok.
  - injection Hrun as <- <-. split; [exact Hidle | simpl; lia].
  - cbn [begin_sessions] in Hrun. unfold bind at 1 in Hrun.
    destruct (crypto_stm32_session_setup _ _ _ _ st) as [[[r c] st2]|] eqn:Hsetup;
      [|discriminate].
    unfold bind at 1 in Hrun.
    destruct (begin_sessions reqs st2) as [[rs st3]|] eqn:Hrest; [|discriminate].
    injection Hrun as <- <-.
    inversion Hok as [|x xs Hr Hrs]; subst. cbn [fst] in Hr. subst r.
    destruct (setup_preserves _ _ _ _ _ _ _ _ Hidle Hsetup) as [Hidle2 Hlive2].
    destruct (IH st2 rs st3 Hidle2 Hrest Hrs) as [Hidle3 Hlive3].
    split; [exact Hidle3|]. rewrite Hlive3, Hlive2. simpl. lia.
Qed.

(** C7. Start from a table with every slot free and no call in progress,
    and let [CRYPTO_MAX_SESSION] setup calls succeed in a row.  Then any
    further setup call fails without claiming a slot, with [-ENOSPC] when
    its parameters are valid.  After a free of any one bound session, a
    setup call with valid parameters (key material of the announced length)
    no longer fails for lack of a slot: it claims that very slot and
    returns 0, unless the accelerator has to be initialised again and that
    initialisation fails, the one case in which it returns [-EIO].  Acquire itself always claims the lowest-numbered slot that
    is not in use, and answers -1, changing nothing, when there is none. *)
Theorem pool_exhaustion_and_reuse
    (st0 : driver_state) (reqs : list request)
    (results : list (Z * cipher_ctx)) (st1 : driver_state) :
  driver_idle st0 ->
  (forall k s, crypto_stm32_sessions st0 !! k = Some s -> in_use s = false) ->
  length reqs = CRYPTO_MAX_SESSION ->
  begin_sessions reqs st0 = Ok (results, st1) ->
  Forall (fun r => fst r = 0) results ->
  (forall ctx algo mode op_type,
      exists r st2,
        crypto_stm32_session_setup ctx algo mode op_type st1 = Ok (r, ctx, st2) /\
        (r = - EINVAL \/ r = - ENOSPC) /\
        (params_valid ctx algo mode -> r = - ENOSPC) /\
        crypto_stm32_sessions st2 = crypto_stm32_sessions st1) /\
  (forall fctx i,
      CRYPTO_STM32_SESSN fctx = Some i ->
      (i < CRYPTO_MAX_SESSION)%nat ->
      exists rf st2,
        crypto_stm32_session_free fctx st1 = Ok (rf, st2) /\
        forall ctx algo mode op_type,
          params_valid ctx algo mode ->
          keylen ctx <= Z.of_nat (length (key_bit_stream ctx)) ->
          exists r ctx' st3,
            crypto_stm32_session_setup ctx algo mode op_type st2 = Ok (r, ctx', st3) /\
            (r = 0 \/ r = - EIO) /\
            ((state_is_reset (State (hcryp st2)) = true ->
              status_ok (fst (HAL_CRYP_Init (hcryp st2))) = true) ->
             r = 0 /\ drv_sessn_state ctx' = Some i)) /\
  (forall st,
      length (crypto_stm32_sessions st) = CRYPTO_MAX_SESSION ->
      sem_available (session_sem st) ->
      (forall j s,
          first_unused_at (crypto_stm32_sessions st) j s ->
          crypto_stm32_get_unused_session_index st
          = Ok (Z.of_nat j,
                after_pool_lock st
                  (<[j := set_in_use s true]> (crypto_stm32_sessions st))
                  (hcryp st) [EvSemTake SESSION_SEM; EvSemGive SESSION_SEM])) /\
      (all_in_use (crypto_stm32_sessions st) ->
       crypto_stm32_get_unused_session_index st
       = Ok (-1, after_pool_lock st (crypto_stm32_sessions st)
                   (hcryp st) [EvSemTake SESSION_SEM; EvSemGive SESSION_SEM]))).
Proof.
  intros Hidle0 Hfree0 Hn Hrun Hok.
  destruct (begin_sessions_all_ok reqs st0 results st1 Hidle0 Hrun Hok)
    as [(Htab & Hss & Hds) Hlive].
  destruct Htab as [Hlen Hkeys].
  assert (Hfull : all_in_use (crypto_stm32_sessions st1)).
  { apply live_full. rewrite Hlive, (live_none _ Hfree0), Hn, Hlen. reflexivity. }
  split; [|split].
  - intros ctx algo mode op_type.
    destruct (params_valid_or_rejected ctx algo mode op_type st1) as [Hv|Hrej].
    + rewrite (setup_full_eq _ _ _ _ _ Hv Hlen Hss Hfull).
      do 2 eexists. split; [reflexivity|]. auto.
    + rewrite Hrej. do 2 eexists. split; [reflexivity|].
      split; [auto|]. split; [|reflexivity].
      intros Hv.
      rewrite (setup_full_eq _ _ _ _ _ Hv Hlen Hss Hfull) in Hrej.
      now injection Hrej.
  - intros fctx i Hctx Hi.
    destruct (lookup_lt_is_Some_2 (crypto_stm32_sessions st1) i) as [s Hs];
      [lia|].
    destruct (session_free_total fctx st1 i s Hctx Hs Hlen Hss)
      as (rf & h & mid & Hfree & _).
    eexists rf, _. split; [exact Hfree|].
    intros ctx algo mode op_type Hv Hkey.
    set (st2 := after_pool_lock st1 _ h _) in *.
    assert (Hlen2 : length (crypto_stm32_sessions st2) = CRYPTO_MAX_SESSION).
    { unfold st2. cbn. now rewrite length_insert. }
    assert (Hfirst : first_unused_at (crypto_stm32_sessions st2) i (set_in_use s false)).
    { unfold st2. cbn. split; [|split].
      - apply list_lookup_insert_eq. lia.
      - reflexivity.
      - intros k s' Hk Hl.
        rewrite list_lookup_insert_ne in Hl by lia. apply (Hfull k s' Hl). }
    rewrite (setup_found_eq _ _ _ _ _ i _ Hv Hlen2 Hss Hfirst).
    assert (Hcopy : copy_reverse_words (key (set_in_use s false))
                      CRYPTO_STM32_AES_MAX_KEY_LEN (key_bit_stream ctx) (keylen ctx)
                    = Ok (reverse_words
                            (take (Z.to_nat (keylen ctx)) (key_bit_stream ctx)
                             ++ drop (Z.to_nat (keylen ctx)) (key s)))).
    { destruct Hv as (_ & _ & _ & Hk).
      apply keylen_supported_cases in Hk.
      apply copy_reverse_words_ok.
      - cbn [set_in_use key]. symmetry. apply (Hkeys i s Hs).
      - reflexivity.
      - unfold CRYPTO_STM32_AES_MAX_KEY_LEN, INT_MAX. lia.
      - unfold CRYPTO_STM32_AES_MAX_KEY_LEN. lia.
      - exact Hkey. }
    rewrite Hcopy.
    unfold hw_bringup.
    destruct (state_is_reset (State (hcryp st2))).
    + destruct (HAL_CRYP_Init (hcryp st2)) as [status h']. cbn [fst].
      destruct (status_ok status).
      * do 3 eexists. split; [reflexivity|]. split; [now left|].
        intros _. split; reflexivity.
      * do 3 eexists. split; [reflexivity|]. split; [now right|].
        intros Hhw. specialize (Hhw eq_refl). discriminate.
    + do 3 eexists. split; [reflexivity|]. split; [now left|].
      intros _. split; reflexivity.
  - intros st Hl Hs. split.
    + intros j s Hfirst. now apply get_unused_session_index_found.
    + intros Hall. now apply get_unused_session_index_full.
Qed.

End DriverFacts.

(** ** The theorems at work on the stand-in accelerator *)

Lemma sim_table_lookup (fl : list bool) (k : nat) (s : crypto_stm32_session) :
  Sim.table fl !! k = Some s ->
  exists b, fl !! k = Some b /\
            s = {| config := config_zero; key := zeros 32; in_use := b |}.
Proof.
  revert k. induction fl as [|b fl IH]; intros k Hk; [destruct k; discriminate|].
  destruct k as [|k].
  - injection Hk as <-. now exists b.
  - apply (IH k Hk).
Qed.

Lemma cbc_iv_prefix_and_lengths_witness :
  let ctx := Sim.a_ctx 16 0 (Some 0%nat) in
  let pkt := Sim.a_pkt 16 48 in
  let iv := Sim.bytes_from 100 16 in
  let st := Sim.state [true; false] Sim.ready 1 in
  exists pkt' st',
    crypto_stm32_cbc_encrypt (K := Sim.K) (HAL := Sim.hal) ctx pkt iv st
    = Ok (0, pkt', st') /\
    take 16 (out_buf pkt') = take 16 iv /\
    out_len pkt' = in_len pkt + 16.
Proof.
  intros ctx pkt iv st.
  assert (Hrun : exists pkt' st',
             crypto_stm32_cbc_encrypt (K := Sim.K) (HAL := Sim.hal) ctx pkt iv st
             = Ok (0, pkt', st'))
    by (vm_compute; do 2 eexists; reflexivity).
  destruct Hrun as (pkt' & st' & Hrun).
  exists pkt', st'. split; [exact Hrun|].
  destruct (proj1 (cbc_iv_prefix_and_lengths ctx pkt iv st pkt' st') Hrun)
    as (H1 & _ & _ & H4).
  split; assumption.
Defined.

Lemma ecb_single_block_witness :
  let ctx := Sim.a_ctx 16 0 (Some 0%nat) in
  let pkt := Sim.a_pkt 17 48 in
  let st := Sim.state [true; false] Sim.ready 1 in
  crypto_stm32_ecb_encrypt (HAL := Sim.hal) ctx pkt st
  = Ok (- EINVAL, pkt, st) /\
  crypto_stm32_ecb_decrypt (HAL := Sim.hal) ctx pkt st
  = Ok (- EINVAL, pkt, st).
Proof.
  intros ctx pkt st.
  apply (proj1 (ecb_single_block (HAL := Sim.hal) ctx pkt st)).
  vm_compute. reflexivity.
Defined.

Lemma ctr_counter_block_and_length_witness :
  let ctx := Sim.a_ctx 16 32 (Some 0%nat) in
  let pkt := Sim.a_pkt 5 48 in
  let iv := Sim.bytes_from 100 16 in
  let st := Sim.state [true; false] Sim.ready 1 in
  exists pkt' st',
    crypto_stm32_ctr_encrypt (K := Sim.K) (HAL := Sim.hal) ctx pkt iv st
    = Ok (0, pkt', st') /\
    ctr_call_outcome (K := Sim.K) ctx pkt iv st 0 pkt' st'.
Proof.
  intros ctx pkt iv st.
  assert (Hrun : exists pkt' st',
             crypto_stm32_ctr_encrypt (K := Sim.K) (HAL := Sim.hal) ctx pkt iv st
             = Ok (0, pkt', st'))
    by (vm_compute; do 2 eexists; reflexivity).
  destruct Hrun as (pkt' & st' & Hrun).
  exists pkt', st'. split; [exact Hrun|].
  assert (Hk : 0 <= keylen ctx < 2 ^ 16) by (vm_compute; split; congruence).
  assert (Hc : 0 <= ctr_len ctx < 2 ^ 32) by (vm_compute; split; congruence).
  destruct (ctr_counter_block_and_length (K := Sim.K) (HAL := Sim.hal)
              ctx pkt iv st Hk Hc) as (_ & _ & Hout).
  apply Hout. left. exact Hrun.
Defined.

Lemma ctr_ivlen_precondition_witness :
  let ctx := Sim.a_ctx 32 32 (Some 0%nat) in
  ctr_ivlen ctx = 28 /\
  forall pkt iv st,
    crypto_stm32_ctr_encrypt (K := Sim.K) (HAL := Sim.hal) ctx pkt iv st
    = Fault AssertFail.
Proof.
  intros ctx.
  assert (Hk : 0 <= keylen ctx < 2 ^ 16) by (vm_compute; split; congruence).
  assert (Hc : 0 <= ctr_len ctx < 2 ^ 32) by (vm_compute; split; congruence).
  destruct (ctr_ivlen_precondition (K := Sim.K) (HAL := Sim.hal) ctx Hk Hc)
    as (Hiv & _ & Hbig & _).
  split; [exact Hiv|].
  intros pkt iv st.
  assert (Hgt : 16 < keylen ctx - ctr_len ctx / 8) by (vm_compute; reflexivity).
  exact (proj1 (proj2 (proj2 (proj2 (Hbig Hgt pkt iv st))))).
Defined.

Lemma setup_rejects_invalid_witness :
  let ctx := Sim.a_ctx 17 0 None in
  let st := Sim.boot Sim.K (Sim.fresh_handle false false) in
  crypto_stm32_session_setup (K := Sim.K) (C := Sim.caps) (HAL := Sim.hal)
    ctx CRYPTO_CIPHER_ALGO_AES CRYPTO_CIPHER_MODE_CBC CRYPTO_CIPHER_OP_ENCRYPT st
  = Ok (- EINVAL, ctx, st).
Proof.
  intros ctx st.
  apply setup_rejects_invalid.
  right. right. right. vm_compute. repeat split; discriminate.
Defined.

Lemma free_releases_slot_witness :
  let ctx := Sim.a_ctx 16 0 (Some 0%nat) in
  let st := Sim.state [true; false] Sim.ready 1 in
  exists r st',
    crypto_stm32_session_free (K := Sim.K) (HAL := Sim.hal) ctx st = Ok (r, st') /\
    slots st' !! 0%nat = Some false.
Proof.
  intros ctx st.
  destruct (free_releases_slot (K := Sim.K) (HAL := Sim.hal) ctx st 0%nat
              {| config := config_zero; key := zeros 32; in_use := true |})
    as (r & st' & Hrun & _ & Hslot & _).
  - reflexivity.
  - reflexivity.
  - reflexivity.
  - vm_compute. split; congruence.
  - exists r, st'. split; assumption.
Defined.

Lemma free_deinit_locking_witness :
  let ctx := Sim.a_ctx 16 0 (Some 0%nat) in
  let st := Sim.state [true; false] Sim.ready 0 in
  exists r st' mid,
    crypto_stm32_session_free (K := Sim.K) (HAL := Sim.hal) ctx st = Ok (r, st') /\
    trace st' = trace st ++ [EvSemTake SESSION_SEM] ++ mid ++ [EvSemGive SESSION_SEM] /\
    device_sem st' = device_sem st.
Proof.
  intros ctx st.
  destruct (free_deinit_locking (K := Sim.K) (HAL := Sim.hal) ctx st 0%nat
              {| config := config_zero; key := zeros 32; in_use := true |})
    as (r & st' & mid & Hrun & Htr & Hdev & _).
  - reflexivity.
  - reflexivity.
  - reflexivity.
  - vm_compute. split; congruence.
  - exists r, st', mid. auto.
Defined.

(** C5 as stated fails: with one session bound and the device lock held by
    somebody (count 0), freeing that session deinitialises and resets the
    accelerator straight away, and the device lock is never taken. *)
Lemma free_last_session_ignores_device_lock :
  let ctx := Sim.a_ctx 16 0 (Some 0%nat) in
  let st := Sim.state [true; false] Sim.ready 0 in
  count (device_sem st) = 0 /\
  exists st',
    crypto_stm32_session_free (K := Sim.K) (HAL := Sim.hal) ctx st = Ok (0, st') /\
    trace st' = [EvSemTake SESSION_SEM; EvHalDeInit; EvRccReset; EvSemGive SESSION_SEM] /\
    In EvHalDeInit (trace st') /\
    ~ In (EvSemTake DEVICE_SEM) (trace st').
Proof.
  intros ctx st. split; [reflexivity|].
  eexists. split; [vm_compute; reflexivity|].
  cbn [trace]. split; [reflexivity|]. split.
  - right. left. reflexivity.
  - intros [H|[H|[H|[H|[]]]]]; discriminate.
Qed.

Lemma session_state_machine_witness :
  let ctx := Sim.a_ctx 16 0 (Some 0%nat) in
  let st := Sim.state [true; false] Sim.ready 1 in
  exists r st',
    crypto_stm32_session_free (K := Sim.K) (HAL := Sim.hal) ctx st = Ok (r, st') /\
    slots st' = <[0%nat := false]> (slots st).
Proof.
  intros ctx st.
  assert (Hlen : length (crypto_stm32_sessions st) = CRYPTO_MAX_SESSION (K := Sim.K))
    by reflexivity.
  assert (Hsem : sem_available (session_sem st)) by (vm_compute; split; congruence).
  destruct (session_state_machine (K := Sim.K) (C := Sim.caps) (HAL := Sim.hal)
              st Hlen Hsem) as (_ & _ & Hfree).
  apply (Hfree ctx 0%nat {| config := config_zero; key := zeros 32; in_use := true |});
    reflexivity.
Defined.

Lemma pool_exhaustion_and_reuse_witness :
  let rq := {| rq_ctx := Sim.a_ctx 16 0 None;
               rq_algo := CRYPTO_CIPHER_ALGO_AES;
               rq_mode := CRYPTO_CIPHER_MODE_CTR;
               rq_op := CRYPTO_CIPHER_OP_ENCRYPT |} in
  let st0 := Sim.state [false; false] (Sim.fresh_handle false false) 1 in
  exists results st1,
    begin_sessions (K := Sim.K) (C := Sim.caps) (HAL := Sim.hal) [rq; rq] st0
    = Ok (results, st1) /\
    exists st2,
      crypto_stm32_session_setup (K := Sim.K) (C := Sim.caps) (HAL := Sim.hal)
        (rq_ctx rq) (rq_algo rq) (rq_mode rq) (rq_op rq) st1
      = Ok (- ENOSPC, rq_ctx rq, st2).
Proof.
  intros rq st0.
  assert (Hrun : exists results st1,
             begin_sessions (K := Sim.K) (C := Sim.caps) (HAL := Sim.hal) [rq; rq] st0
             = Ok (results, st1) /\
             Forall (fun r => fst r = 0) results)
    by (vm_compute; do 2 eexists; split; [reflexivity | repeat constructor]).
  destruct Hrun as (results & st1 & Hrun & Hok).
  exists results, st1. split; [exact Hrun|].
  assert (Hidle : driver_idle (K := Sim.K) st0).
  { split; [split|].
    - reflexivity.
    - intros k s Hk. apply sim_table_lookup in Hk.
      destruct Hk as (b & _ & ->). reflexivity.
    - split; vm_compute; split; congruence. }
  assert (Hfree : forall k s, crypto_stm32_sessions st0 !! k = Some s -> in_use s = false).
  { intros k s Hk. apply sim_table_lookup in Hk.
    destruct Hk as (b & Hb & ->).
    destruct k as [|[|k]]; simpl in Hb;
      [injection Hb as <-; reflexivity | injection Hb as <-; reflexivity
      | discriminate Hb]. }
  destruct (pool_exhaustion_and_reuse (K := Sim.K) (C := Sim.caps) (HAL := Sim.hal)
              st0 [rq; rq] results st1 Hidle Hfree eq_refl Hrun Hok)
    as (Hnext & _ & _).
  destruct (Hnext (rq_ctx rq) (rq_algo rq) (rq_mode rq) (rq_op rq))
    as (r & st2 & Hsetup & _ & Hvalid & _).
  exists st2. rewrite Hsetup.
  rewrite Hvalid; [reflexivity|].
  repeat split; reflexivity.
Defined.

(** * Further properties of the driver *)

Lemma sem_restored (s : k_sem) :
  sem_available s ->
  count s - 1 < limit s /\
  {| count := count s - 1 + 1; limit := limit s |} = s.
Proof.
  intros [H0 H1]. destruct s as [c l]. cbn in *.
  split; [lia | f_equal; lia].
Qed.

Lemma set_config_same (s : crypto_stm32_session) : set_config s (config s) = s.
Proof. now destruct s. Qed.

Lemma put_sessions_same `{HAL : CrypHal} (st : driver_state) :
  put_sessions (crypto_stm32_sessions st) st = st.
Proof. now destruct st. Qed.

Lemma reverse_words_app (a b : list byte) :
  (length a mod 4 = 0)%nat ->
  reverse_words (a ++ b) = reverse_words a ++ reverse_words b.
Proof.
  induction a as [a IH] using (induction_ltof1 _ (@length byte)).
  unfold ltof in IH. intros Hmod.
  destruct a as [|x [|y [|z [|w t]]]]; try (simpl in Hmod; discriminate).
  - reflexivity.
  - cbn [app reverse_words]. rewrite IH; [reflexivity | simpl; lia |].
    cbn [length] in Hmod.
    replace (S (S (S (S (length t))))) with (length t + 1 * 4)%nat in Hmod by lia.
    now rewrite Nat.Div0.mod_add in Hmod.
Qed.

Lemma reverse_words_zeros (n : nat) : reverse_words (zeros n) = zeros n.
Proof.
  induction n as [n IH] using lt_wf_ind.
  destruct n as [|[|[|[|n]]]]; try reflexivity.
  unfold zeros in *. cbn [repeat reverse_words]. rewrite IH by lia. reflexivity.
Qed.

Section MoreDriverFacts.

Context {K : Kconfig} {C : CipherCaps} {HAL : CrypHal}.

(** *** The device-locked section *)

Lemma do_encrypt_cases ctx inb len out off st r out' st' :
  sem_available (device_sem st) ->
  do_encrypt ctx inb len out off st = Ok (r, out', st') ->
  exists sn,
    CRYPTO_STM32_SESSN ctx ≫= (fun i => crypto_stm32_sessions st !! i) = Some sn /\
    device_section true inb len out off sn st r out' st'.
Proof.
  intros Hsem Hrun.
  destruct (sem_restored _ Hsem) as [Hlt Hback].
  unfold do_encrypt, do_decrypt in Hrun. unfold_driver Hrun. cbn in Hrun.
  break_run Hrun.
  all: try match goal with
           | E : (_ - 1 <? _) = false |- _ =>
               apply Z.ltb_ge in E; lia
           end.
  all: injection Hrun as <- <- <-.
  all: eexists; (split; [reflexivity|]).
  all: unfold device_section; do 2 eexists; (split; [eassumption|]).
  all: cbn [crypto_stm32_sessions session_sem device_sem hcryp trace].
  all: rewrite Hback, <- ?app_assoc; cbn [app].
  all: repeat (split; [reflexivity|]).
  all: match goal with
       | E : negb (status_ok _) = true |- _ =>
           apply negb_true_iff in E; left; repeat split; assumption || reflexivity
       | _ => idtac
       end.
  all: right.
  all: match goal with
       | E : negb (status_ok ?s) = false |- status_ok ?s = true /\ _ =>
           apply negb_false_iff in E; split; [exact E|]
       end.
  all: do 3 eexists; (split; [eassumption|]); (split; [eassumption|]).
  all: split; [reflexivity|]; split; [|reflexivity].
  all: match goal with
       | E : negb (status_ok ?s) = _ |- _ = (if status_ok ?s then _ else _) =>
           destruct (status_ok s); (reflexivity || discriminate E)
       end.
Qed.

Lemma do_decrypt_cases ctx inb len out off st r out' st' :
  sem_available (device_sem st) ->
  do_decrypt ctx inb len out off st = Ok (r, out', st') ->
  exists sn,
    CRYPTO_STM32_SESSN ctx ≫= (fun i => crypto_stm32_sessions st !! i) = Some sn /\
    device_section false inb len out off sn st r out' st'.
Proof.
  intros Hsem Hrun.
  destruct (sem_restored _ Hsem) as [Hlt Hback].
  unfold do_encrypt, do_decrypt in Hrun. unfold_driver Hrun. cbn in Hrun.
  break_run Hrun.
  all: try match goal with
           | E : (_ - 1 <? _) = false |- _ =>
               apply Z.ltb_ge in E; lia
           end.
  all: injection Hrun as <- <- <-.
  all: eexists; (split; [reflexivity|]).
  all: unfold device_section; do 2 eexists; (split; [eassumption|]).
  all: cbn [crypto_stm32_sessions session_sem device_sem hcryp trace].
  all: rewrite Hback, <- ?app_assoc; cbn [app].
  all: repeat (split; [reflexivity|]).
  all: match goal with
       | E : negb (status_ok _) = true |- _ =>
           apply negb_true_iff in E; left; repeat split; assumption || reflexivity
       | _ => idtac
       end.
  all: right.
  all: match goal with
       | E : negb (status_ok ?s) = false |- status_ok ?s = true /\ _ =>
           apply negb_false_iff in E; split; [exact E|]
       end.
  all: do 3 eexists; (split; [eassumption|]); (split; [eassumption|]).
  all: split; [reflexivity|]; split; [|reflexivity].
  all: match goal with
       | E : negb (status_ok ?s) = _ |- _ = (if status_ok ?s then _ else _) =>
           destruct (status_ok s); (reflexivity || discriminate E)
       end.
Qed.



(** *** The six handlers *)

Lemma bound_lookup ctx (l : list crypto_stm32_session) sn :
  CRYPTO_STM32_SESSN ctx ≫= (fun i => l !! i) = Some sn ->
  exists i, CRYPTO_STM32_SESSN ctx = Some i /\ l !! i = Some sn.
Proof.
  destruct (CRYPTO_STM32_SESSN ctx) as [i|]; [|discriminate].
  cbn. intros Hl. now exists i.
Qed.

Lemma run_handler_inv h ctx pkt iv st r pkt' st' :
  sem_available (device_sem st) ->
  run_handler h ctx pkt iv st = Ok (r, pkt', st') ->
  (handler_iv_len h ctx = None /\ 16 < in_len pkt /\ r = - EINVAL /\
   pkt' = pkt /\ st' = st) \/
  (exists i s cfg out0 out1,
      (handler_iv_len h ctx = None -> in_len pkt <= 16) /\
      CRYPTO_STM32_SESSN ctx = Some i /\
      crypto_stm32_sessions st !! i = Some s /\
      programmed_config h ctx iv (config s) cfg /\
      (match h with
       | h_cbc_encrypt => memcpy (out_buf pkt) iv 16 = Ok out0
       | _ => out0 = out_buf pkt
       end) /\
      device_section (handler_encrypts h)
        (drop (handler_in_off h) (in_buf pkt)) (in_len pkt)
        out0 (handler_out_off h) (set_config s cfg)
        (put_sessions (<[i := set_config s cfg]> (crypto_stm32_sessions st)) st)
        r out1 st' /\
      pkt' = (if r =? 0
              then set_out_len (set_out pkt out1) (handler_out_len h (in_len pkt))
              else set_out pkt out1)).
Proof.
  intros Hsem Hrun.
  destruct h; cbn [run_handler] in Hrun.
  1, 2:
    (unfold crypto_stm32_ecb_encrypt, crypto_stm32_ecb_decrypt in Hrun;
     destruct (Z.ltb_spec 16 (in_len pkt)) as [Hbig|Hsmall];
     [ injection Hrun as <- <- <-; left; repeat split; (reflexivity || exact Hbig)
     | right;
       unfold bind at 1 in Hrun;
       match type of Hrun with
       | context [do_encrypt ?a ?b ?c ?d ?e ?f] =>
           destruct (do_encrypt a b c d e f) as [[[r1 out1] st2]|] eqn:Hdo;
           [apply (do_encrypt_cases _ _ _ _ _ _ _ _ _ Hsem) in Hdo | discriminate]
       | context [do_decrypt ?a ?b ?c ?d ?e ?f] =>
           destruct (do_decrypt a b c d e f) as [[[r1 out1] st2]|] eqn:Hdo;
           [apply (do_decrypt_cases _ _ _ _ _ _ _ _ _ Hsem) in Hdo | discriminate]
       end;
       destruct Hdo as (sn & Hsn & Hsec);
       apply bound_lookup in Hsn; destruct Hsn as (i & Hi & Hl);
       assert (Hfin : r = r1 /\ st' = st2 /\
                      pkt' = (if r1 =? 0 then set_out_len (set_out pkt out1) 16
                              else set_out pkt out1))
         by (destruct (r1 =? 0); unfold ret in Hrun;
             injection Hrun as <- <- <-; auto);
       destruct Hfin as (-> & -> & ->);
       exists i, sn, (config sn), (out_buf pkt), out1;
       rewrite set_config_same, (list_insert_id _ _ _ Hl), put_sessions_same;
       split; [intros _; exact Hsmall|];
       split; [exact Hi|]; split; [exact Hl|];
       split; [reflexivity|]; split; [reflexivity|];
       split; [exact Hsec | reflexivity] ]).
  all: unfold crypto_stm32_cbc_encrypt, crypto_stm32_cbc_decrypt,
         crypto_stm32_ctr_encrypt, crypto_stm32_ctr_decrypt in Hrun.
  all: right.
  all: unfold bind at 1 in Hrun; unfold lift at 1 in Hrun.
  all: destruct (copy_reverse_words _ _ _ _) as [vec|] eqn:Hcrw; [|discriminate].
  all: unfold bind at 1 in Hrun.
  all: destruct (store_session _ _ _) as [[[] st1]|] eqn:Hst; [|discriminate].
  all: apply store_session_inv in Hst; destruct Hst as (i & s & Hi & Hs & ->).
  all: assert (Hlt : (i < length (crypto_stm32_sessions st))%nat)
         by (eapply lookup_lt_Some; eassumption).
  1: (unfold bind at 1 in Hrun; unfold lift at 1 in Hrun;
      destruct (memcpy _ _ _) as [out0|] eqn:Hcpy; [|discriminate]).
  all: unfold bind at 1 in Hrun.
  all: match type of Hrun with
       | context [do_encrypt ?a ?b ?c ?d ?e ?f] =>
           destruct (do_encrypt a b c d e f) as [[[r1 out1] st2]|] eqn:Hdo;
           [apply do_encrypt_cases in Hdo; [|exact Hsem] | discriminate]
       | context [do_decrypt ?a ?b ?c ?d ?e ?f] =>
           destruct (do_decrypt a b c d e f) as [[[r1 out1] st2]|] eqn:Hdo;
           [apply do_decrypt_cases in Hdo; [|exact Hsem] | discriminate]
       end.
  all: destruct Hdo as (sn & Hsn & Hsec).
  all: rewrite Hi in Hsn; cbn in Hsn.
  all: rewrite list_lookup_insert_eq in Hsn by exact Hlt; injection Hsn as <-.
  all: destruct (r1 =? 0) eqn:Hr1.
  all: try (unfold bind at 1 in Hrun; unfold lift at 1 in Hrun;
            match type of Hrun with
            | context [int_add ?a ?b] =>
                destruct (int_add a b) as [n|] eqn:Hn;
                [apply int_add_inv in Hn; subst n | discriminate]
            | context [int_sub ?a ?b] =>
                destruct (int_sub a b) as [n|] eqn:Hn;
                [apply int_sub_inv in Hn; subst n | discriminate]
            end).
  all: unfold ret in Hrun; injection Hrun as <- <- <-.
  all: exists i, s, (with_pInitVect (config s) vec).
  all: eexists; exists out1.
  all: split; [discriminate|].
  all: split; [exact Hi|]; split; [exact Hs|].
  all: split; [exists vec; split; [exact Hcrw | reflexivity]|].
  all: split; [first [exact Hcpy | reflexivity]|].
  all: split; [exact Hsec|].
  all: rewrite Hr1; reflexivity.
Qed.

Lemma device_section_ret enc inb len out off sn st r out' st' :
  device_section enc inb len out off sn st r out' st' -> r = 0 \/ r = - EIO.
Proof.
  intros (s1 & h1 & _ & _ & _ & _ & [(_ & -> & _)|(_ & s2 & h2 & d & _ & _ & _ & -> & _)]).
  - now right.
  - destruct (status_ok s2); auto.
Qed.

Lemma device_section_trace enc inb len out off sn st r out' st' :
  device_section enc inb len out off sn st r out' st' ->
  exists rest,
    trace st' = trace st ++ EvSemTake DEVICE_SEM
                         :: EvHalSetConfig (config sn) (key sn) :: rest /\
    (r = 0 -> rest = [crypt_event enc inb len; EvSemGive DEVICE_SEM]).
Proof.
  intros (s1 & h1 & _ & _ & _ & _ & [(_ & -> & _ & _ & ->)|(_ & s2 & h2 & d & _ & _ & _ & _ & ->)]).
  - eexists. split; [reflexivity|]. discriminate.
  - eexists. split; [reflexivity|]. reflexivity.
Qed.

(** X2. Whatever a handler returns, it leaves the caller's input buffer and
    input length alone.  It returns 0, [-EIO], or (the block handlers on
    more than 16 bytes) [-EINVAL]; only on 0 does it store an output
    length, and then the one of its mode: 16 for ECB, [in_len + 16] for CBC
    encrypt, [in_len - 16] for CBC decrypt, [in_len] for CTR.  On any
    failure [out_len] keeps the value the caller left in it. *)
Theorem handler_result_and_out_len h ctx pkt iv st r pkt' st' :
  sem_available (device_sem st) ->
  run_handler h ctx pkt iv st = Ok (r, pkt', st') ->
  in_buf pkt' = in_buf pkt /\
  in_len pkt' = in_len pkt /\
  (r = 0 \/ r = - EIO \/
   (r = - EINVAL /\ handler_iv_len h ctx = None /\ 16 < in_len pkt)) /\
  (r = 0 -> out_len pkt' = handler_out_len h (in_len pkt)) /\
  (r <> 0 -> out_len pkt' = out_len pkt) /\
  (r = - EINVAL -> pkt' = pkt /\ st' = st).
Proof.
  intros Hsem Hrun.
  apply run_handler_inv in Hrun; [|exact Hsem].
  destruct Hrun as [(Hecb & Hbig & -> & -> & ->)
                   |(i & s & cfg & out0 & out1 & _ & _ & _ & _ & _ & Hsec & ->)].
  - repeat split; auto; try discriminate;
      try (intros Hne; now contradiction Hne).
  - apply device_section_ret in Hsec.
    destruct Hsec as [-> | ->].
    + change (0 =? 0) with true. cbn.
      repeat split; auto; try discriminate;
        try (intros Hne; now contradiction Hne).
    + change (- EIO =? 0) with false. cbn.
      repeat split; auto; discriminate.
Qed.

(** X3. A handler that returns never touches the pool: the session table
    keeps its size, every session keeps its key, its in-use flag and its
    key-size, algorithm and data-format codes, and the pool lock and the
    device lock are as before.  The only thing it changes in the table is
    the IV pointer of the session the context is bound to; the block
    handlers change nothing at all. *)
Theorem handlers_leave_pool_alone h ctx pkt iv st r pkt' st' :
  sem_available (device_sem st) ->
  run_handler h ctx pkt iv st = Ok (r, pkt', st') ->
  slots st' = slots st /\
  session_sem st' = session_sem st /\
  device_sem st' = device_sem st /\
  length (crypto_stm32_sessions st') = length (crypto_stm32_sessions st) /\
  (handler_iv_len h ctx = None ->
   crypto_stm32_sessions st' = crypto_stm32_sessions st) /\
  (forall k s,
      crypto_stm32_sessions st !! k = Some s ->
      exists s',
        crypto_stm32_sessions st' !! k = Some s' /\
        key s' = key s /\ in_use s' = in_use s /\
        KeySize (config s') = KeySize (config s) /\
        Algorithm (config s') = Algorithm (config s) /\
        pKey (config s') = pKey (config s) /\
        DataType (config s') = DataType (config s) /\
        DataWidthUnit (config s') = DataWidthUnit (config s) /\
        (CRYPTO_STM32_SESSN ctx <> Some k -> s' = s)).
Proof.
  intros Hsem Hrun.
  apply run_handler_inv in Hrun; [|exact Hsem].
  destruct Hrun as [(Hecb & Hbig & -> & -> & ->)
                   |(i & s & cfg & out0 & out1 & _ & Hi & Hs & Hcfg & _ & Hsec & ->)].
  - repeat split; auto.
    intros k s Hk. exists s. repeat split; auto.
  - destruct Hsec as (s1 & h1 & _ & Hss & Hps & Hds & _).
    cbn in Hss, Hps, Hds.
    assert (Hlt : (i < length (crypto_stm32_sessions st))%nat)
      by (eapply lookup_lt_Some; eassumption).
    assert (Hfields : key (set_config s cfg) = key s /\
                      in_use (set_config s cfg) = in_use s /\
                      KeySize cfg = KeySize (config s) /\
                      Algorithm cfg = Algorithm (config s) /\
                      pKey cfg = pKey (config s) /\
                      DataType cfg = DataType (config s) /\
                      DataWidthUnit cfg = DataWidthUnit (config s) /\
                      (handler_iv_len h ctx = None -> cfg = config s)).
    { unfold programmed_config in Hcfg.
      destruct (handler_iv_len h ctx).
      - destruct Hcfg as (vec & _ & ->). cbn. repeat split; auto. discriminate.
      - subst cfg. repeat split; auto. }
    destruct Hfields as (Hk & Hu & H1 & H2 & H3 & H4 & H5 & Hnone).
    split; [|split; [exact Hps|split; [exact Hds|split; [|split]]]].
    + unfold slots. rewrite Hss, list_fmap_insert. cbn [set_config in_use].
      apply list_insert_id. rewrite list_lookup_fmap, Hs. reflexivity.
    + rewrite Hss. apply length_insert.
    + intros Hecb. rewrite Hss, (Hnone Hecb), set_config_same.
      now apply list_insert_id.
    + intros k sk Hsk. rewrite Hss.
      destruct (Nat.eq_dec k i) as [->|Hne].
      * rewrite Hs in Hsk. injection Hsk as <-.
        exists (set_config s cfg).
        rewrite list_lookup_insert_eq by exact Hlt.
        cbn [set_config config key in_use].
        repeat split; auto.
        intros Hno. now contradiction Hno.
      * exists sk. rewrite list_lookup_insert_ne by congruence.
        repeat split; auto.
Qed.


(** X5. CBC decrypt skips the 16-byte IV prefix of the input but passes the
    whole [in_len] on as the size: on success the accelerator was asked for
    16 bytes more than the output length the handler reports, from a region
    that, when the input buffer holds exactly [in_len] bytes, has only
    [in_len - 16] bytes left. *)
Theorem cbc_decrypt_size_includes_prefix ctx pkt iv st pkt' st' :
  sem_available (device_sem st) ->
  crypto_stm32_cbc_decrypt ctx pkt iv st = Ok (0, pkt', st') ->
  exists cfg k,
    trace st' = trace st ++ [EvSemTake DEVICE_SEM; EvHalSetConfig cfg k;
                             EvHalDecrypt (drop 16 (in_buf pkt)) (in_len pkt);
                             EvSemGive DEVICE_SEM] /\
    in_len pkt = out_len pkt' + 16 /\
    (Z.of_nat (length (in_buf pkt)) = in_len pkt -> 16 <= in_len pkt ->
     Z.of_nat (length (drop 16 (in_buf pkt))) = in_len pkt - 16).
Proof.
  intros Hsem Hrun.
  apply (run_handler_inv h_cbc_decrypt) in Hrun; [|exact Hsem].
  destruct Hrun as [(Hecb & _)|(i & s & cfg & out0 & out1 & _ & Hi & Hs & Hcfg & _ & Hsec & ->)];
    [discriminate|].
  destruct (device_section_trace _ _ _ _ _ _ _ _ _ _ Hsec) as (rest & Htr & Hrest).
  rewrite (Hrest eq_refl) in Htr. cbn in Htr.
  do 2 eexists. split; [exact Htr|].
  change (0 =? 0) with true. cbn. split; [lia|].
  intros Hlen Hge. rewrite length_drop. lia.
Qed.

(** X6. A negative nonce length is not caught by the assertion.  When
    [ctr_len / 8] exceeds [keylen], both CTR handlers stop in the [memcpy]
    of the transform, which is asked for close to 2^32 bytes, whether or
    not assertions are compiled in: [dst_len >= src_len] holds for a
    negative [src_len]. *)
Theorem ctr_negative_ivlen_overruns ctx pkt iv st :
  0 <= keylen ctx < 2 ^ 16 ->
  0 <= ctr_len ctx < 2 ^ 32 ->
  keylen ctx < ctr_len ctx / 8 ->
  ctr_ivlen ctx < 0 /\
  __ASSERT_NO_MSG (ctr_ivlen ctx <=? 16) = Ok tt /\
  crypto_stm32_ctr_encrypt ctx pkt iv st = Fault BufferOverrun /\
  crypto_stm32_ctr_decrypt ctx pkt iv st = Fault BufferOverrun.
Proof.
  intros Hk Hc Hneg.
  pose proof (ctr_ivlen_exact ctx Hk Hc) as Hiv.
  assert (Hdiv : ctr_len ctx / 8 < 2 ^ 29)
    by (apply Z.div_lt_upper_bound; lia).
  assert (Hcrw : forall iv, copy_reverse_words (zeros 16) 16 iv (ctr_ivlen ctx)
                            = Fault BufferOverrun).
  { intros iv0. unfold copy_reverse_words, __ASSERT_NO_MSG.
    destruct (Z.leb_spec (ctr_ivlen ctx) 16); [|lia].
    change (Z.rem 16 4 =? 0) with true.
    rewrite !andb_false_r. cbn [rbind].
    unfold memcpy, to_u32. rewrite zeros_length.
    assert (ctr_ivlen ctx mod 2 ^ 32 = ctr_ivlen ctx + 2 ^ 32).
    { symmetry. apply (Z.mod_unique_pos _ _ (-1)); lia. }
    destruct (Z.ltb_spec (Z.of_nat 16) (ctr_ivlen ctx mod 2 ^ 32)); [reflexivity|lia]. }
  split; [lia|]. split.
  - unfold __ASSERT_NO_MSG.
    destruct (Z.leb_spec (ctr_ivlen ctx) 16); [|lia].
    now rewrite andb_false_r.
  - split; [unfold crypto_stm32_ctr_encrypt | unfold crypto_stm32_ctr_decrypt].
    all: unfold bind at 1; unfold lift at 1; rewrite Hcrw; reflexivity.
Qed.

(** *** Setup in full *)

Lemma setup_success_inv ctx algo mode op_type st ctx' st' :
  length (crypto_stm32_sessions st) = CRYPTO_MAX_SESSION ->
  sem_available (session_sem st) ->
  crypto_stm32_session_setup ctx algo mode op_type st = Ok (0, ctx', st') ->
  params_valid ctx algo mode /\
  exists j s k h evs,
    first_unused_at (crypto_stm32_sessions st) j s /\
    copy_reverse_words (key s) CRYPTO_STM32_AES_MAX_KEY_LEN
      (key_bit_stream ctx) (keylen ctx) = Ok k /\
    hw_bringup (hcryp st) = (true, h, evs) /\
    ctx' = bind_ctx ctx
             (snd (select_mode op_type mode
                     (select_KeySize (keylen ctx) config_zero) (ops ctx))) j /\
    st' = after_pool_lock st
            (<[j := bound_session ctx mode op_type k]> (crypto_stm32_sessions st))
            h ([EvSemTake SESSION_SEM; EvSemGive SESSION_SEM] ++ evs).
Proof.
  intros Hlen Hsem Hrun.
  destruct (params_valid_or_rejected ctx algo mode op_type st) as [Hv|Hrej].
  2:{ rewrite Hrej in Hrun. injection Hrun as Hr _ _. discriminate Hr. }
  split; [exact Hv|].
  destruct (first_unused_cases (crypto_stm32_sessions st)) as [(j & s & Hfirst)|Hall].
  2:{ rewrite (setup_full_eq _ _ _ _ _ Hv Hlen Hsem Hall) in Hrun.
      injection Hrun as Hr _ _. discriminate Hr. }
  rewrite (setup_found_eq _ _ _ _ _ j s Hv Hlen Hsem Hfirst) in Hrun.
  destruct (hw_bringup (hcryp st)) as [[ok h] evs] eqn:Hhw.
  destruct ok.
  - destruct (copy_reverse_words _ _ _ _) as [k|f] eqn:Hcrw; [|discriminate].
    injection Hrun as <- <-.
    exists j, s, k, h, evs. auto.
  - injection Hrun as Hr _ _. discriminate Hr.
Qed.

(** The key a successful setup stores. *)
Lemma stored_key_shape (old keybuf k : list byte) (klen : Z) :
  Z.of_nat (length old) = CRYPTO_STM32_AES_MAX_KEY_LEN ->
  keylen_supported klen = true ->
  copy_reverse_words old CRYPTO_STM32_AES_MAX_KEY_LEN keybuf klen = Ok k ->
  klen <= Z.of_nat (length keybuf) /\
  k = reverse_words (take (Z.to_nat klen) keybuf)
      ++ reverse_words (drop (Z.to_nat klen) old) /\
  take (Z.to_nat klen) k = reverse_words (take (Z.to_nat klen) keybuf) /\
  length k = length old.
Proof.
  intros Hold Hk Hcrw.
  apply keylen_supported_cases in Hk.
  unfold CRYPTO_STM32_AES_MAX_KEY_LEN in *.
  apply copy_reverse_words_inv in Hcrw;
    [ | now symmetry | reflexivity | unfold INT_MAX; lia
      | unfold INT_MIN, INT_MAX; lia ].
  destruct Hcrw as (_ & Hsrc & ->).
  assert (Hlen : length (take (Z.to_nat klen) keybuf) = Z.to_nat klen)
    by (rewrite length_take; lia).
  assert (Hmod : (length (take (Z.to_nat klen) keybuf) mod 4 = 0)%nat).
  { rewrite Hlen. destruct Hk as [-> | [-> | ->]]; reflexivity. }
  rewrite (reverse_words_app _ _ Hmod).
  split; [exact Hsrc|]. split; [reflexivity|]. split.
  - rewrite take_app_length'; [reflexivity|].
    now rewrite reverse_words_length.
  - rewrite length_app, !reverse_words_length, length_take, length_drop. lia.
Qed.

(** X7. A setup call that succeeds hands back the context bound to the slot
    it claimed, with the device recorded, the handler of the requested mode
    and direction installed and the caller's own fields untouched.  The
    slot holds the key-size, algorithm and data-format codes of the
    request, no IV pointer, and the key with the bytes of every 32-bit word
    reversed; the part of the 32-byte key buffer behind [keylen] is not
    cleared but holds what was there before, word-reversed once more. *)
Theorem setup_binds_handler_and_key ctx algo mode op_type st ctx' st' :
  table_ok st ->
  sem_available (session_sem st) ->
  crypto_stm32_session_setup ctx algo mode op_type st = Ok (0, ctx', st') ->
  exists j s sn,
    first_unused_at (crypto_stm32_sessions st) j s /\
    drv_sessn_state ctx' = Some j /\
    device ctx' = crypto_stm32_dev /\
    (key_bit_stream ctx' = key_bit_stream ctx /\ keylen ctx' = keylen ctx /\
     flags ctx' = flags ctx /\ ctr_len ctx' = ctr_len ctx) /\
    ops ctx' =
      (let enc := match op_type with CRYPTO_CIPHER_OP_ENCRYPT => true | _ => false end in
       match mode with
       | CRYPTO_CIPHER_MODE_ECB =>
           block_crypt_hndlr (if enc then h_ecb_encrypt else h_ecb_decrypt)
       | CRYPTO_CIPHER_MODE_CBC =>
           cbc_crypt_hndlr (if enc then h_cbc_encrypt else h_cbc_decrypt)
       | CRYPTO_CIPHER_MODE_CTR =>
           ctr_crypt_hndlr (if enc then h_ctr_encrypt else h_ctr_decrypt)
       | _ => ops ctx
       end) /\
    crypto_stm32_sessions st' = <[j := sn]> (crypto_stm32_sessions st) /\
    in_use sn = true /\
    key sn = reverse_words (take (Z.to_nat (keylen ctx)) (key_bit_stream ctx))
             ++ reverse_words (drop (Z.to_nat (keylen ctx)) (key s)) /\
    KeySize (config sn) =
      (if keylen ctx =? 16 then CRYP_KEYSIZE_128B
       else if keylen ctx =? 24 then CRYP_KEYSIZE_192B else CRYP_KEYSIZE_256B) /\
    Algorithm (config sn) =
      (match mode with
       | CRYPTO_CIPHER_MODE_ECB => CRYP_AES_ECB
       | CRYPTO_CIPHER_MODE_CBC => CRYP_AES_CBC
       | _ => CRYP_AES_CTR
       end) /\
    pKey (config sn) = session_key /\
    pInitVect (config sn) = None /\
    DataType (config sn) = CRYP_DATATYPE_8B /\
    DataWidthUnit (config sn) = CRYP_DATAWIDTHUNIT_BYTE.
Proof.
  intros [Hlen Hkeys] Hsem Hrun.
  apply setup_success_inv in Hrun; [|exact Hlen|exact Hsem].
  destruct Hrun as ((_ & _ & Hm & Hk) & j & s & k & h & evs & Hfirst & Hcrw & _ & -> & ->).
  assert (Hs : crypto_stm32_sessions st !! j = Some s) by apply Hfirst.
  destruct (stored_key_shape _ _ _ _ (Hkeys j s Hs) Hk Hcrw) as (_ & Hkey & _).
  exists j, s, (bound_session ctx mode op_type k).
  split; [exact Hfirst|].
  cbn [bind_ctx drv_sessn_state device key_bit_stream keylen flags ctr_len ops
       after_pool_lock crypto_stm32_sessions bound_session config key in_use].
  split; [reflexivity|]. split; [reflexivity|]. split; [auto|].
  apply keylen_supported_cases in Hk.
  split; [|split; [reflexivity|split; [reflexivity|split; [exact Hkey|]]]].
  - destruct mode; try discriminate Hm; destruct op_type; reflexivity.
  - unfold select_KeySize.
    destruct mode; try discriminate Hm;
      destruct op_type; destruct Hk as [-> | [-> | ->]]; cbn; auto 10.
Qed.

(** X8. Setup brings the accelerator up lazily.  With the handle out of
    reset state a setup call makes no HAL call at all and leaves the handle
    as it is; in reset state it calls [HAL_CRYP_Init], once, and only after
    it has claimed a slot: a call rejected for its parameters or for lack
    of a slot never reaches the accelerator. *)
Theorem setup_lazy_init ctx algo mode op_type st r ctx' st' :
  length (crypto_stm32_sessions st) = CRYPTO_MAX_SESSION ->
  sem_available (session_sem st) ->
  crypto_stm32_session_setup ctx algo mode op_type st = Ok (r, ctx', st') ->
  exists evs,
    trace st' = trace st ++ evs /\
    (state_is_reset (State (hcryp st)) = false \/ r = - EINVAL \/ r = - ENOSPC ->
     hcryp st' = hcryp st /\ forallb (fun e => negb (is_hal_event e)) evs = true) /\
    (state_is_reset (State (hcryp st)) = true -> r = 0 \/ r = - EIO ->
     evs = [EvSemTake SESSION_SEM; EvSemGive SESSION_SEM; EvHalInit] /\
     hcryp st' = snd (HAL_CRYP_Init (hcryp st)) /\
     r = (if status_ok (fst (HAL_CRYP_Init (hcryp st))) then 0 else - EIO)).
Proof.
  intros Hlen Hsem Hrun.
  apply setup_inv in Hrun; [|exact Hlen|exact Hsem].
  destruct Hrun as [|Hall|j s status h Hfirst Hreset Hinit Hbad
                   |j s sn o h evs Hfirst Hsn Hkey Hhw].
  - exists []. rewrite app_nil_r. split; [reflexivity|]. split; [auto|].
    intros _ [Hr|Hr]; discriminate Hr.
  - eexists. split; [reflexivity|]. split; [auto|].
    intros _ [Hr|Hr]; discriminate Hr.
  - eexists. split; [reflexivity|]. split.
    + intros [Hno|[Hr|Hr]]; [congruence | discriminate Hr | discriminate Hr].
    + intros _ _. rewrite Hinit. cbn [fst snd]. rewrite Hbad. auto.
  - eexists. split; [reflexivity|].
    unfold hw_bringup in Hhw.
    destruct (state_is_reset (State (hcryp st))) eqn:Hreset.
    + destruct (HAL_CRYP_Init (hcryp st)) as [status h'] eqn:Hinit.
      injection Hhw as Hok <- <-. split.
      * intros [Hno|[Hr|Hr]]; [discriminate Hno | discriminate Hr | discriminate Hr].
      * intros _ _. cbn [fst snd]. rewrite Hok. auto.
    + injection Hhw as <- <-. split; [auto | discriminate].
Qed.

Lemma teardown_ret h r h' evs :
  teardown h = (r, h', evs) -> r = 0 \/ r = - EIO.
Proof.
  unfold teardown. destruct (HAL_CRYP_DeInit h) as [status h0].
  destruct (status_ok status); intros [= <- _ _]; auto.
Qed.

(** X9. Setup and free undo each other on the pool: freeing the context a
    successful setup returned always returns (0, or [-EIO] from a failed
    teardown) and leaves the FREE / BOUND flags exactly as they were before
    the setup.  The key is not wiped: the freed slot still holds the
    word-reversed key of the session. *)
Theorem setup_free_round_trip ctx algo mode op_type st ctx' st1 :
  table_ok st ->
  sem_available (session_sem st) ->
  crypto_stm32_session_setup ctx algo mode op_type st = Ok (0, ctx', st1) ->
  exists rf st2 j sn,
    crypto_stm32_session_free ctx' st1 = Ok (rf, st2) /\
    (rf = 0 \/ rf = - EIO) /\
    slots st2 = slots st /\
    drv_sessn_state ctx' = Some j /\
    crypto_stm32_sessions st2 !! j = Some sn /\
    in_use sn = false /\
    take (Z.to_nat (keylen ctx)) (key sn)
    = reverse_words (take (Z.to_nat (keylen ctx)) (key_bit_stream ctx)).
Proof.
  intros [Hlen Hkeys] Hsem Hrun.
  apply setup_success_inv in Hrun; [|exact Hlen|exact Hsem].
  destruct Hrun as ((_ & _ & _ & Hk) & j & s & k & h & evs & Hfirst & Hcrw & _ & -> & ->).
  destruct Hfirst as (Hj & Hs & _).
  assert (Hlt : (j < length (crypto_stm32_sessions st))%nat)
    by now apply lookup_lt_Some in Hj.
  destruct (stored_key_shape _ _ _ _ (Hkeys j s Hj) Hk Hcrw) as (_ & _ & Hkey & _).
  set (st1 := after_pool_lock st _ h _).
  set (ctx1 := bind_ctx ctx _ j).
  destruct (session_free_total ctx1 st1 j (bound_session ctx mode op_type k))
    as (rf & h2 & mid & Hfree & Hbusy & Hlast).
  - reflexivity.
  - unfold st1. cbn. now apply list_lookup_insert_eq.
  - unfold st1. cbn. now rewrite length_insert.
  - exact Hsem.
  - eexists rf, _, j, _. split; [exact Hfree|]. split; [|split; [|split; [reflexivity|]]].
    + destruct (other_live_dec (crypto_stm32_sessions st1) j) as [Hl|Hn].
      * left. now destruct (Hbusy Hl).
      * specialize (Hlast Hn). symmetry in Hlast.
        eapply teardown_ret. exact Hlast.
    + rewrite slots_insert. unfold st1. cbn [after_pool_lock crypto_stm32_sessions].
      rewrite list_fmap_insert, list_insert_insert_eq. cbn [set_in_use in_use].
      unfold slots.
      apply list_insert_id. rewrite list_lookup_fmap, Hj. cbn. now rewrite Hs.
    + cbn [after_pool_lock crypto_stm32_sessions]. unfold st1.
      cbn [after_pool_lock crypto_stm32_sessions].
      rewrite list_insert_insert_eq.
      split; [now apply list_lookup_insert_eq|].
      split; [reflexivity | exact Hkey].
Qed.

Lemma flags_within_caps (f support : Z) :
  Z.land f support = f -> Z.land f (Z.lnot support) = 0.
Proof.
  intros Hsub. apply Z.bits_inj'. intros n Hn.
  rewrite Z.land_spec, Z.lnot_spec, Z.bits_0 by exact Hn.
  rewrite <- Hsub, Z.land_spec.
  destruct (Z.testbit f n), (Z.testbit support n); reflexivity.
Qed.

(** What setup does once its parameters are accepted: it never faults as
    long as the key buffer holds [keylen] bytes. *)
Lemma setup_when_valid ctx algo mode op_type st :
  params_valid ctx algo mode ->
  table_ok st ->
  sem_available (session_sem st) ->
  keylen ctx <= Z.of_nat (length (key_bit_stream ctx)) ->
  exists r ctx' st',
    crypto_stm32_session_setup ctx algo mode op_type st = Ok (r, ctx', st') /\
    (all_in_use (crypto_stm32_sessions st) -> r = - ENOSPC) /\
    (forall j s, first_unused_at (crypto_stm32_sessions st) j s ->
                 (r = 0 /\ drv_sessn_state ctx' = Some j /\
                  fst (fst (hw_bringup (hcryp st))) = true) \/
                 (r = - EIO /\ fst (fst (hw_bringup (hcryp st))) = false)).
Proof.
  intros Hv [Hlen Hkeys] Hsem Hkey.
  destruct (first_unused_cases (crypto_stm32_sessions st)) as [(j & s & Hfirst)|Hall].
  - rewrite (setup_found_eq _ _ _ _ _ j s Hv Hlen Hsem Hfirst).
    assert (Hcopy : copy_reverse_words (key s) CRYPTO_STM32_AES_MAX_KEY_LEN
                      (key_bit_stream ctx) (keylen ctx)
                    = Ok (reverse_words
                            (take (Z.to_nat (keylen ctx)) (key_bit_stream ctx)
                             ++ drop (Z.to_nat (keylen ctx)) (key s)))).
    { destruct Hv as (_ & _ & _ & Hk).
      apply keylen_supported_cases in Hk.
      apply copy_reverse_words_ok.
      - symmetry. apply (Hkeys j s). apply Hfirst.
      - reflexivity.
      - unfold CRYPTO_STM32_AES_MAX_KEY_LEN, INT_MAX. lia.
      - unfold CRYPTO_STM32_AES_MAX_KEY_LEN. lia.
      - exact Hkey. }
    rewrite Hcopy.
    destruct (hw_bringup (hcryp st)) as [[ok h] evs].
    destruct ok; do 3 eexists; (split; [reflexivity|]).
    + split.
      * intros Hall. destruct Hfirst as (Hj & Hs & _).
        rewrite (Hall j s Hj) in Hs. discriminate Hs.
      * intros j' s' Hfirst'.
        destruct (first_unused_unique _ _ _ _ _ Hfirst Hfirst') as [<- <-].
        left. auto.
    + split.
      * intros Hall. destruct Hfirst as (Hj & Hs & _).
        rewrite (Hall j s Hj) in Hs. discriminate Hs.
      * intros j' s' Hfirst'. right. auto.
  - rewrite (setup_full_eq _ _ _ _ _ Hv Hlen Hsem Hall).
    do 3 eexists. split; [reflexivity|]. split; [reflexivity|].
    intros j s (Hj & Hs & _). rewrite (Hall j s Hj) in Hs. discriminate Hs.
Qed.

(** X10. What [query_hw_caps] advertises is what setup accepts: a context
    whose flags are any subset of the returned capability mask passes the
    flag check, so that with the AES algorithm, a supported mode and key
    length, and a key buffer of [keylen] bytes, setup on a quiet driver
    returns 0, [-ENOSPC] (exactly when every slot is in use) or [-EIO],
    never [-EINVAL]. *)
Theorem query_caps_accepted_by_setup ctx mode op_type st :
  table_ok st ->
  sem_available (session_sem st) ->
  Z.land (flags ctx) crypto_stm32_query_caps = flags ctx ->
  mode_supported mode = true ->
  keylen_supported (keylen ctx) = true ->
  keylen ctx <= Z.of_nat (length (key_bit_stream ctx)) ->
  exists r ctx' st',
    crypto_stm32_session_setup ctx CRYPTO_CIPHER_ALGO_AES mode op_type st
    = Ok (r, ctx', st') /\
    (r = 0 \/ r = - ENOSPC \/ r = - EIO) /\
    (r = - ENOSPC <-> all_in_use (crypto_stm32_sessions st)).
Proof.
  intros Htab Hsem Hflags Hm Hk Hkey.
  assert (Hv : params_valid ctx CRYPTO_CIPHER_ALGO_AES mode).
  { split; [|auto]. apply flags_within_caps. exact Hflags. }
  destruct (setup_when_valid ctx _ mode op_type st Hv Htab Hsem Hkey)
    as (r & ctx' & st' & Hrun & Hfull & Hfound).
  exists r, ctx', st'. split; [exact Hrun|].
  destruct (first_unused_cases (crypto_stm32_sessions st)) as [(j & s & Hfirst)|Hall].
  - assert (Hnot : ~ all_in_use (crypto_stm32_sessions st)).
    { intros Hall. destruct Hfirst as (Hj & Hs & _).
      rewrite (Hall j s Hj) in Hs. discriminate Hs. }
    destruct (Hfound j s Hfirst) as [(-> & _)|(-> & _)].
    + split; [auto|]. split; [discriminate | intros Hall; contradiction].
    + split; [auto|]. split; [discriminate | intros Hall; contradiction].
  - rewrite (Hfull Hall). split; [auto|]. split; auto.
Qed.

(** X11. Two setup calls that succeed one after the other, with no free in
    between, are bound to different slots: no two live contexts share a
    session. *)
Theorem successive_setups_distinct_slots
    ctx1 algo1 mode1 op1 ctx2 algo2 mode2 op2 st ctx1' st1 ctx2' st2 :
  length (crypto_stm32_sessions st) = CRYPTO_MAX_SESSION ->
  sem_available (session_sem st) ->
  crypto_stm32_session_setup ctx1 algo1 mode1 op1 st = Ok (0, ctx1', st1) ->
  crypto_stm32_session_setup ctx2 algo2 mode2 op2 st1 = Ok (0, ctx2', st2) ->
  exists j1 j2,
    drv_sessn_state ctx1' = Some j1 /\ drv_sessn_state ctx2' = Some j2 /\
    j1 <> j2 /\
    slots st2 !! j1 = Some true /\ slots st2 !! j2 = Some true.
Proof.
  intros Hlen Hsem Hrun1 Hrun2.
  apply setup_success_inv in Hrun1; [|exact Hlen|exact Hsem].
  destruct Hrun1 as (_ & j1 & s1 & k1 & h1 & evs1 & Hfirst1 & _ & _ & -> & ->).
  assert (Hlt1 : (j1 < length (crypto_stm32_sessions st))%nat).
  { destruct Hfirst1 as (Hj & _). now apply lookup_lt_Some in Hj. }
  apply setup_success_inv in Hrun2;
    [ | cbn; now rewrite length_insert | exact Hsem ].
  destruct Hrun2 as (_ & j2 & s2 & k2 & h2 & evs2 & Hfirst2 & _ & _ & -> & ->).
  cbn [after_pool_lock crypto_stm32_sessions] in Hfirst2.
  destruct Hfirst2 as (Hj2 & Hs2 & _).
  assert (Hne : j1 <> j2).
  { intros <-. rewrite list_lookup_insert_eq in Hj2 by exact Hlt1.
    injection Hj2 as <-. discriminate Hs2. }
  assert (Hlt2 : (j2 < length (crypto_stm32_sessions st))%nat).
  { apply lookup_lt_Some in Hj2. now rewrite length_insert in Hj2. }
  exists j1, j2. split; [reflexivity|]. split; [reflexivity|]. split; [exact Hne|].
  rewrite slots_insert. cbn [after_pool_lock crypto_stm32_sessions bound_session in_use].
  rewrite list_fmap_insert. cbn [bound_session in_use].
  split.
  - rewrite list_lookup_insert_ne by congruence.
    apply list_lookup_insert_eq. now rewrite length_fmap.
  - apply list_lookup_insert_eq. now rewrite length_insert, length_fmap.
Qed.

(** *** Handlers always return under their preconditions *)





(** *** Setup and the handlers together *)

(** X13. The key reaches the accelerator word-reversed.  After a successful
    setup, a call of the handler it installed that gets as far as the
    accelerator configures it, under the device lock, with the key-size and
    algorithm codes of the request and with the session's key buffer, whose
    first [keylen] bytes are the caller's key with the bytes of every
    32-bit word reversed.  The handler's direction is the one asked for. *)
Theorem setup_then_handler_programs_key
    ctx algo mode op_type st ctx' st1 h pkt iv r pkt' st2 :
  table_ok st ->
  sem_available (session_sem st) ->
  sem_available (device_sem st) ->
  crypto_stm32_session_setup ctx algo mode op_type st = Ok (0, ctx', st1) ->
  handler_of (ops ctx') = Some h ->
  run_handler h ctx' pkt iv st1 = Ok (r, pkt', st2) ->
  r <> - EINVAL ->
  handler_encrypts h
  = match op_type with CRYPTO_CIPHER_OP_ENCRYPT => true | _ => false end /\
  exists cfg k rest,
    trace st2 = trace st1 ++ EvSemTake DEVICE_SEM :: EvHalSetConfig cfg k :: rest /\
    take (Z.to_nat (keylen ctx)) k
    = reverse_words (take (Z.to_nat (keylen ctx)) (key_bit_stream ctx)) /\
    pKey cfg = session_key /\
    KeySize cfg =
      (if keylen ctx =? 16 then CRYP_KEYSIZE_128B
       else if keylen ctx =? 24 then CRYP_KEYSIZE_192B else CRYP_KEYSIZE_256B) /\
    Algorithm cfg =
      (match mode with
       | CRYPTO_CIPHER_MODE_ECB => CRYP_AES_ECB
       | CRYPTO_CIPHER_MODE_CBC => CRYP_AES_CBC
       | _ => CRYP_AES_CTR
       end).
Proof.
  intros [Hlen Hkeys] Hsem Hdev Hsetup Hh Hrun Hne.
  apply setup_success_inv in Hsetup; [|exact Hlen|exact Hsem].
  destruct Hsetup as ((_ & _ & Hm & Hk) & j & s & k & hd & evs & Hfirst & Hcrw & _ & -> & ->).
  assert (Hj : crypto_stm32_sessions st !! j = Some s) by apply Hfirst.
  assert (Hlt : (j < length (crypto_stm32_sessions st))%nat)
    by now apply lookup_lt_Some in Hj.
  destruct (stored_key_shape _ _ _ _ (Hkeys j s Hj) Hk Hcrw) as (_ & _ & Hkey & _).
  cbn [bind_ctx ops] in Hh.
  split.
  { destruct mode; try discriminate Hm; destruct op_type;
      cbn in Hh; injection Hh as <-; reflexivity. }
  apply run_handler_inv in Hrun; [|exact Hdev].
  destruct Hrun as [(_ & _ & -> & _)
                   |(i & sn & cfg & out0 & out1 & _ & Hi & Hs & Hcfg & _ & Hsec & _)];
    [now contradiction Hne|].
  cbn in Hi. injection Hi as <-.
  cbn [after_pool_lock crypto_stm32_sessions] in Hs.
  rewrite list_lookup_insert_eq in Hs by exact Hlt. injection Hs as <-.
  destruct (device_section_trace _ _ _ _ _ _ _ _ _ _ Hsec) as (rest & Htr & _).
  cbn [set_config config key bound_session] in Htr.
  exists cfg, k, rest. split; [exact Htr|]. split; [exact Hkey|].
  assert (Hfields : pKey cfg = pKey (config (bound_session ctx mode op_type k)) /\
                    KeySize cfg = KeySize (config (bound_session ctx mode op_type k)) /\
                    Algorithm cfg = Algorithm (config (bound_session ctx mode op_type k))).
  { unfold programmed_config in Hcfg.
    destruct (handler_iv_len h _).
    - destruct Hcfg as (vec & _ & ->). auto.
    - subst cfg. auto. }
  destruct Hfields as (-> & -> & ->).
  apply keylen_supported_cases in Hk.
  cbn [bound_session config]. unfold select_KeySize.
  destruct mode; try discriminate Hm;
    destruct op_type; destruct Hk as [Hk | [Hk | Hk]]; rewrite !Hk; cbn;
    repeat split; reflexivity.
Qed.

(** *** Invariants *)

Lemma session_free_bound ctx st r st' :
  crypto_stm32_session_free ctx st = Ok (r, st') ->
  exists i s, CRYPTO_STM32_SESSN ctx = Some i /\
              crypto_stm32_sessions st !! i = Some s.
Proof.
  unfold crypto_stm32_session_free. unfold bind at 1.
  destruct (store_session _ _ st) as [[[] st1]|] eqn:Hst; [|discriminate].
  apply store_session_inv in Hst. destruct Hst as (i & s & Hi & Hs & _).
  intros _. eauto.
Qed.

(** X14. No operation leaves a lock behind or damages the table.  If the
    driver is idle (session table of the configured size with 32-byte key
    buffers, both locks free), then it is idle again after any setup call,
    any free call and any handler call that returns, whatever the call
    returned. *)
Theorem operations_keep_driver_idle st :
  driver_idle st ->
  (forall ctx algo mode op_type r ctx' st',
      crypto_stm32_session_setup ctx algo mode op_type st = Ok (r, ctx', st') ->
      driver_idle st') /\
  (forall ctx r st',
      crypto_stm32_session_free ctx st = Ok (r, st') -> driver_idle st') /\
  (forall h ctx pkt iv r pkt' st',
      run_handler h ctx pkt iv st = Ok (r, pkt', st') -> driver_idle st').
Proof.
  intros Hidle. split; [|split].
  - intros ctx algo mode op_type r ctx' st' Hrun.
    now destruct (setup_preserves _ _ _ _ _ _ _ _ Hidle Hrun).
  - intros ctx r st' Hrun.
    destruct Hidle as (Htab & Hss & Hds).
    destruct (session_free_bound _ _ _ _ Hrun) as (i & s & Hi & Hs).
    destruct (session_free_total ctx st i s Hi Hs (proj1 Htab) Hss)
      as (r' & h & mid & Hfree & _).
    rewrite Hfree in Hrun. injection Hrun as _ <-.
    split; [|split; assumption].
    apply table_ok_insert; [exact Htab|].
    intros s0 Hs0. rewrite Hs in Hs0. now injection Hs0 as <-.
  - intros h ctx pkt iv r pkt' st' Hrun.
    destruct Hidle as (Htab & Hss & Hds).
    apply run_handler_inv in Hrun; [|exact Hds].
    destruct Hrun as [(_ & _ & _ & _ & ->)
                     |(i & s & cfg & out0 & out1 & _ & Hi & Hs & _ & _ & Hsec & _)].
    + split; [exact Htab | split; assumption].
    + destruct Hsec as (s1 & h1 & _ & Hsess & Hps & Hdsem & _).
      cbn in Hsess, Hps, Hdsem.
      split; [|split; congruence].
      destruct Htab as [Hlen Hkeys]. split.
      * rewrite Hsess, length_insert. exact Hlen.
      * intros k sk Hk. rewrite Hsess in Hk.
        destruct (Nat.eq_dec k i) as [->|Hne].
        -- rewrite list_lookup_insert_eq in Hk
             by (eapply lookup_lt_Some; eassumption).
           injection Hk as <-. cbn [set_config key]. apply (Hkeys i s Hs).
        -- rewrite list_lookup_insert_ne in Hk by congruence.
           apply (Hkeys k sk Hk).
Qed.

(** *** crypto_stm32_init *)


End MoreDriverFacts.

Section MoreByteOrderFacts.

Context {K : Kconfig}.

(** X16. What the transform leaves in the destination when fewer bytes are
    copied than the destination holds ([src_len] a multiple of 4): the
    result has the length of the destination, begins with the word-reversed
    source bytes, and the destination bytes behind them are word-reversed
    too, not kept; with nothing to copy the whole destination is
    word-reversed.  A tail of zero bytes stays zero. *)
Theorem copy_reverse_words_padding (dst_buf src_buf : list byte) (dst_len src_len : Z) :
  dst_len = Z.of_nat (length dst_buf) ->
  dst_len mod 4 = 0 ->
  dst_len <= INT_MAX ->
  0 <= src_len <= dst_len ->
  src_len mod 4 = 0 ->
  src_len <= Z.of_nat (length src_buf) ->
  exists res,
    copy_reverse_words dst_buf dst_len src_buf src_len = Ok res /\
    length res = length dst_buf /\
    take (Z.to_nat src_len) res = reverse_words (take (Z.to_nat src_len) src_buf) /\
    drop (Z.to_nat src_len) res = reverse_words (drop (Z.to_nat src_len) dst_buf) /\
    (src_len = 0 -> res = reverse_words dst_buf) /\
    (drop (Z.to_nat src_len) dst_buf = zeros (Z.to_nat (dst_len - src_len)) ->
     drop (Z.to_nat src_len) res = zeros (Z.to_nat (dst_len - src_len))).
Proof.
  intros Hdst Hmod Hmax Hsrc Hsmod Hlen.
  rewrite copy_reverse_words_ok by assumption.
  assert (Htk : length (take (Z.to_nat src_len) src_buf) = Z.to_nat src_len)
    by (rewrite length_take; lia).
  assert (Hm4 : (length (take (Z.to_nat src_len) src_buf) mod 4 = 0)%nat).
  { rewrite Htk.
    assert (Hq : src_len = 4 * (src_len / 4)) by (apply Z_div_exact_full_2; lia).
    assert (H0 : 0 <= src_len / 4) by (apply Z.div_pos; lia).
    replace (Z.to_nat src_len) with (Z.to_nat (src_len / 4) * 4)%nat by lia.
    apply Nat.Div0.mod_mul. }
  rewrite (reverse_words_app _ _ Hm4).
  assert (Hrl : length (reverse_words (take (Z.to_nat src_len) src_buf))
                = Z.to_nat src_len) by now rewrite reverse_words_length.
  eexists. split; [reflexivity|].
  split; [|split; [|split; [|split]]].
  - rewrite length_app, !reverse_words_length, length_take, length_drop. lia.
  - rewrite take_app_length'; [reflexivity | now symmetry].
  - rewrite drop_app_length'; [reflexivity | now symmetry].
  - intros ->. reflexivity.
  - intros Hz. rewrite drop_app_length' by now symmetry.
    rewrite Hz. apply reverse_words_zeros.
Qed.

End MoreByteOrderFacts.

(** ** The further properties at work on the stand-in accelerator *)

Lemma sim_state_idle (fl : list bool) (h : Sim.handle) :
  length fl = 2%nat -> driver_idle (K := Sim.K) (Sim.state fl h 1).
Proof.
  intros Hfl. split; [split|].
  - cbn. unfold Sim.table. now rewrite length_map.
  - intros k s Hk. apply sim_table_lookup in Hk.
    destruct Hk as (b & _ & ->). reflexivity.
  - split; vm_compute; split; congruence.
Qed.


Lemma handler_result_and_out_len_witness :
  let ctx := Sim.a_ctx 16 32 (Some 0%nat) in
  let pkt := Sim.a_pkt 5 48 in
  let iv := Sim.bytes_from 100 16 in
  let st := Sim.state [true; false] Sim.ready 1 in
  exists pkt' st',
    run_handler (K := Sim.K) (HAL := Sim.hal) h_ctr_encrypt ctx pkt iv st
    = Ok (0, pkt', st') /\
    in_buf pkt' = in_buf pkt /\ out_len pkt' = in_len pkt.
Proof.
  intros ctx pkt iv st.
  assert (Hrun : exists pkt' st',
             run_handler (K := Sim.K) (HAL := Sim.hal) h_ctr_encrypt ctx pkt iv st
             = Ok (0, pkt', st'))
    by (vm_compute; do 2 eexists; reflexivity).
  destruct Hrun as (pkt' & st' & Hrun).
  exists pkt', st'. split; [exact Hrun|].
  assert (Hsem : sem_available (device_sem st)) by (vm_compute; split; congruence).
  destruct (handler_result_and_out_len (K := Sim.K) (HAL := Sim.hal)
              h_ctr_encrypt ctx pkt iv st 0 pkt' st' Hsem Hrun)
    as (Hb & _ & _ & Hout & _).
  split; [exact Hb | exact (Hout eq_refl)].
Defined.

Lemma handlers_leave_pool_alone_witness :
  let ctx := Sim.a_ctx 16 0 (Some 0%nat) in
  let pkt := Sim.a_pkt 16 48 in
  let iv := Sim.bytes_from 100 16 in
  let st := Sim.state [true; false] Sim.ready 1 in
  exists r pkt' st',
    run_handler (K := Sim.K) (HAL := Sim.hal) h_cbc_encrypt ctx pkt iv st
    = Ok (r, pkt', st') /\
    slots st' = slots st /\ session_sem st' = session_sem st.
Proof.
  intros ctx pkt iv st.
  assert (Hrun : exists r pkt' st',
             run_handler (K := Sim.K) (HAL := Sim.hal) h_cbc_encrypt ctx pkt iv st
             = Ok (r, pkt', st'))
    by (vm_compute; do 3 eexists; reflexivity).
  destruct Hrun as (r & pkt' & st' & Hrun).
  exists r, pkt', st'. split; [exact Hrun|].
  assert (Hsem : sem_available (device_sem st)) by (vm_compute; split; congruence).
  destruct (handlers_leave_pool_alone (K := Sim.K) (HAL := Sim.hal)
              h_cbc_encrypt ctx pkt iv st r pkt' st' Hsem Hrun)
    as (Hsl & Hss & _).
  split; assumption.
Defined.


Lemma cbc_decrypt_size_includes_prefix_witness :
  let ctx := Sim.a_ctx 16 0 (Some 0%nat) in
  let pkt := Sim.a_pkt 32 48 in
  let iv := Sim.bytes_from 100 16 in
  let st := Sim.state [true; false] Sim.ready 1 in
  exists pkt' st',
    crypto_stm32_cbc_decrypt (K := Sim.K) (HAL := Sim.hal) ctx pkt iv st
    = Ok (0, pkt', st') /\
    in_len pkt = out_len pkt' + 16 /\
    Z.of_nat (length (drop 16 (in_buf pkt))) = in_len pkt - 16.
Proof.
  intros ctx pkt iv st.
  assert (Hrun : exists pkt' st',
             crypto_stm32_cbc_decrypt (K := Sim.K) (HAL := Sim.hal) ctx pkt iv st
             = Ok (0, pkt', st'))
    by (vm_compute; do 2 eexists; reflexivity).
  destruct Hrun as (pkt' & st' & Hrun).
  exists pkt', st'. split; [exact Hrun|].
  assert (Hsem : sem_available (device_sem st)) by (vm_compute; split; congruence).
  destruct (cbc_decrypt_size_includes_prefix (K := Sim.K) (HAL := Sim.hal)
              ctx pkt iv st pkt' st' Hsem Hrun)
    as (cfg & k & _ & Hlen & Hreg).
  split; [exact Hlen|].
  apply Hreg; [reflexivity | vm_compute; congruence].
Defined.

Lemma ctr_negative_ivlen_overruns_witness :
  let ctx := Sim.a_ctx 16 256 (Some 0%nat) in
  ctr_ivlen ctx < 0 /\
  forall pkt iv st,
    crypto_stm32_ctr_encrypt (K := Sim.K) (HAL := Sim.hal) ctx pkt iv st
    = Fault BufferOverrun.
Proof.
  intros ctx.
  assert (Hk : 0 <= keylen ctx < 2 ^ 16) by (vm_compute; split; congruence).
  assert (Hc : 0 <= ctr_len ctx < 2 ^ 32) by (vm_compute; split; congruence).
  assert (Hneg : keylen ctx < ctr_len ctx / 8) by (vm_compute; reflexivity).
  split.
  - exact (proj1 (ctr_negative_ivlen_overruns (K := Sim.K) (HAL := Sim.hal) ctx
                    (Sim.a_pkt 1 1) [] (Sim.state [] Sim.ready 1) Hk Hc Hneg)).
  - intros pkt iv st.
    exact (proj1 (proj2 (proj2 (ctr_negative_ivlen_overruns (K := Sim.K) (HAL := Sim.hal)
                                  ctx pkt iv st Hk Hc Hneg)))).
Defined.

Lemma setup_binds_handler_and_key_witness :
  let ctx := Sim.a_ctx 16 0 None in
  let st := Sim.state [true; false] (Sim.fresh_handle false false) 1 in
  exists ctx' st',
    crypto_stm32_session_setup (K := Sim.K) (C := Sim.caps) (HAL := Sim.hal)
      ctx CRYPTO_CIPHER_ALGO_AES CRYPTO_CIPHER_MODE_CBC CRYPTO_CIPHER_OP_DECRYPT st
    = Ok (0, ctx', st') /\
    drv_sessn_state ctx' = Some 1%nat /\
    ops ctx' = cbc_crypt_hndlr h_cbc_decrypt.
Proof.
  intros ctx st.
  assert (Hrun : exists ctx' st',
             crypto_stm32_session_setup (K := Sim.K) (C := Sim.caps) (HAL := Sim.hal)
               ctx CRYPTO_CIPHER_ALGO_AES CRYPTO_CIPHER_MODE_CBC
               CRYPTO_CIPHER_OP_DECRYPT st
             = Ok (0, ctx', st') /\ drv_sessn_state ctx' = Some 1%nat)
    by (vm_compute; do 2 eexists; split; reflexivity).
  destruct Hrun as (ctx' & st' & Hrun & Hslot).
  exists ctx', st'. split; [exact Hrun|]. split; [exact Hslot|].
  destruct (sim_state_idle [true; false] (Sim.fresh_handle false false) eq_refl)
    as (Htab & Hss & _).
  destruct (setup_binds_handler_and_key (K := Sim.K) (C := Sim.caps) (HAL := Sim.hal)
              ctx _ _ _ st ctx' st' Htab Hss Hrun)
    as (j & s & sn & _ & _ & _ & _ & Hops & _).
  exact Hops.
Defined.

Lemma setup_lazy_init_witness :
  let ctx := Sim.a_ctx 16 0 None in
  let st := Sim.state [true; false] Sim.ready 1 in
  exists r ctx' st',
    crypto_stm32_session_setup (K := Sim.K) (C := Sim.caps) (HAL := Sim.hal)
      ctx CRYPTO_CIPHER_ALGO_AES CRYPTO_CIPHER_MODE_CBC CRYPTO_CIPHER_OP_DECRYPT st
    = Ok (r, ctx', st') /\
    hcryp st' = hcryp st.
Proof.
  intros ctx st.
  assert (Hrun : exists r ctx' st',
             crypto_stm32_session_setup (K := Sim.K) (C := Sim.caps) (HAL := Sim.hal)
               ctx CRYPTO_CIPHER_ALGO_AES CRYPTO_CIPHER_MODE_CBC
               CRYPTO_CIPHER_OP_DECRYPT st
             = Ok (r, ctx', st'))
    by (vm_compute; do 3 eexists; reflexivity).
  destruct Hrun as (r & ctx' & st' & Hrun).
  exists r, ctx', st'. split; [exact Hrun|].
  destruct (sim_state_idle [true; false] Sim.ready eq_refl) as ((Hlen & _) & Hss & _).
  destruct (setup_lazy_init (K := Sim.K) (C := Sim.caps) (HAL := Sim.hal)
              ctx _ _ _ st r ctx' st' Hlen Hss Hrun)
    as (evs & _ & Hkeep & _).
  apply Hkeep. left. reflexivity.
Defined.

Lemma setup_free_round_trip_witness :
  let ctx := Sim.a_ctx 16 0 None in
  let st := Sim.state [true; false] Sim.ready 1 in
  exists ctx' st1 rf st2,
    crypto_stm32_session_setup (K := Sim.K) (C := Sim.caps) (HAL := Sim.hal)
      ctx CRYPTO_CIPHER_ALGO_AES CRYPTO_CIPHER_MODE_ECB CRYPTO_CIPHER_OP_ENCRYPT st
    = Ok (0, ctx', st1) /\
    crypto_stm32_session_free (K := Sim.K) (HAL := Sim.hal) ctx' st1 = Ok (rf, st2) /\
    slots st2 = slots st.
Proof.
  intros ctx st.
  assert (Hrun : exists ctx' st1,
             crypto_stm32_session_setup (K := Sim.K) (C := Sim.caps) (HAL := Sim.hal)
               ctx CRYPTO_CIPHER_ALGO_AES CRYPTO_CIPHER_MODE_ECB
               CRYPTO_CIPHER_OP_ENCRYPT st
             = Ok (0, ctx', st1))
    by (vm_compute; do 2 eexists; reflexivity).
  destruct Hrun as (ctx' & st1 & Hrun).
  destruct (sim_state_idle [true; false] Sim.ready eq_refl) as (Htab & Hss & _).
  destruct (setup_free_round_trip (K := Sim.K) (C := Sim.caps) (HAL := Sim.hal)
              ctx _ _ _ st ctx' st1 Htab Hss Hrun)
    as (rf & st2 & j & sn & Hfree & _ & Hslots & _).
  exists ctx', st1, rf, st2. auto.
Defined.

Lemma query_caps_accepted_by_setup_witness :
  let ctx := Sim.a_ctx 24 0 None in
  let st := Sim.state [true; false] Sim.ready 1 in
  exists r ctx' st',
    crypto_stm32_session_setup (K := Sim.K) (C := Sim.caps) (HAL := Sim.hal)
      ctx CRYPTO_CIPHER_ALGO_AES CRYPTO_CIPHER_MODE_CTR CRYPTO_CIPHER_OP_ENCRYPT st
    = Ok (r, ctx', st') /\
    (r = 0 \/ r = - ENOSPC \/ r = - EIO).
Proof.
  intros ctx st.
  destruct (sim_state_idle [true; false] Sim.ready eq_refl) as (Htab & Hss & _).
  destruct (query_caps_accepted_by_setup (K := Sim.K) (C := Sim.caps) (HAL := Sim.hal)
              ctx CRYPTO_CIPHER_MODE_CTR CRYPTO_CIPHER_OP_ENCRYPT st Htab Hss)
    as (r & ctx' & st' & Hrun & Hr & _).
  - reflexivity.
  - reflexivity.
  - reflexivity.
  - vm_compute. congruence.
  - exists r, ctx', st'. auto.
Defined.

Lemma successive_setups_distinct_slots_witness :
  let ctx := Sim.a_ctx 16 0 None in
  let st := Sim.state [false; false] Sim.ready 1 in
  exists ctx1 st1 ctx2 st2,
    crypto_stm32_session_setup (K := Sim.K) (C := Sim.caps) (HAL := Sim.hal)
      ctx CRYPTO_CIPHER_ALGO_AES CRYPTO_CIPHER_MODE_ECB CRYPTO_CIPHER_OP_ENCRYPT st
    = Ok (0, ctx1, st1) /\
    crypto_stm32_session_setup (K := Sim.K) (C := Sim.caps) (HAL := Sim.hal)
      ctx CRYPTO_CIPHER_ALGO_AES CRYPTO_CIPHER_MODE_CBC CRYPTO_CIPHER_OP_ENCRYPT st1
    = Ok (0, ctx2, st2) /\
    drv_sessn_state ctx1 <> drv_sessn_state ctx2.
Proof.
  intros ctx st.
  assert (Hrun : exists ctx1 st1 ctx2 st2,
             crypto_stm32_session_setup (K := Sim.K) (C := Sim.caps) (HAL := Sim.hal)
               ctx CRYPTO_CIPHER_ALGO_AES CRYPTO_CIPHER_MODE_ECB
               CRYPTO_CIPHER_OP_ENCRYPT st
             = Ok (0, ctx1, st1) /\
             crypto_stm32_session_setup (K := Sim.K) (C := Sim.caps) (HAL := Sim.hal)
               ctx CRYPTO_CIPHER_ALGO_AES CRYPTO_CIPHER_MODE_CBC
               CRYPTO_CIPHER_OP_ENCRYPT st1
             = Ok (0, ctx2, st2))
    by (do 4 eexists; split; vm_compute; reflexivity).
  destruct Hrun as (ctx1 & st1 & ctx2 & st2 & Hrun1 & Hrun2).
  exists ctx1, st1, ctx2, st2. split; [exact Hrun1|]. split; [exact Hrun2|].
  destruct (sim_state_idle [false; false] Sim.ready eq_refl) as ((Hlen & _) & Hss & _).
  destruct (successive_setups_distinct_slots (K := Sim.K) (C := Sim.caps) (HAL := Sim.hal)
              _ _ _ _ _ _ _ _ st ctx1 st1 ctx2 st2 Hlen Hss Hrun1 Hrun2)
    as (j1 & j2 & H1 & H2 & Hne & _).
  rewrite H1, H2. intros Heq. injection Heq as Heq. exact (Hne Heq).
Defined.


Lemma setup_then_handler_programs_key_witness :
  let ctx := Sim.a_ctx 16 0 None in
  let pkt := Sim.a_pkt 16 48 in
  let st := Sim.state [false; false] Sim.ready 1 in
  exists ctx' st1 pkt' st2 cfg k rest,
    crypto_stm32_session_setup (K := Sim.K) (C := Sim.caps) (HAL := Sim.hal)
      ctx CRYPTO_CIPHER_ALGO_AES CRYPTO_CIPHER_MODE_ECB CRYPTO_CIPHER_OP_ENCRYPT st
    = Ok (0, ctx', st1) /\
    run_handler (K := Sim.K) (HAL := Sim.hal) h_ecb_encrypt ctx' pkt [] st1
    = Ok (0, pkt', st2) /\
    trace st2 = trace st1 ++ EvSemTake DEVICE_SEM :: EvHalSetConfig cfg k :: rest /\
    take 16 k = reverse_words (take 16 (key_bit_stream ctx)).
Proof.
  intros ctx pkt st.
  assert (Hrun : exists ctx' st1 pkt' st2,
             crypto_stm32_session_setup (K := Sim.K) (C := Sim.caps) (HAL := Sim.hal)
               ctx CRYPTO_CIPHER_ALGO_AES CRYPTO_CIPHER_MODE_ECB
               CRYPTO_CIPHER_OP_ENCRYPT st
             = Ok (0, ctx', st1) /\
             handler_of (ops ctx') = Some h_ecb_encrypt /\
             run_handler (K := Sim.K) (HAL := Sim.hal) h_ecb_encrypt ctx' pkt [] st1
             = Ok (0, pkt', st2))
    by (do 4 eexists; split; [vm_compute; reflexivity|];
        split; vm_compute; reflexivity).
  destruct Hrun as (ctx' & st1 & pkt' & st2 & Hsetup & Hh & Hrun).
  destruct (sim_state_idle [false; false] Sim.ready eq_refl) as (Htab & Hss & Hds).
  destruct (setup_then_handler_programs_key (K := Sim.K) (C := Sim.caps) (HAL := Sim.hal)
              ctx _ _ _ st ctx' st1 h_ecb_encrypt pkt [] 0 pkt' st2
              Htab Hss Hds Hsetup Hh Hrun)
    as (_ & cfg & k & rest & Htr & Hkey & _).
  - intros Hr. discriminate Hr.
  - exists ctx', st1, pkt', st2, cfg, k, rest. auto.
Defined.

Lemma operations_keep_driver_idle_witness :
  let ctx := Sim.a_ctx 16 0 (Some 0%nat) in
  let st := Sim.state [true; false] Sim.ready 1 in
  exists r st',
    crypto_stm32_session_free (K := Sim.K) (HAL := Sim.hal) ctx st = Ok (r, st') /\
    driver_idle (K := Sim.K) st'.
Proof.
  intros ctx st.
  assert (Hrun : exists r st',
             crypto_stm32_session_free (K := Sim.K) (HAL := Sim.hal) ctx st
             = Ok (r, st'))
    by (vm_compute; do 2 eexists; reflexivity).
  destruct Hrun as (r & st' & Hrun).
  exists r, st'. split; [exact Hrun|].
  destruct (operations_keep_driver_idle (K := Sim.K) (C := Sim.caps) (HAL := Sim.hal) st
              (sim_state_idle [true; false] Sim.ready eq_refl))
    as (_ & Hfree & _).
  exact (Hfree ctx r st' Hrun).
Defined.


Lemma copy_reverse_words_padding_witness :
  exists res,
    copy_reverse_words (K := Sim.K) (zeros 32) 32 (Sim.bytes_from 1 16) 16 = Ok res /\
    drop 16 res = zeros 16.
Proof.
  destruct (copy_reverse_words_padding (K := Sim.K) (zeros 32) (Sim.bytes_from 1 16) 32 16)
    as (res & Hrun & _ & _ & _ & _ & Hz);
    [ reflexivity | reflexivity | unfold INT_MAX; lia | lia | reflexivity
    | vm_compute; congruence | ].
  exists res. split; [exact Hrun|].
  apply Hz. reflexivity.
Defined.
